(** * btc-node-monitor: the segmented sample store and its query server

    A shallow embedding of [internal/storage] (type [Storage], the
    functions [Write], [Query], [GetCurrent], [rotateIfNeeded],
    [getFilesForTimeRange], [readFile], [cleanupOldFiles], [compressFile])
    and of [internal/server] (the connection handler and its [GET]
    dispatcher), together with the properties of the storage engine and of
    the request protocol.

    Conventions.
    - An instant ([time.Time]) is an integer number of nanoseconds since the
      Unix epoch, in UTC.
    - The metrics directory [s.dataDir] is a finite map from entry names to
      nodes; [filepath.Join(s.dataDir, name)] is represented by [name].
    - Every call into the operating system can fail; which calls fail is
      chosen by an environment [Env] handed to each operation.
    - The Go standard library ([time], [encoding/json], [compress/gzip],
      [sort], [strings.Fields] and friends) is a record [Runtime] of
      functions; what the proofs need from it is stated as small law
      predicates over that record. *)

From Stdlib Require Import ZArith Lia Ascii.
From Stdlib Require DecimalString DecimalZ.
From stdpp Require Import base option list gmap strings sorting.

Local Open Scope Z_scope.

(** ** Values shared by the packages *)

(** A Go [error]: [None] is [nil]. *)
Abbreviation error := (option string).

Inductive result (A : Type) : Type :=
| Ok (a : A)
| Err (msg : string).
Arguments Ok {A} a.
Arguments Err {A} msg.

(** A Go slice keeps [nil] apart from an empty non-nil slice:
    [json.Marshal] prints the former as [null], the latter as [[]]. *)
Inductive slice (A : Type) : Type :=
| nil_slice
| mk_slice (elems : list A).
Arguments nil_slice {A}.
Arguments mk_slice {A} elems.

Definition slice_elems {A} (s : slice A) : list A :=
  match s with
  | nil_slice => []
  | mk_slice l => l
  end.

(** [append(s, xs...)]: appending nothing returns [s] itself. *)
Definition slice_append {A} (s : slice A) (xs : list A) : slice A :=
  match xs with
  | [] => s
  | _ :: _ => mk_slice (slice_elems s ++ xs)
  end.

(** ** Package strings: the two functions the storage uses on names *)

Module GoStrings.

(** [len(s) >= len(suffix) && s[len(s)-len(suffix):] == suffix] *)
Definition HasSuffix (s suffix : string) : bool :=
  (String.length suffix <=? String.length s)%nat &&
  String.eqb
    (String.substring (String.length s - String.length suffix)
               (String.length suffix) s)
    suffix.

(** [if HasSuffix(s, suffix) { return s[:len(s)-len(suffix)] }; return s] *)
Definition TrimSuffix (s suffix : string) : string :=
  if HasSuffix s suffix
  then String.substring 0 (String.length s - String.length suffix) s
  else s.

End GoStrings.
Import GoStrings.

(** ** Package time *)

Definition Time : Type := Z.

Definition Hour : Z := 3600 * 1000000000.
Definition Day : Z := 24 * Hour.

Definition Before (t u : Time) : bool := t <? u.
Definition After (t u : Time) : bool := u <? t.
Definition Add (t : Time) (d : Z) : Time := t + d.

(** [t.AddDate(0, 0, days)] on a UTC instant: UTC has no clock changes, so
    moving the calendar date by [days] moves the instant by [days] times
    twenty-four hours. *)
Definition AddDate_days (t : Time) (days : Z) : Time := t + days * Day.

(** ** Package metrics *)

(** A [float64] field is carried as its IEEE-754 bit pattern; no operation
    of the storage or of the server looks inside a metrics block. *)
Definition float64 : Type := Z.

Record SystemMetrics := {
  CPUPercent : float64;
  MemoryUsedBytes : Z;
  MemoryTotalBytes : Z;
  MemoryAvailBytes : Z;
  DiskUsedBytes : Z;
  DiskTotalBytes : Z;
  DiskAvailBytes : Z;
  DiskReadBPS : Z;
  DiskWriteBPS : Z;
  NetRxBPS : Z;
  NetTxBPS : Z;
  LoadAvg1m : float64;
  LoadAvg5m : float64;
  LoadAvg15m : float64;
  SysUptimeSeconds : Z
}.

Record BitcoinMetrics := {
  BlockHeight : Z;
  Headers : Z;
  SyncProgress : float64;
  IBD : bool;
  Peers : Z;
  InboundPeers : Z;
  OutboundPeers : Z;
  MempoolTxCount : Z;
  MempoolSizeBytes : Z;
  ChainSizeBytes : Z;
  BtcUptimeSeconds : Z;
  RPCLatencyMs : Z;
  Pruned : bool;
  Chain : string
}.

Record TorMetrics := {
  ControlReachable : bool;
  CircuitCount : Z;
  EstablishedCount : Z;
  BandwidthReadBPS : Z;
  BandwidthWriteBPS : Z;
  OnionServices : Z;
  ControlLatencyMs : Z
}.

Record Sample := {
  Timestamp : Time;
  System : option SystemMetrics;
  Bitcoin : option BitcoinMetrics;
  Tor : option TorMetrics
}.

Record AgentStatus := {
  Running : bool;
  UptimeSeconds : Z;
  CollectionCount : Z;
  LastCollectionTime : Time;
  ErrorCount : Z;
  Version : string
}.

(** ** The Go standard library, as far as the two packages call it *)

Record Runtime := {
  (** [t.Format("2006-01-02")] *)
  time_Format : Time -> string;
  (** [time.Parse("2006-01-02", s)] *)
  time_Parse : string -> option Time;
  (** [time.Parse(time.RFC3339, s)] *)
  time_ParseRFC3339 : string -> result Time;
  (** [json.Marshal] of a [*metrics.Sample] *)
  json_Marshal : Sample -> result string;
  (** [json.Unmarshal(line, &sample)] *)
  json_Unmarshal : string -> option Sample;
  (** [json.Marshal] of a [*metrics.AgentStatus] *)
  json_MarshalStatus : AgentStatus -> result string;
  (** the JSON text of a Go string, quotes included *)
  json_String : string -> string;
  (** what a [gzip.Writer] that is written [data] and closed emits *)
  gzip_Compress : string -> string;
  (** what reading a [gzip.Reader] to the end yields *)
  gzip_Decompress : string -> option string;
  (** [sort.Slice(samples, by Timestamp.Before)] *)
  sort_Slice : list Sample -> list Sample;
  strings_TrimSpace : string -> string;
  strings_Fields : string -> list string;
  strings_ToUpper : string -> string;
  strings_ToLower : string -> string
}.

(** ** The metrics directory and the operating system *)

(** A regular file has an identity (its inode) and its bytes. *)
Inductive node : Type :=
| File (ino : nat) (data : string)
| Dir.

(** The system calls the storage issues; the sequence of calls an
    operation made is kept in the world. *)
Inductive syscall : Type :=
| SysOpenFile (name : string)
| SysOpen (name : string)
| SysCreate (name : string)
| SysWrite (name : string) (data : string)
| SysFsync (name : string)
| SysClose (name : string)
| SysRemove (name : string).

(** A task started with [go]: it has been handed to the scheduler and has
    not run yet. *)
Inductive task : Type :=
| GoCompressFile (path : string)
| GoCleanupOldFiles.

Record World := {
  files : gmap string node;
  next_ino : nat;
  trace : list syscall;
  spawned : list task
}.

Definition set_files (f : gmap string node -> gmap string node) (w : World) : World :=
  {| files := f (files w); next_ino := next_ino w;
     trace := trace w; spawned := spawned w |}.

Definition emit (c : syscall) (w : World) : World :=
  {| files := files w; next_ino := next_ino w;
     trace := trace w ++ [c]; spawned := spawned w |}.

Definition spawn (t : task) (w : World) : World :=
  {| files := files w; next_ino := next_ino w;
     trace := trace w; spawned := spawned w ++ [t] |}.

(** Which calls fail. A failing write or copy still leaves the bytes that
    got through: [fail_Write = Some k] writes [k] bytes and then fails,
    [fail_Copy = Some part] and [fail_Flush = Some part] leave [part] in
    the destination. *)
Record Env := {
  fail_MkdirAll : bool;
  fail_OpenFile : string -> bool;
  fail_Write : option nat;
  fail_Sync : bool;
  fail_ReadDir : bool;
  fail_Open : string -> bool;
  fail_Read : string -> bool;
  fail_Create : string -> bool;
  fail_Copy : option string;
  fail_Flush : option string;
  fail_Remove : string -> bool
}.

(** No call fails. *)
Definition healthy : Env :=
  {| fail_MkdirAll := false;
     fail_OpenFile := fun _ => false; fail_Write := None; fail_Sync := false;
     fail_ReadDir := false; fail_Open := fun _ => false;
     fail_Read := fun _ => false; fail_Create := fun _ => false;
     fail_Copy := None; fail_Flush := None; fail_Remove := fun _ => false |}.

(** The access mode a descriptor was opened with. *)
Inductive access : Type := O_RDONLY | O_WRONLY | O_RDWR.

(** An [*os.File]. [h_append] is [O_APPEND]: every write goes to the end of
    the file, wherever the offset is. *)
Record handle := {
  h_name : string;
  h_ino : nat;
  h_access : access;
  h_append : bool;
  h_closed : bool
}.

Definition close_handle (h : handle) : handle :=
  {| h_name := h_name h; h_ino := h_ino h; h_access := h_access h;
     h_append := h_append h; h_closed := true |}.

(** [os.OpenFile(name, os.O_APPEND|os.O_CREATE|os.O_WRONLY, 0644)] *)
Definition os_OpenFile_append (env : Env) (name : string) (w : World)
  : result handle * World :=
  let w := emit (SysOpenFile name) w in
  if fail_OpenFile env name then (Err "open failed", w)
  else match files w !! name with
       | Some Dir => (Err "is a directory", w)
       | Some (File ino _) =>
           (Ok {| h_name := name; h_ino := ino; h_access := O_WRONLY;
                  h_append := true; h_closed := false |}, w)
       | None =>
           let ino := next_ino w in
           (Ok {| h_name := name; h_ino := ino; h_access := O_WRONLY;
                  h_append := true; h_closed := false |},
            {| files := <[name := File ino ""]> (files w);
               next_ino := S ino; trace := trace w; spawned := spawned w |})
       end.

(** The bytes behind a descriptor: the file is reached by name as long as
    the name still leads to the inode that was opened; once it was unlinked
    (or replaced) the descriptor holds an orphan no path reaches. *)
Definition handle_data (h : handle) (w : World) : option string :=
  match files w !! h_name h with
  | Some (File ino data) => if decide (ino = h_ino h) then Some data else None
  | _ => None
  end.

Definition append_data (h : handle) (bytes : string) (w : World) : World :=
  match handle_data h w with
  | Some data => set_files <[h_name h := File (h_ino h) (data +:+ bytes)]> w
  | None => w
  end.

Definition take_string (k : nat) (s : string) : string := String.substring 0 k s.

(** [f.Write(b)] on a descriptor opened for appending. *)
Definition file_Write (env : Env) (h : handle) (bytes : string) (w : World)
  : error * World :=
  if h_closed h then (Some "file already closed", w)
  else
    match h_access h with
    | O_RDONLY => (Some "bad file descriptor", w)
    | _ =>
        match fail_Write env with
        | Some k =>
            let part := take_string k bytes in
            (Some "write failed",
             emit (SysWrite (h_name h) part) (append_data h part w))
        | None =>
            (None, emit (SysWrite (h_name h) bytes) (append_data h bytes w))
        end
    end.

(** [f.Sync()] *)
Definition file_Sync (env : Env) (h : handle) (w : World) : error * World :=
  if h_closed h then (Some "file already closed", w)
  else
    let w := emit (SysFsync (h_name h)) w in
    if fail_Sync env then (Some "sync failed", w) else (None, w).

(** [f.Seek(0, 0)] *)
Definition file_Seek_start (h : handle) : error :=
  if h_closed h then Some "file already closed" else None.

(** Reading a descriptor to the end. A descriptor opened with [O_WRONLY]
    cannot be read: [read(2)] answers [EBADF]. The bytes of an orphan are
    not kept, and reading one gives nothing. *)
Definition file_ReadAll (env : Env) (h : handle) (w : World) : result string :=
  if h_closed h then Err "file already closed"
  else
    match h_access h with
    | O_WRONLY => Err "bad file descriptor"
    | _ =>
        if fail_Read env (h_name h) then Err "read failed"
        else match handle_data h w with
             | Some data => Ok data
             | None => Ok ""
             end
    end.

(** ** Package bufio: a [Scanner] with the default line splitter *)

Definition newline : Ascii.ascii := "010"%char.
Definition carriage_return : Ascii.ascii := "013"%char.
Definition dquote : Ascii.ascii := "034"%char.

(** The lines of a text: each newline ends a line, and a last line that is
    not empty counts without its newline. *)
Fixpoint splitLines (s : string) : list string :=
  match s with
  | EmptyString => []
  | String c rest =>
      if Ascii.eqb c newline then EmptyString :: splitLines rest
      else match splitLines rest with
           | [] => [String c EmptyString]
           | l :: ls => String c l :: ls
           end
  end.

(** [dropCR]: one trailing carriage return is not part of the token. *)
Fixpoint dropCR (s : string) : string :=
  match s with
  | EmptyString => EmptyString
  | String c EmptyString =>
      if Ascii.eqb c carriage_return then EmptyString else s
  | String c rest => String c (dropCR rest)
  end.

(** [bufio.MaxScanTokenSize]: a line has to fit, with its newline, in a
    buffer of this many bytes. *)
Definition MaxScanTokenSize : Z := 64 * 1024.

Definition too_long (l : string) : bool :=
  MaxScanTokenSize <=? Z.of_nat (String.length l).

(** The tokens [Scan] hands out, and [scanner.Err()] once it returned
    false. *)
Fixpoint scanTokens (ls : list string) : list string * error :=
  match ls with
  | [] => ([], None)
  | l :: rest =>
      if too_long l then ([], Some "bufio.Scanner: token too long")
      else let '(ts, e) := scanTokens rest in (dropCR l :: ts, e)
  end.

Definition scanLines (content : string) : list string * error :=
  scanTokens (splitLines content).

(** ** Package sort: [sort.Strings] *)

(** Go compares strings byte by byte, as [String.le] does. *)
Definition sort_Strings (l : list string) : list string :=
  merge_sort String.le l.

Definition entry_le (a b : string * node) : Prop := String.le a.1 b.1.

#[local] Instance entry_le_dec : RelDecision entry_le.
Proof. intros a b. unfold entry_le. apply _. Defined.

(** [os.ReadDir(s.dataDir)]: the entries of the directory, sorted by
    name. *)
Definition os_ReadDir (env : Env) (w : World) : result (list (string * node)) :=
  if fail_ReadDir env then Err "readdir failed"
  else Ok (merge_sort entry_le (map_to_list (files w))).

(** [os.Create(name)]: create the file or truncate the one that is
    there. *)
Definition os_Create (env : Env) (name : string) (w : World) : error * World :=
  let w := emit (SysCreate name) w in
  if fail_Create env name then (Some "create failed", w)
  else match files w !! name with
       | Some Dir => (Some "is a directory", w)
       | Some (File ino _) => (None, set_files <[name := File ino ""]> w)
       | None =>
           (None,
            {| files := <[name := File (next_ino w) ""]> (files w);
               next_ino := S (next_ino w);
               trace := trace w; spawned := spawned w |})
       end.

(** [os.Remove(name)] *)
Definition os_Remove (env : Env) (name : string) (w : World) : error * World :=
  let w := emit (SysRemove name) w in
  if fail_Remove env name then (Some "remove failed", w)
  else match files w !! name with
       | Some _ => (None, set_files (delete name) w)
       | None => (Some "no such file or directory", w)
       end.

(** Overwriting the bytes of the file a name leads to. *)
Definition put_data (name : string) (bytes : string) (w : World) : World :=
  match files w !! name with
  | Some (File ino _) =>
      emit (SysWrite name bytes) (set_files <[name := File ino bytes]> w)
  | _ => w
  end.

(** ** Package storage *)

Module storage.
Section Storage.

Variable rt : Runtime.

Record Storage := {
  currentFile : option handle;
  currentDay : string;
  retention : Z
}.

Definition segment_name (day : string) : string := day +:+ ".jsonl".

(** [rotateIfNeeded], called at the instant [now]. *)
Definition rotateIfNeeded (env : Env) (now : Time) (s : Storage) (w : World)
  : error * Storage * World :=
  let today := time_Format rt now in
  if String.eqb today (currentDay s) && bool_decide (is_Some (currentFile s))
  then (None, s, w)
  else
    (* Close current file *)
    let '(s, w) :=
      match currentFile s with
      | Some h =>
          let oldPath := segment_name (currentDay s) in
          ({| currentFile := Some (close_handle h);
              currentDay := currentDay s; retention := retention s |},
           spawn (GoCompressFile oldPath)
             (if h_closed h then w else emit (SysClose (h_name h)) w))
      | None => (s, w)
      end in
    (* Open new file *)
    let newPath := segment_name today in
    match os_OpenFile_append env newPath w with
    | (Err e, w) => (Some ("failed to open metrics file: " +:+ e), s, w)
    | (Ok file, w) =>
        (None,
         {| currentFile := Some file; currentDay := today;
            retention := retention s |},
         w)
    end.

(** [NewStorage]: the directory is made, the file of the day is opened and
    the retention sweep is started in the background. *)
Definition NewStorage (env : Env) (now : Time) (retentionDays : Z) (w : World)
  : result Storage * World :=
  if fail_MkdirAll env
  then (Err "failed to create metrics directory: mkdir failed", w)
  else
    let s := {| currentFile := None; currentDay := "";
                retention := retentionDays |} in
    match rotateIfNeeded env now s w with
    | (Some e, _, w) => (Err e, w)
    | (None, s, w) => (Ok s, spawn GoCleanupOldFiles w)
    end.

(** [Write] *)
Definition Write (env : Env) (now : Time) (sample : Sample)
    (s : Storage) (w : World) : error * Storage * World :=
  match rotateIfNeeded env now s w with
  | (Some e, s, w) => (Some e, s, w)
  | (None, s, w) =>
      match json_Marshal rt sample with
      | Err e => (Some ("failed to marshal sample: " +:+ e), s, w)
      | Ok data =>
          match currentFile s with
          | None => (Some "invalid argument", s, w)
          | Some file =>
              match file_Write env file (data +:+ String newline "") w with
              | (Some e, w) =>
                  (Some ("failed to write sample: " +:+ e), s, w)
              | (None, w) =>
                  let '(e, w) := file_Sync env file w in (e, s, w)
              end
          end
      end
  end.

(** The loop of [GetCurrent]: the last token that unmarshals. *)
Fixpoint lastParsed (tokens : list string) (lastSample : option Sample)
  : option Sample :=
  match tokens with
  | [] => lastSample
  | tok :: rest =>
      match json_Unmarshal rt tok with
      | None => lastParsed rest lastSample
      | Some sample => lastParsed rest (Some sample)
      end
  end.

(** [GetCurrent] *)
Definition GetCurrent (env : Env) (s : Storage) (w : World)
  : result (option Sample) :=
  match currentFile s with
  | None => Err "no current file open"
  | Some file =>
      match file_Seek_start file with
      | Some e => Err e
      | None =>
          match file_ReadAll env file w with
          | Err e => Err e
          | Ok content =>
              let '(tokens, e) := scanLines content in
              let lastSample := lastParsed tokens None in
              match e with
              | Some e => Err e
              | None => Ok lastSample
              end
          end
      end
  end.

(** The body of the loop of [getFilesForTimeRange] says for one directory
    entry whether its name is appended to [files]. *)
Definition in_range_entry (startTime endTime : Time) (entry : string * node)
  : bool :=
  match entry.2 with
  | Dir => false
  | File _ _ =>
      let name := entry.1 in
      if negb (HasSuffix name ".jsonl") && negb (HasSuffix name ".jsonl.gz")
      then false
      else
        let dateStr := TrimSuffix (TrimSuffix name ".gz") ".jsonl" in
        match time_Parse rt dateStr with
        | None => false
        | Some fileDate =>
            let fileEndOfDay := Add fileDate (24 * Hour) in
            if Before fileEndOfDay startTime || After fileDate endTime
            then false
            else true
        end
  end.

Fixpoint collectFiles (startTime endTime : Time)
    (entries : list (string * node)) : list string :=
  match entries with
  | [] => []
  | entry :: rest =>
      if in_range_entry startTime endTime entry
      then entry.1 :: collectFiles startTime endTime rest
      else collectFiles startTime endTime rest
  end.

(** [getFilesForTimeRange] *)
Definition getFilesForTimeRange (env : Env) (startTime endTime : Time)
    (w : World) : result (list string) :=
  match os_ReadDir env w with
  | Err e => Err e
  | Ok entries => Ok (sort_Strings (collectFiles startTime endTime entries))
  end.

(** The scanning loop of [readFile]. *)
Fixpoint readLoop (startTime endTime : Time) (tokens : list string)
    (samples : slice Sample) : slice Sample :=
  match tokens with
  | [] => samples
  | tok :: rest =>
      match json_Unmarshal rt tok with
      | None => readLoop startTime endTime rest samples
      | Some sample =>
          if Before (Timestamp sample) startTime
             || After (Timestamp sample) endTime
          then readLoop startTime endTime rest samples
          else readLoop startTime endTime rest (slice_append samples [sample])
      end
  end.

(** [readFile]. A read that fails partway (an I/O error, a damaged gzip
    stream) hands back the samples decoded so far together with the
    error; the only caller drops them, and here none are handed back. *)
Definition readFile (env : Env) (path : string) (startTime endTime : Time)
    (w : World) : slice Sample * error :=
  if fail_Open env path then (nil_slice, Some "open failed")
  else
    match files w !! path with
    | None => (nil_slice, Some "no such file or directory")
    | Some Dir => (nil_slice, Some "is a directory")
    | Some (File _ raw) =>
        if fail_Read env path then (nil_slice, Some "read failed")
        else
          let reader :=
            if HasSuffix path ".gz" then gzip_Decompress rt raw
            else Some raw in
          match reader with
          | None => (nil_slice, Some "gzip: invalid stream")
          | Some content =>
              let '(tokens, e) := scanLines content in
              (readLoop startTime endTime tokens nil_slice, e)
          end
    end.

(** The loop of [Query] over the files. *)
Fixpoint queryLoop (env : Env) (startTime endTime : Time) (w : World)
    (paths : list string) (samples : slice Sample) : slice Sample :=
  match paths with
  | [] => samples
  | file :: rest =>
      match readFile env file startTime endTime w with
      | (_, Some _) => queryLoop env startTime endTime w rest samples
      | (fileSamples, None) =>
          queryLoop env startTime endTime w rest
            (slice_append samples (slice_elems fileSamples))
      end
  end.

Definition sort_Slice_in_place (samples : slice Sample) : slice Sample :=
  match samples with
  | nil_slice => nil_slice
  | mk_slice l => mk_slice (sort_Slice rt l)
  end.

(** [Query] *)
Definition Query (env : Env) (startTime endTime : Time) (w : World)
  : result (slice Sample) :=
  match getFilesForTimeRange env startTime endTime w with
  | Err e => Err e
  | Ok paths =>
      let samples := queryLoop env startTime endTime w paths nil_slice in
      Ok (sort_Slice_in_place samples)
  end.

(** The body of the loop of [cleanupOldFiles] says for one directory entry
    whether [os.Remove] is called on it. *)
Definition expired_entry (cutoff : Time) (entry : string * node) : bool :=
  match entry.2 with
  | Dir => false
  | File _ _ =>
      let name := entry.1 in
      if negb (HasSuffix name ".jsonl.gz") then false
      else
        let dateStr := TrimSuffix (TrimSuffix name ".gz") ".jsonl" in
        match time_Parse rt dateStr with
        | None => false
        | Some fileDate => Before fileDate cutoff
        end
  end.

Fixpoint cleanupLoop (env : Env) (cutoff : Time)
    (entries : list (string * node)) (w : World) : World :=
  match entries with
  | [] => w
  | entry :: rest =>
      if expired_entry cutoff entry
      then cleanupLoop env cutoff rest (os_Remove env entry.1 w).2
      else cleanupLoop env cutoff rest w
  end.

(** [cleanupOldFiles], run at the instant [now]. *)
Definition cleanupOldFiles (env : Env) (now : Time) (s : Storage) (w : World)
  : World :=
  let cutoff := AddDate_days now (- retention s) in
  match os_ReadDir env w with
  | Err _ => w
  | Ok entries => cleanupLoop env cutoff entries w
  end.

(** [compressFile]. Closing a descriptor changes nothing that is kept
    here, so the deferred and the explicit [Close] calls leave no
    mark, except that closing the [gzip.Writer] is what pushes the
    compressed bytes into the destination. *)
Definition compressFile (env : Env) (path : string) (w : World) : World :=
  match files w !! path with
  | None => w (* File doesn't exist *)
  | Some src =>
      (* Open source file *)
      let w := emit (SysOpen path) w in
      if fail_Open env path then w
      else
        (* Create destination file *)
        let dst := path +:+ ".gz" in
        match os_Create env dst w with
        | (Some _, w) => w
        | (None, w) =>
            (* Compress *)
            match src with
            | Dir => put_data dst (gzip_Compress rt "") w
            | File _ data =>
                match fail_Copy env with
                | Some part => put_data dst part w
                | None =>
                    (* Close and delete original *)
                    let out :=
                      match fail_Flush env with
                      | Some part => part
                      | None => gzip_Compress rt data
                      end in
                    let w := put_data dst out w in
                    (os_Remove env path w).2
                end
            end
        end
  end.

End Storage.
End storage.

(** ** Package server *)

Module server.
Section Server.

Variable rt : Runtime.

(** What the handler did to a [net.Conn]: the byte strings it wrote, in
    order, and whether it closed the connection. *)
Record Conn := {
  written : list string;
  closed : bool
}.

Definition fresh_conn : Conn := {| written := []; closed := false |}.

Definition conn_Write (conn : Conn) (bytes : string) : Conn :=
  {| written := written conn ++ [bytes]; closed := closed conn |}.

Definition conn_Close (conn : Conn) : Conn :=
  {| written := written conn; closed := true |}.

Record Server := {
  status : AgentStatus;
  startTime : Time
}.

Definition line_of (data : string) : string := data +:+ String newline "".

(** [json.Marshal(map[string]string{"error": message})] *)
Definition error_json (message : string) : string :=
  "{" +:+ String dquote "error" +:+ String dquote ":"
      +:+ json_String rt message +:+ "}".

(** [writeError] *)
Definition writeError (conn : Conn) (message : string) : Conn :=
  conn_Write conn (line_of (error_json message)).

(** [json.Marshal] of a [[]*metrics.Sample]: [null] for the nil slice,
    otherwise the elements between brackets, separated by commas. *)
Fixpoint marshal_elems (l : list Sample) : result (list string) :=
  match l with
  | [] => Ok []
  | x :: rest =>
      match json_Marshal rt x with
      | Err e => Err e
      | Ok d =>
          match marshal_elems rest with
          | Err e => Err e
          | Ok ds => Ok (d :: ds)
          end
      end
  end.

Fixpoint join_commas (ds : list string) : string :=
  match ds with
  | [] => ""
  | [d] => d
  | d :: rest => d +:+ "," +:+ join_commas rest
  end.

Definition json_MarshalSamples (samples : slice Sample) : result string :=
  match samples with
  | nil_slice => Ok "null"
  | mk_slice l =>
      match marshal_elems l with
      | Err e => Err e
      | Ok ds => Ok ("[" +:+ join_commas ds +:+ "]")
      end
  end.

(** [handleGetStatus], at the instant [now]. *)
Definition handleGetStatus (now : Time) (srv : Server) (conn : Conn)
  : Server * Conn :=
  let st := status srv in
  let st := {| Running := Running st;
               UptimeSeconds := Z.quot (now - startTime srv) 1000000000;
               CollectionCount := CollectionCount st;
               LastCollectionTime := LastCollectionTime st;
               ErrorCount := ErrorCount st;
               Version := Version st |} in
  let srv := {| status := st; startTime := startTime srv |} in
  match json_MarshalStatus rt st with
  | Err e => (srv, writeError conn ("failed to marshal status: " +:+ e))
  | Ok data => (srv, conn_Write conn (line_of data))
  end.

(** [handleGetCurrent] *)
Definition handleGetCurrent (env : Env) (s : storage.Storage) (w : World)
    (conn : Conn) : Conn :=
  match storage.GetCurrent rt env s w with
  | Err e => writeError conn ("failed to get current sample: " +:+ e)
  | Ok None => writeError conn "no samples available"
  | Ok (Some sample) =>
      match json_Marshal rt sample with
      | Err e => writeError conn ("failed to marshal sample: " +:+ e)
      | Ok data => conn_Write conn (line_of data)
      end
  end.

(** [handleGetMetrics] *)
Definition handleGetMetrics (env : Env) (w : World) (conn : Conn)
    (args : list string) : Conn :=
  match args with
  | arg0 :: arg1 :: _ =>
      match time_ParseRFC3339 rt arg0 with
      | Err e => writeError conn ("invalid start time: " +:+ e)
      | Ok startTime =>
          match time_ParseRFC3339 rt arg1 with
          | Err e => writeError conn ("invalid end time: " +:+ e)
          | Ok endTime =>
              match storage.Query rt env startTime endTime w with
              | Err e => writeError conn ("failed to query metrics: " +:+ e)
              | Ok samples =>
                  match json_MarshalSamples samples with
                  | Err e =>
                      writeError conn ("failed to marshal samples: " +:+ e)
                  | Ok data => conn_Write conn (line_of data)
                  end
              end
          end
      end
  | _ => writeError conn "GET metrics requires start and end time (ISO8601)"
  end.

(** [handleGetConfig] *)
Definition handleGetConfig (conn : Conn) : Conn :=
  conn_Write conn (line_of "{}").

(** [handleGet] *)
Definition handleGet (env : Env) (now : Time) (srv : Server)
    (s : storage.Storage) (w : World) (conn : Conn) (args : list string)
  : Server * Conn :=
  match args with
  | [] => (srv, writeError conn "GET requires subcommand")
  | arg0 :: rest =>
      let subcommand := strings_ToLower rt arg0 in
      if String.eqb subcommand "status" then handleGetStatus now srv conn
      else if String.eqb subcommand "current"
           then (srv, handleGetCurrent env s w conn)
      else if String.eqb subcommand "metrics"
           then (srv, handleGetMetrics env w conn rest)
      else if String.eqb subcommand "config"
           then (srv, handleGetConfig conn)
      else (srv, writeError conn ("unknown GET subcommand: " +:+ subcommand))
  end.

(** [handleConnection]. [received] is what [reader.ReadString] gave: a
    line with its newline, or an error when the client sent no complete
    line before the deadline or before closing. The deferred
    [conn.Close()] runs on every path. *)
Definition handleConnection (env : Env) (now : Time) (srv : Server)
    (s : storage.Storage) (w : World) (received : result string)
  : Server * Conn :=
  let conn := fresh_conn in
  let '(srv, conn) :=
    match received with
    | Err _ => (srv, conn)
    | Ok line =>
        let line := strings_TrimSpace rt line in
        let parts := strings_Fields rt line in
        match parts with
        | [] => (srv, writeError conn "empty command")
        | part0 :: rest =>
            let command := strings_ToUpper rt part0 in
            if String.eqb command "GET"
            then handleGet env now srv s w conn rest
            else (srv, writeError conn ("unknown command: " +:+ command))
        end
    end in
  (srv, conn_Close conn).

End Server.
End server.

(** ** What the proofs ask of the standard library *)

Definition ts_le (a b : Sample) : Prop := Timestamp a <= Timestamp b.

(** [sort.Slice] leaves the elements it was given, ordered so that no
    element is [Before] one that precedes it. Go promises no more: the
    order of elements that compare equal is left open. *)
Record SortLaws (rt : Runtime) : Prop := {
  sort_Slice_perm : forall l, sort_Slice rt l ≡ₚ l;
  sort_Slice_sorted : forall l, Sorted ts_le (sort_Slice rt l)
}.

(** What [sort.SliceStable] would add. *)
Definition same_instant (t : Time) (r : Sample) : Prop := Timestamp r = t.

#[local] Instance same_instant_dec t r : Decision (same_instant t r).
Proof. unfold same_instant. apply _. Defined.

Definition StableSort (rt : Runtime) : Prop :=
  forall l t, filter (same_instant t) (sort_Slice rt l) = filter (same_instant t) l.

(** Reading back what the compressor wrote gives the text again. *)
Definition GzipLaws (rt : Runtime) : Prop :=
  forall data, gzip_Decompress rt (gzip_Compress rt data) = Some data.

(** No byte of a text is a newline. *)
Fixpoint one_line (s : string) : bool :=
  match s with
  | EmptyString => true
  | String c rest => negb (Ascii.eqb c newline) && one_line rest
  end.

(** [encoding/json] escapes control characters: what it prints holds no
    newline. *)
Record JsonLaws (rt : Runtime) : Prop := {
  json_String_one_line : forall s, one_line (json_String rt s) = true;
  json_Marshal_one_line :
    forall sample data, json_Marshal rt sample = Ok data -> one_line data = true
}.


(** The storage never makes an empty slice that is not [nil]. *)
Definition grown {A} (s : slice A) : Prop := s <> mk_slice [].

(** Every line fits the buffer of the scanner. *)
Definition lines_fit (ls : list string) : bool :=
  forallb (fun l => negb (too_long l)) ls.

(** The date part the two loops extract from a segment file name. *)
Definition dateStr_of (name : string) : string :=
  TrimSuffix (TrimSuffix name ".gz") ".jsonl".

(** ** The query, in the words of its description *)

Section QueryDescription.

Variable rt : Runtime.

(** [name] is the file of a segment of the calendar day that starts at
    [day]: a regular file called after the date, plain or compressed. *)
Definition segment_file (w : World) (name : string) (day : Time) : Prop :=
  exists d ino data,
    (name = d +:+ ".jsonl" \/ name = d +:+ ".jsonl.gz")
    /\ time_Parse rt d = Some day
    /\ files w !! name = Some (File ino data).

(** The day that starts at [day], its last instant [day + Day] included,
    meets the range from [startTime] to [endTime]. *)
Definition day_overlaps (day startTime endTime : Time) : Prop :=
  startTime <= day + Day /\ day <= endTime.

(** The text of a file as a reader gets it, decompressed when the name says
    so; [None] when the file cannot be read. *)
Definition file_text (env : Env) (w : World) (name : string) : option string :=
  match files w !! name with
  | Some (File _ raw) =>
      if fail_Open env name || fail_Read env name then None
      else if HasSuffix name ".gz" then gzip_Decompress rt raw
      else Some raw
  | _ => None
  end.

(** The records of a text: its lines that parse, top to bottom. *)
Definition parsed_records (text : string) : list Sample :=
  omap (fun l => json_Unmarshal rt (dropCR l)) (splitLines text).

Definition in_range (startTime endTime : Time) (r : Sample) : Prop :=
  startTime <= Timestamp r <= endTime.

#[local] Instance in_range_dec startTime endTime r :
  Decision (in_range startTime endTime r).
Proof. unfold in_range. apply _. Defined.

(** What a query keeps of one file: nothing when the file cannot be read
    (a line that does not fit the scanner is a read failure), otherwise its
    records in the range. *)
Definition kept_records (env : Env) (w : World) (startTime endTime : Time)
    (name : string) : list Sample :=
  match file_text env w name with
  | Some text =>
      if lines_fit (splitLines text)
      then filter (in_range startTime endTime) (parsed_records text)
      else []
  | None => []
  end.

End QueryDescription.

(** What [Query] takes from one file: the samples [readFile] returned, or
    nothing when it returned an error. *)
Definition file_samples (rt : Runtime) (env : Env) (w : World) (startTime endTime : Time)
    (path : string) : list Sample :=
  match storage.readFile rt env path startTime endTime w with
  | (fileSamples, None) => slice_elems fileSamples
  | (_, Some _) => []
  end.

(** ** A small runtime to run the model on

    Days are named by their number since the epoch in decimal, a sample is
    printed as its timestamp followed, when it has a Bitcoin block, by a
    blank and the name of the chain, and compressing puts a mark in front
    of the text. The sort is an insertion sort; which side of its equals an
    element lands on is a switch. *)

Module smallrt.

Definition Z_to_string (z : Z) : string :=
  DecimalString.NilZero.string_of_int (Z.to_int z).

Definition Z_of_string (s : string) : option Z :=
  Z.of_int <$> DecimalString.NilZero.int_of_string s.

Definition Format (t : Time) : string := Z_to_string (t / Day).

Definition Parse (s : string) : option Time :=
  (fun d => Day * d) <$> Z_of_string s.

Definition ParseRFC3339 (s : string) : result Time :=
  match Z_of_string s with
  | Some t => Ok t
  | None => Err "cannot parse as a time"
  end.

Definition bare (ts : Time) : Sample :=
  {| Timestamp := ts; System := None; Bitcoin := None; Tor := None |}.

Definition on_chain (chain : string) : BitcoinMetrics :=
  {| BlockHeight := 0; Headers := 0; SyncProgress := 0; IBD := false;
     Peers := 0; InboundPeers := 0; OutboundPeers := 0; MempoolTxCount := 0;
     MempoolSizeBytes := 0; ChainSizeBytes := 0; BtcUptimeSeconds := 0;
     RPCLatencyMs := 0; Pruned := false; Chain := chain |}.

Definition tagged (ts : Time) (chain : string) : Sample :=
  {| Timestamp := ts; System := None; Bitcoin := Some (on_chain chain);
     Tor := None |}.

Definition blank : ascii := "032"%char.

Definition Marshal (sample : Sample) : result string :=
  let data :=
    match Bitcoin sample with
    | None => Z_to_string (Timestamp sample)
    | Some b => Z_to_string (Timestamp sample) +:+ String blank (Chain b)
    end in
  if one_line data then Ok data else Err "unsupported value".

(** The text up to the first blank, and the text after it if there is
    one. *)
Fixpoint cut_at_blank (s : string) : string * option string :=
  match s with
  | EmptyString => (EmptyString, None)
  | String c rest =>
      if Ascii.eqb c blank then (EmptyString, Some rest)
      else let '(a, b) := cut_at_blank rest in (String c a, b)
  end.

Definition Unmarshal (line : string) : option Sample :=
  let '(a, b) := cut_at_blank line in
  match Z_of_string a with
  | None => None
  | Some ts =>
      Some match b with
           | None => bare ts
           | Some chain => tagged ts chain
           end
  end.

Definition MarshalStatus (st : AgentStatus) : result string :=
  Ok (Z_to_string (UptimeSeconds st)).

Definition backslash : ascii := "092"%char.

Fixpoint escape (s : string) : string :=
  match s with
  | EmptyString => EmptyString
  | String c rest =>
      if Ascii.eqb c newline then String backslash (String "n" (escape rest))
      else if Ascii.eqb c dquote || Ascii.eqb c backslash
           then String backslash (String c (escape rest))
      else String c (escape rest)
  end.

Definition quote (s : string) : string :=
  String dquote (escape s +:+ String dquote EmptyString).

Definition Compress (data : string) : string := "gz:" +:+ data.

Definition Decompress (raw : string) : option string :=
  match raw with
  | String "g" (String "z" (String ":" data)) => Some data
  | _ => None
  end.

(** Insertion from the right end. With [before_equals] an element goes in
    front of the elements of the same instant that followed it, so the sort
    is stable; without, it goes behind them. *)
Fixpoint insert_sample (before_equals : bool) (x : Sample) (l : list Sample)
  : list Sample :=
  match l with
  | [] => [x]
  | y :: rest =>
      if (if before_equals then Timestamp x <=? Timestamp y
          else Timestamp x <? Timestamp y)
      then x :: y :: rest
      else y :: insert_sample before_equals x rest
  end.

Definition insertion_sort (before_equals : bool) (l : list Sample)
  : list Sample :=
  foldr (insert_sample before_equals) [] l.

Fixpoint drop_blanks (s : string) : string :=
  match s with
  | EmptyString => EmptyString
  | String c rest => if Ascii.is_space c then drop_blanks rest else s
  end.

Definition TrimSpace (s : string) : string :=
  String.rev (drop_blanks (String.rev (drop_blanks s))).

Definition upper_char (c : ascii) : ascii :=
  let n := N_of_ascii c in
  if ((97 <=? n) && (n <=? 122))%N then ascii_of_N (n - 32) else c.

Definition lower_char (c : ascii) : ascii :=
  let n := N_of_ascii c in
  if ((65 <=? n) && (n <=? 90))%N then ascii_of_N (n + 32) else c.

Fixpoint map_chars (f : ascii -> ascii) (s : string) : string :=
  match s with
  | EmptyString => EmptyString
  | String c rest => String (f c) (map_chars f rest)
  end.

Definition rt (stable : bool) : Runtime :=
  {| time_Format := Format;
     time_Parse := Parse;
     time_ParseRFC3339 := ParseRFC3339;
     json_Marshal := Marshal;
     json_Unmarshal := Unmarshal;
     json_MarshalStatus := MarshalStatus;
     json_String := quote;
     gzip_Compress := Compress;
     gzip_Decompress := Decompress;
     sort_Slice := insertion_sort stable;
     strings_TrimSpace := TrimSpace;
     strings_Fields := String.words;
     strings_ToUpper := map_chars upper_char;
     strings_ToLower := map_chars lower_char |}.

(** A directory holding the given regular files, numbered from zero. *)
Fixpoint put_files (l : list (string * string)) (ino : nat)
  : gmap string node :=
  match l with
  | [] => ∅
  | (name, data) :: rest => <[name := File ino data]> (put_files rest (S ino))
  end.

Definition world_of (l : list (string * string)) : World :=
  {| files := put_files l 0; next_ino := length l;
     trace := []; spawned := [] |}.

End smallrt.

(** ** The requests the protocol refuses *)


(** ** The retention sweep, in the words of its description *)

(** [name] is the compressed segment file of the day that starts at
    [day]. *)
Definition compressed_segment (rt : Runtime) (name : string) (day : Time)
  : Prop :=
  exists d, name = d +:+ ".jsonl.gz" /\ time_Parse rt d = Some day.

(** ** Histories of the writer *)

Section WriterDescription.

Variable rt : Runtime.

(** A run of the collection loop: each tick calls [Write] at some instant,
    in some environment, and the run goes on as long as [Write] returns
    [nil]. *)
Fixpoint run_writes (ticks : list (Env * Time * Sample))
    (s : storage.Storage) (w : World) : option (storage.Storage * World) :=
  match ticks with
  | [] => Some (s, w)
  | (env, now, sample) :: rest =>
      match storage.Write rt env now sample s w with
      | (None, s, w) => run_writes rest s w
      | (Some _, _, _) => None
      end
  end.

(** The line [Write] appends for a sample. *)
Definition record_line (sample : Sample) : string :=
  match json_Marshal rt sample with
  | Ok data => data +:+ String newline ""
  | Err _ => ""
  end.

(** The bytes the ticks of one day add up to, in the order of the ticks. *)
Fixpoint day_text (day : string) (ticks : list (Env * Time * Sample))
  : string :=
  match ticks with
  | [] => ""
  | (_, now, sample) :: rest =>
      if String.eqb (time_Format rt now) day
      then record_line sample +:+ day_text day rest
      else day_text day rest
  end.

Definition tick_time (tick : Env * Time * Sample) : Time := tick.1.2.

(** Every descriptor the storage holds came from [rotateIfNeeded]: it is
    for writing only, and it belongs to the segment of [currentDay]. *)
Definition from_rotation (s : storage.Storage) : Prop :=
  forall h, storage.currentFile s = Some h ->
    h_access h = O_WRONLY /\ h_name h = storage.segment_name (storage.currentDay s).

End WriterDescription.

(** The calls [compressFile] may make on [path]. *)
Definition compress_call (path : string) (c : syscall) : Prop :=
  c = SysOpen path
  \/ c = SysCreate (path +:+ ".gz")
  \/ (exists bytes, c = SysWrite (path +:+ ".gz") bytes)
  \/ c = SysRemove path.

(** The instants at which the day was looked at: when the storage was made
    and at each tick. *)
Definition observed (t0 : Time) (ticks : list (Env * Time * Sample))
  : list Time :=
  t0 :: (tick_time <$> ticks).

Definition last_observed (t0 : Time) (ticks : list (Env * Time * Sample))
  : Time :=
  default t0 (last (tick_time <$> ticks)).


(** The state of the writer after a run: the descriptor it holds is open
    and belongs to the segment of the day last looked at; the directory
    holds one plain file for each day looked at and nothing else, and the
    file of a day holds the lines of the ticks of that day. *)
Definition writer_inv (rt : Runtime) (t0 : Time) (ticks : list (Env * Time * Sample))
    (s : storage.Storage) (w : World) : Prop :=
  storage.currentDay s = time_Format rt (last_observed t0 ticks)
  /\ (exists h data,
        storage.currentFile s = Some h
        /\ h_closed h = false
        /\ h_name h = storage.segment_name (storage.currentDay s)
        /\ files w !! h_name h = Some (File (h_ino h) data))
  /\ (forall name,
        is_Some (files w !! name) ->
        exists t, t ∈ observed t0 ticks
                  /\ name = storage.segment_name (time_Format rt t))
  /\ (forall t,
        t ∈ observed t0 ticks ->
        exists ino,
          files w !! storage.segment_name (time_Format rt t)
          = Some (File ino (day_text rt (time_Format rt t) ticks))).


(** ** Directories and instants the examples run on *)

Module examples.

Definition nl : string := String newline EmptyString.

(** 2024-01-01T00:00:00Z and the midnight after it. *)
Definition jan1 : Time := 19723 * Day.
Definition jan2 : Time := 19724 * Day.

(** One segment with two records of the same instant around a line that
    does not parse. *)
Definition same_instant_text : string :=
  "1704067200000000005 a" +:+ nl +:+ "not a record" +:+ nl
    +:+ "1704067200000000005 b" +:+ nl.

Definition one_segment : World :=
  smallrt.world_of [("19723.jsonl", same_instant_text)].

(** The plain file of a day next to its compressed form. *)
Definition both_forms : World :=
  smallrt.world_of
    [("19723.jsonl", same_instant_text);
     ("19723.jsonl.gz", smallrt.Compress same_instant_text)].

(** An environment in which the copy into the compressor breaks after a
    few bytes, and one in which the last flush of the compressor fails. *)
Definition copy_fails : Env :=
  {| fail_MkdirAll := false;
     fail_OpenFile := fun _ => false; fail_Write := None; fail_Sync := false;
     fail_ReadDir := false; fail_Open := fun _ => false;
     fail_Read := fun _ => false; fail_Create := fun _ => false;
     fail_Copy := Some "gz:17040"; fail_Flush := None;
     fail_Remove := fun _ => false |}.

Definition flush_fails : Env :=
  {| fail_MkdirAll := false;
     fail_OpenFile := fun _ => false; fail_Write := None; fail_Sync := false;
     fail_ReadDir := false; fail_Open := fun _ => false;
     fail_Read := fun _ => false; fail_Create := fun _ => false;
     fail_Copy := None; fail_Flush := Some "gz:17040";
     fail_Remove := fun _ => false |}.

(** A storage made one nanosecond before midnight, in an empty directory,
    and the first tick two nanoseconds later, with a sample taken before
    midnight. *)
Definition before_midnight : Time := jan2 - 1.
Definition after_midnight : Time := jan2 + 1.

Definition started : result storage.Storage * World :=
  storage.NewStorage (smallrt.rt true) healthy before_midnight 30
    (smallrt.world_of []).

Definition no_storage : storage.Storage :=
  {| storage.currentFile := None; storage.currentDay := "";
     storage.retention := 30 |}.

Definition started_storage : storage.Storage :=
  match started.1 with
  | Ok s => s
  | Err _ => no_storage
  end.

Definition started_world : World := started.2.

Definition first_tick : list (Env * Time * Sample) :=
  [(healthy, after_midnight, smallrt.bare before_midnight)].

Definition after_first_tick : storage.Storage * World :=
  default (no_storage, started_world)
    (run_writes (smallrt.rt true) first_tick started_storage started_world).

(** Ticks on the first day, on the second, and on the first again after the
    clock was set back. *)
Definition clock_set_back : list (Env * Time * Sample) :=
  [(healthy, jan1 + 5, smallrt.bare (jan1 + 5));
   (healthy, jan2 + 5, smallrt.bare (jan2 + 5));
   (healthy, jan1 + 9, smallrt.bare (jan1 + 9))].

(** A directory with an old segment in both forms, swept on the first of
    January with a horizon of thirty days. *)
Definition old_segments : World :=
  smallrt.world_of
    [("19000.jsonl.gz", smallrt.Compress "1641600000000000000");
     ("19000.jsonl", "1641600000000000000")].

Definition srv0 : server.Server :=
  {| server.status :=
       {| Running := true; UptimeSeconds := 0; CollectionCount := 0;
          LastCollectionTime := 0; ErrorCount := 0; Version := "1.0.0" |};
     server.startTime := jan1 |}.

Definition bad_request : string :=
  "GET METRICS notatime 1704067200000000000" +:+ nl.

Definition empty_range_request : string :=
  "get metrics 1704067200000000010 1704153600000000000" +:+ nl.

(** Samples taken ten seconds before and ten seconds after midnight, each
    written at the instant it was taken. *)
Definition ten_seconds : Z := 10000000000.

Definition around_midnight : list (Env * Time * Sample) :=
  [(healthy, jan2 - ten_seconds, smallrt.bare (jan2 - ten_seconds));
   (healthy, jan2 + ten_seconds, smallrt.bare (jan2 + ten_seconds))].

Definition started_on_jan1 : result storage.Storage * World :=
  storage.NewStorage (smallrt.rt true) healthy jan1 30 (smallrt.world_of []).

(** The first tick, call by call. *)
Definition first_rotation : error * storage.Storage * World :=
  storage.rotateIfNeeded (smallrt.rt true) healthy after_midnight
    started_storage started_world.

Definition first_write : error * storage.Storage * World :=
  storage.Write (smallrt.rt true) healthy after_midnight
    (smallrt.bare before_midnight) started_storage started_world.

(** A segment in which a line of 64 KiB stands between two records. *)
Fixpoint filler (n : nat) : string :=
  match n with
  | O => EmptyString
  | S n => String "x" (filler n)
  end.

Definition long_line : string := filler (Z.to_nat MaxScanTokenSize).

Definition long_line_text : string :=
  "1704067200000000005" +:+ nl +:+ long_line +:+ nl
    +:+ "1704067200000000009" +:+ nl.

Definition long_line_segment : World :=
  smallrt.world_of [("19723.jsonl", long_line_text)].

End examples.

(** A text is complete when it is empty or ends with a newline: no line is
    left open at its end. *)
Fixpoint complete (s : string) : bool :=
  match s with
  | EmptyString => true
  | String c EmptyString => Ascii.eqb c newline
  | String _ rest => complete rest
  end.

(** ** More of package storage *)

(** [Close]: the descriptor is closed and stays in the storage. *)
Definition Storage_Close (s : storage.Storage) (w : World)
  : error * storage.Storage * World :=
  match storage.currentFile s with
  | Some h =>
      if h_closed h then (Some "file already closed", s, w)
      else
        (None,
         {| storage.currentFile := Some (close_handle h);
            storage.currentDay := storage.currentDay s;
            storage.retention := storage.retention s |},
         emit (SysClose (h_name h)) w)
  | None => (None, s, w)
  end.

(** The inode [os.Create] leaves under a name: the one that is there, or a
    fresh one. *)
Definition created_ino (name : string) (w : World) : nat :=
  match files w !! name with
  | Some (File ino _) => ino
  | _ => next_ino w
  end.

(** The days the writer left, in order: walking along the days seen, each
    change of day leaves the day before it. *)
Fixpoint days_left (current : string) (days : list string) : list string :=
  match days with
  | [] => []
  | day :: rest =>
      if String.eqb day current then days_left current rest
      else current :: days_left day rest
  end.

(** The task [rotateIfNeeded] starts when it leaves a day. *)
Definition compress_task (day : string) : task :=
  GoCompressFile (storage.segment_name day).

(** ** More of package server *)

(** [UpdateStatus] *)
Definition Server_UpdateStatus (srv : server.Server)
    (collectionCount errorCount : Z) (lastCollectionTime : Time)
  : server.Server :=
  let st := server.status srv in
  {| server.status :=
       {| Running := Running st;
          UptimeSeconds := UptimeSeconds st;
          CollectionCount := collectionCount;
          LastCollectionTime := lastCollectionTime;
          ErrorCount := errorCount;
          Version := Version st |};
     server.startTime := server.startTime srv |}.

(** ** Command btc-monitor: the collection loop *)

Module main.
Section Main.

Variable rt : Runtime.

(** An [int64] after an operation: the result wraps around. *)
Definition int64 (z : Z) : Z := (z + 2 ^ 63) mod 2 ^ 64 - 2 ^ 63.

(** The counters of [main] and what [collectAndStore] reaches through its
    pointers. *)
Record Loop := {
  collectionCount : Z;
  errorCount : Z;
  srv : server.Server;
  stor : storage.Storage;
  world : World
}.

(** [collectAndStore]. [collected] is what [coll.Collect()] gave: a sample,
    or nothing when it panicked and the deferred function recovered. *)
Definition collectAndStore (env : Env) (now : Time) (collected : option Sample)
    (l : Loop) : Loop :=
  match collected with
  | None =>
      {| collectionCount := collectionCount l;
         errorCount := int64 (errorCount l + 1);
         srv := srv l; stor := stor l; world := world l |}
  | Some sample =>
      match storage.Write rt env now sample (stor l) (world l) with
      | (Some _, s, w) =>
          {| collectionCount := collectionCount l;
             errorCount := int64 (errorCount l + 1);
             srv := srv l; stor := s; world := w |}
      | (None, s, w) =>
          let count := int64 (collectionCount l + 1) in
          {| collectionCount := count;
             errorCount := errorCount l;
             srv := Server_UpdateStatus (srv l) count (errorCount l)
                      (Timestamp sample);
             stor := s; world := w |}
      end
  end.

(** The initial collection and the ticks after it, one call each. *)
Fixpoint run_ticks (ticks : list (Env * Time * option Sample)) (l : Loop)
  : Loop :=
  match ticks with
  | [] => l
  | (env, now, collected) :: rest =>
      run_ticks rest (collectAndStore env now collected l)
  end.

(** The state [main] starts the loop in. *)
Definition start (srv0 : server.Server) (s : storage.Storage) (w : World)
  : Loop :=
  {| collectionCount := 0; errorCount := 0; srv := srv0; stor := s;
     world := w |}.

(** A tick stored its sample. *)
Definition stored (tick : Env * Time * option Sample) (l : Loop) : bool :=
  match tick.2 with
  | None => false
  | Some sample =>
      match storage.Write rt tick.1.1 tick.1.2 sample (stor l) (world l) with
      | (None, _, _) => true
      | _ => false
      end
  end.

End Main.
End main.

(** ** Package config *)

Module config.

Record BitcoinConfig := {
  Bitcoin_Enabled : bool;
  CLIPath : string;
  Bitcoin_DataDir : string;
  User : string;
  Bitcoin_TimeoutSeconds : Z
}.

Record TorConfig := {
  Tor_Enabled : bool;
  ControlPort : Z;
  CookiePath : string;
  Tor_TimeoutSeconds : Z
}.

Record SystemConfig := {
  System_Enabled : bool;
  MonitorDiskPath : string
}.

Record Config := {
  CollectionIntervalSeconds : Z;
  RetentionDays : Z;
  DataDir : string;
  SocketPath : string;
  Bitcoin : BitcoinConfig;
  Tor : TorConfig;
  System : SystemConfig
}.

(** [DefaultConfig] *)
Definition DefaultConfig : Config :=
  {| CollectionIntervalSeconds := 30;
     RetentionDays := 30;
     DataDir := "/var/lib/bitcoin-monitor";
     SocketPath := "/var/run/bitcoin-monitor.sock";
     Bitcoin :=
       {| Bitcoin_Enabled := true;
          CLIPath := "/usr/local/bin/bitcoin-cli";
          Bitcoin_DataDir := "/var/lib/bitcoin";
          User := "bitcoin";
          Bitcoin_TimeoutSeconds := 10 |};
     Tor :=
       {| Tor_Enabled := true;
          ControlPort := 9051;
          CookiePath := "/var/lib/tor/control_auth_cookie";
          Tor_TimeoutSeconds := 10 |};
     System :=
       {| System_Enabled := true;
          MonitorDiskPath := "/var/lib/bitcoin" |} |}.

(** The file at the configuration path: absent, there but not readable, or
    readable with some content. *)
Inductive file_state :=
| NotExist
| Unreadable (e : string)
| Content (data : string).

(** How [os.WriteFile] goes: well, or the file cannot be opened, or the
    write breaks after some bytes. *)
Inductive write_fault :=
| WriteOk
| OpenFails
| WriteFails (k : nat).

Definition set_Bitcoin (b : BitcoinConfig) (cfg : Config) : Config :=
  {| CollectionIntervalSeconds := CollectionIntervalSeconds cfg;
     RetentionDays := RetentionDays cfg;
     DataDir := DataDir cfg;
     SocketPath := SocketPath cfg;
     Bitcoin := b; Tor := Tor cfg; System := System cfg |}.

Definition set_Tor (t : TorConfig) (cfg : Config) : Config :=
  {| CollectionIntervalSeconds := CollectionIntervalSeconds cfg;
     RetentionDays := RetentionDays cfg;
     DataDir := DataDir cfg;
     SocketPath := SocketPath cfg;
     Bitcoin := Bitcoin cfg; Tor := t; System := System cfg |}.

Section Config.

(** [json.Unmarshal(data, cfg)], which fills the fields the text names into
    the value it is given, and [json.MarshalIndent(cfg, "", "  ")]. *)
Variable json_Unmarshal : string -> Config -> result Config.
Variable json_MarshalIndent : Config -> result string.

(** The defaults [LoadConfig] applies to zero-valued critical fields, one
    test after the other. *)
Definition apply_defaults (cfg : Config) : Config :=
  let cfg :=
    if String.eqb (CLIPath (Bitcoin cfg)) ""
    then set_Bitcoin
           {| Bitcoin_Enabled := Bitcoin_Enabled (Bitcoin cfg);
              CLIPath := "/usr/local/bin/bitcoin-cli";
              Bitcoin_DataDir := Bitcoin_DataDir (Bitcoin cfg);
              User := User (Bitcoin cfg);
              Bitcoin_TimeoutSeconds := Bitcoin_TimeoutSeconds (Bitcoin cfg) |}
           cfg
    else cfg in
  let cfg :=
    if String.eqb (User (Bitcoin cfg)) ""
    then set_Bitcoin
           {| Bitcoin_Enabled := Bitcoin_Enabled (Bitcoin cfg);
              CLIPath := CLIPath (Bitcoin cfg);
              Bitcoin_DataDir := Bitcoin_DataDir (Bitcoin cfg);
              User := "bitcoin";
              Bitcoin_TimeoutSeconds := Bitcoin_TimeoutSeconds (Bitcoin cfg) |}
           cfg
    else cfg in
  let cfg :=
    if Bitcoin_TimeoutSeconds (Bitcoin cfg) =? 0
    then set_Bitcoin
           {| Bitcoin_Enabled := Bitcoin_Enabled (Bitcoin cfg);
              CLIPath := CLIPath (Bitcoin cfg);
              Bitcoin_DataDir := Bitcoin_DataDir (Bitcoin cfg);
              User := User (Bitcoin cfg);
              Bitcoin_TimeoutSeconds := 10 |}
           cfg
    else cfg in
  let cfg :=
    if ControlPort (Tor cfg) =? 0
    then set_Tor
           {| Tor_Enabled := Tor_Enabled (Tor cfg);
              ControlPort := 9051;
              CookiePath := CookiePath (Tor cfg);
              Tor_TimeoutSeconds := Tor_TimeoutSeconds (Tor cfg) |}
           cfg
    else cfg in
  if Tor_TimeoutSeconds (Tor cfg) =? 0
  then set_Tor
         {| Tor_Enabled := Tor_Enabled (Tor cfg);
            ControlPort := ControlPort (Tor cfg);
            CookiePath := CookiePath (Tor cfg);
            Tor_TimeoutSeconds := 10 |}
         cfg
  else cfg.

(** [LoadConfig] *)
Definition LoadConfig (f : file_state) : result Config :=
  (* Start with default config *)
  let cfg := DefaultConfig in
  match f with
  | NotExist => Ok cfg
  | Unreadable e => Err e
  | Content data =>
      match json_Unmarshal data cfg with
      | Err e => Err e
      | Ok cfg => Ok (apply_defaults cfg)
      end
  end.

(** [os.WriteFile(path, data, 0644)]: the file is created or truncated,
    then written. *)
Definition os_WriteFile (fault : write_fault) (data : string) (f : file_state)
  : error * file_state :=
  match fault with
  | OpenFails => (Some "open failed", f)
  | WriteFails k => (Some "write failed", Content (take_string k data))
  | WriteOk => (None, Content data)
  end.

(** [SaveConfig] *)
Definition SaveConfig (fault : write_fault) (cfg : Config) (f : file_state)
  : error * file_state :=
  match json_MarshalIndent cfg with
  | Err e => (Some e, f)
  | Ok data => os_WriteFile fault data f
  end.

(** The fields [LoadConfig] never leaves at their zero value. *)
Definition critical_set (cfg : Config) : Prop :=
  CLIPath (Bitcoin cfg) <> ""
  /\ User (Bitcoin cfg) <> ""
  /\ Bitcoin_TimeoutSeconds (Bitcoin cfg) <> 0
  /\ ControlPort (Tor cfg) <> 0
  /\ Tor_TimeoutSeconds (Tor cfg) <> 0.

End Config.
End config.

(** ** Package strings, as far as the Tor collector calls it *)

(** [strings.HasPrefix(s, prefix)] *)
Definition strings_HasPrefix (s prefix : string) : bool := String.prefix prefix s.

(** [strings.Contains(s, substr)] *)
Fixpoint strings_Contains (s substr : string) : bool :=
  String.prefix substr s
  || match s with
     | EmptyString => false
     | String _ rest => strings_Contains rest substr
     end.

(** [strings.Split(s, sep)] for a separator of one byte: the pieces between
    the separators, one more than there are separators. *)
Fixpoint strings_Split (s : string) (sep : Ascii.ascii) : list string :=
  match s with
  | EmptyString => [EmptyString]
  | String c rest =>
      if Ascii.eqb c sep then EmptyString :: strings_Split rest sep
      else match strings_Split rest sep with
           | [] => [String c EmptyString]
           | piece :: pieces => String c piece :: pieces
           end
  end.

(** How often a byte occurs in a text, and the text before its first
    occurrence. *)
Fixpoint count_byte (c : Ascii.ascii) (s : string) : nat :=
  match s with
  | EmptyString => 0
  | String a rest =>
      if Ascii.eqb a c then S (count_byte c rest) else count_byte c rest
  end.

Fixpoint before_byte (c : Ascii.ascii) (s : string) : string :=
  match s with
  | EmptyString => EmptyString
  | String a rest =>
      if Ascii.eqb a c then EmptyString else String a (before_byte c rest)
  end.

(** [fmt.Sprintf("%x", b)] for a byte slice: two lower-case hexadecimal
    digits for each byte. *)
Definition hex_digit (n : N) : Ascii.ascii :=
  if (n <? 10)%N then Ascii.ascii_of_N (48 + n) else Ascii.ascii_of_N (87 + n).

Fixpoint hex_bytes (s : string) : string :=
  match s with
  | EmptyString => EmptyString
  | String c rest =>
      let n := Ascii.N_of_ascii c in
      String (hex_digit (n / 16)) (String (hex_digit (n mod 16)) (hex_bytes rest))
  end.

(** ** Package collector: the Tor collector *)

Module collector.
Section Collector.

Variable rt : Runtime.

(** The control connection: the complete lines that will arrive, each with
    its line end; the bytes that arrive after them without a newline
    before the connection ends or the deadline passes; and what was sent. *)
Record Control := {
  pending : list string;
  unfinished : string;
  sent : list string
}.

(** [reader.ReadString('\n')] *)
Definition ReadString (c : Control) : string * error * Control :=
  match pending c with
  | line :: rest =>
      (line, None,
       {| pending := rest; unfinished := unfinished c; sent := sent c |})
  | [] =>
      (unfinished c, Some "EOF",
       {| pending := []; unfinished := ""; sent := sent c |})
  end.

(** [writer.WriteString(s)] followed by [writer.Flush()], whose errors the
    collector does not look at. *)
Definition WriteString (s : string) (c : Control) : Control :=
  {| pending := pending c; unfinished := unfinished c;
     sent := sent c ++ [s] |}.

Definition crlf : string := String carriage_return (String newline "").

(** [authenticate]; [cookie] is what [os.ReadFile(c.cookiePath)] gave. *)
Definition authenticate (cookie : result string) (c : Control)
  : error * Control :=
  match cookie with
  | Err e =>
      (* Try PROTOCOLINFO to see if no auth needed *)
      let c := WriteString ("PROTOCOLINFO 1" +:+ crlf) c in
      let '(response, _, c) := ReadString c in
      if strings_Contains response "NULL" then (None, c)
      else (Some ("failed to read cookie: " +:+ e), c)
  | Ok cookie =>
      let c := WriteString ("AUTHENTICATE " +:+ hex_bytes cookie +:+ crlf) c in
      match ReadString c with
      | (_, Some e, c) => (Some ("authentication failed: " +:+ e), c)
      | (response, None, c) =>
          if negb (strings_HasPrefix response "250")
          then (Some ("authentication rejected: " +:+ response), c)
          else (None, c)
      end
  end.

(** The loop of [getCircuits], on the lines still to come. *)
Fixpoint getCircuits_loop (lines : list string) (circuits : slice string)
  : option (slice string * list string) :=
  match lines with
  | [] => None
  | raw :: rest =>
      let line := strings_TrimSpace rt raw in
      if strings_HasPrefix line "250 OK" then Some (circuits, rest)
      else if strings_HasPrefix line "250-circuit-status="
              || strings_HasPrefix line "250+circuit-status="
           then getCircuits_loop rest circuits
      else if String.eqb line "250 OK" || String.eqb line "."
           then Some (circuits, rest)
      else if strings_HasPrefix line "250" && strings_Contains line "BUILT"
           then getCircuits_loop rest (slice_append circuits [line])
      else getCircuits_loop rest circuits
  end.

(** [getCircuits] *)
Definition getCircuits (c : Control) : result (slice string) * Control :=
  let c := WriteString ("GETINFO circuit-status" +:+ crlf) c in
  match getCircuits_loop (pending c) nil_slice with
  | Some (circuits, rest) =>
      (Ok circuits,
       {| pending := rest; unfinished := unfinished c; sent := sent c |})
  | None =>
      (Err "EOF", {| pending := []; unfinished := ""; sent := sent c |})
  end.

(** [getBandwidth] *)
Definition getBandwidth (c : Control) : Z * Z * error * Control :=
  (0, 0, None, c).

(** The loop of [getOnionServices]. *)
Fixpoint getOnionServices_loop (lines : list string) (count : Z)
  : option (Z * list string) :=
  match lines with
  | [] => None
  | raw :: rest =>
      let line := strings_TrimSpace rt raw in
      if strings_HasPrefix line "250 OK" then Some (count, rest)
      else
        let count :=
          if strings_HasPrefix line "250-onions/current="
             || strings_HasPrefix line "250+onions/current="
          then
            match strings_Split line "="%char with
            | _ :: part1 :: _ =>
                Z.of_nat (length (strings_Split part1 ","%char))
            | _ => count
            end
          else count in
        if String.eqb line "." then Some (count, rest)
        else getOnionServices_loop rest count
  end.

(** [getOnionServices] *)
Definition getOnionServices (c : Control) : result Z * Control :=
  let c := WriteString ("GETINFO onions/current" +:+ crlf) c in
  match getOnionServices_loop (pending c) 0 with
  | Some (count, rest) =>
      (Ok count,
       {| pending := rest; unfinished := unfinished c; sent := sent c |})
  | None =>
      (Err "EOF", {| pending := []; unfinished := ""; sent := sent c |})
  end.

Definition no_metrics : TorMetrics :=
  {| ControlReachable := false; CircuitCount := 0; EstablishedCount := 0;
     BandwidthReadBPS := 0; BandwidthWriteBPS := 0; OnionServices := 0;
     ControlLatencyMs := 0 |}.

(** The loop of [Collect] that counts the established circuits. *)
Fixpoint count_established (circuits : list string) (count : Z) : Z :=
  match circuits with
  | [] => count
  | circuit :: rest =>
      count_established rest
        (if strings_Contains circuit "BUILT" then count + 1 else count)
  end.

(** [TorCollector.Collect]. [dialed] is the connection [net.DialTimeout]
    gave, if it gave one; [startTime] and [authTime] are the readings of
    the clock before the dial and after the authentication. *)
Definition Tor_Collect (dialed : option Control) (cookie : result string)
    (startTime authTime : Time) : TorMetrics * error :=
  match dialed with
  | None => (no_metrics, None) (* Not an error, just Tor not available *)
  | Some c =>
      match authenticate cookie c with
      | (Some _, _) =>
          ({| ControlReachable := true; CircuitCount := 0;
              EstablishedCount := 0; BandwidthReadBPS := 0;
              BandwidthWriteBPS := 0; OnionServices := 0;
              ControlLatencyMs := 0 |}, None)
      | (None, c) =>
          let latency := Z.quot (authTime - startTime) 1000000 in
          let '(circuits, c) := getCircuits c in
          let '(circuitCount, establishedCount) :=
            match circuits with
            | Ok circuits =>
                (Z.of_nat (length (slice_elems circuits)),
                 count_established (slice_elems circuits) 0)
            | Err _ => (0, 0)
            end in
          let '(readBytes, writeBytes, _, c) := getBandwidth c in
          let '(onions, c) := getOnionServices c in
          ({| ControlReachable := true;
              CircuitCount := circuitCount;
              EstablishedCount := establishedCount;
              BandwidthReadBPS := readBytes;
              BandwidthWriteBPS := writeBytes;
              OnionServices := match onions with Ok n => n | Err _ => 0 end;
              ControlLatencyMs := latency |}, None)
      end
  end.

(** [Collector.Collect], at the instant [now]: [system] and [bitcoin] are
    what the two other collectors gave, [tor] what [TorCollector.Collect]
    gave. A collector that is not enabled is not called. *)
Definition Collect (cfg : config.Config) (now : Time)
    (system : result SystemMetrics) (bitcoin : result BitcoinMetrics)
    (tor : TorMetrics * error) : Sample :=
  {| Timestamp := now;
     System :=
       if config.System_Enabled (config.System cfg)
       then match system with Ok m => Some m | Err _ => None end
       else None;
     Bitcoin :=
       if config.Bitcoin_Enabled (config.Bitcoin cfg)
       then match bitcoin with Ok m => Some m | Err _ => None end
       else None;
     Tor :=
       if config.Tor_Enabled (config.Tor cfg)
       then match tor with (m, None) => Some m | (_, Some _) => None end
       else None |}.

End Collector.
End collector.

(** The lines that open a list in a reply of the control port. *)
Definition circuit_list_line (l : string) : bool :=
  strings_HasPrefix l "250-circuit-status="
  || strings_HasPrefix l "250+circuit-status=".

Definition onion_list_line (l : string) : bool :=
  strings_HasPrefix l "250-onions/current="
  || strings_HasPrefix l "250+onions/current=".

(** ** More examples *)

Module scenarios.

(** An environment in which no file can be opened for appending. *)
Definition open_fails : Env :=
  {| fail_MkdirAll := false;
     fail_OpenFile := fun _ => true; fail_Write := None; fail_Sync := false;
     fail_ReadDir := false; fail_Open := fun _ => false;
     fail_Read := fun _ => false; fail_Create := fun _ => false;
     fail_Copy := None; fail_Flush := None; fail_Remove := fun _ => false |}.

(** The descriptor of the storage made just before midnight. *)
Definition segment_handle : handle :=
  {| h_name := "19723.jsonl"; h_ino := 0; h_access := O_WRONLY;
     h_append := true; h_closed := false |}.

Definition failed_rotation : error * storage.Storage * World :=
  storage.rotateIfNeeded (smallrt.rt true) open_fails examples.after_midnight
    examples.started_storage examples.started_world.

Definition jan1_storage : storage.Storage :=
  match examples.started_on_jan1.1 with
  | Ok s => s
  | Err _ => examples.no_storage
  end.

Definition after_clock_set_back : storage.Storage * World :=
  default (examples.no_storage, examples.started_on_jan1.2)
    (run_writes (smallrt.rt true) examples.clock_set_back jan1_storage
       examples.started_on_jan1.2).

(** A request for the current sample. *)
Definition current_request : string := "get current" +:+ examples.nl.

(** Two ticks, the second with a collector that panics, and a third whose
    write fails. *)
Definition two_ticks : list (Env * Time * option Sample) :=
  [(healthy, examples.after_midnight,
    Some (smallrt.bare examples.after_midnight));
   (healthy, examples.after_midnight + 1, None)].

Definition failing_tick : Env * Time * option Sample :=
  (open_fails, examples.jan2 + Day,
   Some (smallrt.bare (examples.jan2 + Day))).

(** A control port that answers the authentication, a circuit list in the
    multi-line form and the list of onion services. *)
Definition reply (text : string) : string := text +:+ collector.crlf.

Definition circuit_data : list string :=
  [reply "250+circuit-status=";
   reply "7 BUILT $A~a,$B~b,$C~c PURPOSE=GENERAL";
   reply "9 EXTENDED $A~a PURPOSE=GENERAL"].

Definition onion_reply : list string :=
  [reply "250-onions/current=abcdefghijklmnop"; reply "250 OK"].

Definition control_port : collector.Control :=
  {| collector.pending :=
       reply "250 OK" :: circuit_data ++ reply "." :: reply "250 OK"
         :: onion_reply;
     collector.unfinished := "";
     collector.sent := [] |}.

(** A reply that lists two onion services in the multi-line form. *)
Definition two_onions : collector.Control :=
  {| collector.pending :=
       reply "250+onions/current="
         :: [reply "abcdefghijklmnop"; reply "qrstuvwxyzabcdef"]
         ++ reply "." :: [reply "250 OK"];
     collector.unfinished := "";
     collector.sent := [] |}.

(** A small codec for configurations: the text is the collection interval
    in decimal. *)
Definition set_interval (z : Z) (cfg : config.Config) : config.Config :=
  {| config.CollectionIntervalSeconds := z;
     config.RetentionDays := config.RetentionDays cfg;
     config.DataDir := config.DataDir cfg;
     config.SocketPath := config.SocketPath cfg;
     config.Bitcoin := config.Bitcoin cfg;
     config.Tor := config.Tor cfg;
     config.System := config.System cfg |}.

Definition decode (data : string) (cfg : config.Config)
  : result config.Config :=
  match smallrt.Z_of_string data with
  | Some z => Ok (set_interval z cfg)
  | None => Err "invalid character"
  end.

Definition encode (cfg : config.Config) : result string :=
  Ok (smallrt.Z_to_string (config.CollectionIntervalSeconds cfg)).

Definition every_five_seconds : config.Config :=
  set_interval 5 config.DefaultConfig.

End scenarios.

(** ** Writing and reading back, in the words of a user *)

Definition tick_sample (tick : Env * Time * Sample) : Sample := tick.2.

(** The first instant of the calendar day of [t]. *)
Definition day_start (t : Time) : Time := Day * (t / Day).

(** [Parse] reads the name [Format] gives a day as the start of that
    day. *)
Definition ParseLaw (rt : Runtime) : Prop :=
  forall t, time_Parse rt (time_Format rt t) = Some (day_start t).

(** The tick wrote on a day that meets the range. *)
Definition written_in (startTime endTime : Time) (tick : Env * Time * Sample)
  : Prop :=
  day_overlaps (day_start (tick_time tick)) startTime endTime.

#[global] Instance written_in_dec startTime endTime tick :
  Decision (written_in startTime endTime tick).
Proof. unfold written_in, day_overlaps. apply _. Defined.

(** The file a tick writes to. *)
Definition tick_file (rt : Runtime) (tick : Env * Time * Sample) : string :=
  storage.segment_name (time_Format rt (tick_time tick)).

(** What the encoder printed for the sample of the tick is one line that
    fits the scanner and that the decoder reads as the sample. *)
Definition reads_back (rt : Runtime) (tick : Env * Time * Sample) : Prop :=
  exists data,
    json_Marshal rt (tick_sample tick) = Ok data
    /\ one_line data = true
    /\ too_long data = false
    /\ json_Unmarshal rt (dropCR data) = Some (tick_sample tick).

(** The writes around midnight, in the storage made on the first of
    January. *)
Definition around_midnight_written : storage.Storage * World :=
  default (examples.no_storage, examples.started_on_jan1.2)
    (run_writes (smallrt.rt true) examples.around_midnight
       scenarios.jan1_storage examples.started_on_jan1.2).

(** The name a file is read by once [path] was compressed. *)
Definition after_compression (path name : string) : string :=
  if decide (name = path) then path +:+ ".gz" else name.

(** An environment in which a write breaks off after five bytes. *)
Definition write_breaks : Env :=
  {| fail_MkdirAll := false;
     fail_OpenFile := fun _ => false; fail_Write := Some 5%nat;
     fail_Sync := false;
     fail_ReadDir := false; fail_Open := fun _ => false;
     fail_Read := fun _ => false; fail_Create := fun _ => false;
     fail_Copy := None; fail_Flush := None; fail_Remove := fun _ => false |}.

(** * Properties *)

(** ** Names and suffixes *)

Section SuffixFacts.

Lemma app_cons (c : ascii) (a b : string) :
  String c a +:+ b = String c (a +:+ b).
Proof. done. Qed.

Lemma app_empty_l (a : string) : "" +:+ a = a.
Proof. done. Qed.

Lemma app_empty_r (a : string) : a +:+ "" = a.
Proof. induction a as [|c a IH]; [done | by rewrite app_cons, IH]. Qed.

Lemma substring_all (s : string) : String.substring 0 (String.length s) s = s.
Proof. induction s as [|c s IH]; simpl; [done | by rewrite IH]. Qed.

Lemma substring_skip_app (a s : string) (n : nat) :
  String.substring (String.length a) n (a +:+ s) = String.substring 0 n s.
Proof. induction a as [|c a IH]; [done | rewrite app_cons; apply IH]. Qed.

Lemma substring_take_app (a s : string) :
  String.substring 0 (String.length a) (a +:+ s) = a.
Proof.
  induction a as [|c a IH]; [by destruct s |].
  rewrite app_cons. simpl. by rewrite IH.
Qed.

Lemma string_length_app (a s : string) :
  String.length (a +:+ s) = (String.length a + String.length s)%nat.
Proof.
  induction a as [|c a IH]; [done |]. rewrite app_cons. simpl. by rewrite IH.
Qed.

Lemma substring_split (s : string) (k : nat) :
  (k <= String.length s)%nat ->
  s = String.substring 0 k s
        +:+ String.substring k (String.length s - k) s.
Proof.
  revert k. induction s as [|c s IH]; intros k Hk; simpl in *.
  - by destruct k.
  - destruct k as [|k]; simpl.
    + by rewrite app_empty_l, substring_all.
    + rewrite app_cons. f_equal. apply IH. lia.
Qed.

Lemma HasSuffix_app (a suffix : string) : HasSuffix (a +:+ suffix) suffix = true.
Proof.
  unfold HasSuffix. rewrite string_length_app.
  replace (String.length a + String.length suffix - String.length suffix)%nat
    with (String.length a) by lia.
  rewrite substring_skip_app, substring_all, String.eqb_refl.
  rewrite andb_true_r. apply Nat.leb_le. lia.
Qed.

Lemma TrimSuffix_app (a suffix : string) : TrimSuffix (a +:+ suffix) suffix = a.
Proof.
  unfold TrimSuffix. rewrite HasSuffix_app, string_length_app.
  replace (String.length a + String.length suffix - String.length suffix)%nat
    with (String.length a) by lia.
  apply substring_take_app.
Qed.

Lemma HasSuffix_inv (s suffix : string) :
  HasSuffix s suffix = true -> s = TrimSuffix s suffix +:+ suffix.
Proof.
  intros H. unfold TrimSuffix. rewrite H.
  unfold HasSuffix in H. apply andb_true_iff in H as [Hlen Heq].
  apply Nat.leb_le in Hlen. apply String.eqb_eq in Heq.
  set (k := (String.length s - String.length suffix)%nat) in *.
  rewrite (substring_split s k) at 1 by lia.
  f_equal. replace (String.length s - k)%nat with (String.length suffix) by lia.
  exact Heq.
Qed.

Lemma HasSuffix_iff (s suffix : string) :
  HasSuffix s suffix = true <-> exists a, s = a +:+ suffix.
Proof.
  split.
  - intros H. eexists. by apply HasSuffix_inv.
  - intros [a ->]. apply HasSuffix_app.
Qed.

Lemma string_app_assoc (a b c : string) : (a +:+ b) +:+ c = a +:+ (b +:+ c).
Proof.
  induction a as [|x a IH]; [done | by rewrite !app_cons, IH].
Qed.

Lemma string_app_inj_r (a b suffix : string) :
  a +:+ suffix = b +:+ suffix -> a = b.
Proof.
  intros H.
  rewrite <- (TrimSuffix_app a suffix), <- (TrimSuffix_app b suffix).
  by rewrite H.
Qed.

(** A name that ends in [.jsonl] does not end in [.gz]. *)
Lemma plain_not_gz (d : string) : HasSuffix (d +:+ ".jsonl") ".gz" = false.
Proof.
  destruct (HasSuffix (d +:+ ".jsonl") ".gz") eqn:H; [| done].
  apply HasSuffix_iff in H as [a Ha].
  assert (String.length a = String.length d + 3)%nat as Hlen.
  { apply (f_equal String.length) in Ha.
    rewrite !string_length_app in Ha. simpl in Ha. lia. }
  assert (a = d +:+ ".js") as ->.
  { rewrite <- (substring_take_app a ".gz"), <- Ha, Hlen.
    replace (d +:+ ".jsonl") with ((d +:+ ".js") +:+ "onl")
      by (by rewrite string_app_assoc).
    replace (String.length d + 3)%nat with (String.length (d +:+ ".js"))
      by (by rewrite string_length_app).
    apply substring_take_app. }
  rewrite string_app_assoc in Ha. apply String.app_inj in Ha. done.
Qed.

Lemma plain_not_compressed (d : string) :
  HasSuffix (d +:+ ".jsonl") ".jsonl.gz" = false.
Proof.
  destruct (HasSuffix (d +:+ ".jsonl") ".jsonl.gz") eqn:H; [| done].
  apply HasSuffix_iff in H as [a Ha].
  assert (HasSuffix (d +:+ ".jsonl") ".gz" = true) as Hgz.
  { rewrite Ha. replace ".jsonl.gz" with (".jsonl" +:+ ".gz") by done.
    rewrite <- string_app_assoc. apply HasSuffix_app. }
  by rewrite plain_not_gz in Hgz.
Qed.


Lemma dateStr_of_plain (d : string) : dateStr_of (d +:+ ".jsonl") = d.
Proof.
  unfold dateStr_of. unfold TrimSuffix at 2. rewrite plain_not_gz.
  apply TrimSuffix_app.
Qed.

Lemma dateStr_of_compressed (d : string) : dateStr_of (d +:+ ".jsonl.gz") = d.
Proof.
  unfold dateStr_of.
  replace (d +:+ ".jsonl.gz") with ((d +:+ ".jsonl") +:+ ".gz")
    by (by rewrite string_app_assoc).
  rewrite TrimSuffix_app. apply TrimSuffix_app.
Qed.

End SuffixFacts.


(** ** Slices *)

Section SliceFacts.
Context {A : Type}.


Lemma slice_elems_append (s : slice A) (xs : list A) :
  slice_elems (slice_append s xs) = slice_elems s ++ xs.
Proof. destruct xs; simpl; [by rewrite app_nil_r | done]. Qed.

Lemma grown_append (s : slice A) (xs : list A) :
  grown s -> grown (slice_append s xs).
Proof.
  unfold grown. destruct xs as [|x xs]; simpl; [done |].
  intros _ [=H]. by destruct (slice_elems s).
Qed.

Lemma grown_nil : grown (@nil_slice A).
Proof. done. Qed.

Lemma grown_empty (s : slice A) : grown s -> slice_elems s = [] -> s = nil_slice.
Proof. destruct s as [|l]; [done |]. simpl. intros H ->. by destruct H. Qed.

End SliceFacts.

(** ** Scanning *)

Section ScanFacts.


Lemma scanTokens_fit (ls : list string) :
  lines_fit ls = true -> scanTokens ls = (dropCR <$> ls, None).
Proof.
  induction ls as [|l ls IH]; simpl; [done |].
  intros [Hl Hls]%andb_true_iff. apply negb_true_iff in Hl.
  rewrite Hl, (IH Hls). done.
Qed.

Lemma scanTokens_too_long (ls : list string) :
  lines_fit ls = false -> exists ts e, scanTokens ls = (ts, Some e).
Proof.
  induction ls as [|l ls IH]; simpl; [done |].
  destruct (too_long l); simpl; [eauto |].
  intros H. destruct (IH H) as (ts & e & ->). eauto.
Qed.

Lemma splitLines_one_line (s : string) :
  one_line s = true -> splitLines (s +:+ String newline "") = [s].
Proof.
  induction s as [|c s IH]; [done |].
  rewrite app_cons. simpl.
  intros [Hc Hs]%andb_true_iff. apply negb_true_iff in Hc.
  rewrite Hc, (IH Hs). done.
Qed.

Lemma one_line_app (a b : string) :
  one_line (a +:+ b) = one_line a && one_line b.
Proof.
  induction a as [|c a IH]; [done |].
  rewrite app_cons. simpl. by rewrite IH, andb_assoc.
Qed.

Lemma splitLines_cons (c : ascii) (s : string) :
  splitLines (String c s)
  = if Ascii.eqb c newline then EmptyString :: splitLines s
    else match splitLines s with
         | [] => [String c EmptyString]
         | l :: ls => String c l :: ls
         end.
Proof. done. Qed.

Lemma splitLines_snoc (old data : string) :
  complete old = true -> one_line data = true ->
  splitLines (old +:+ data +:+ String newline "")
  = splitLines old ++ [data].
Proof.
  intros Hold Hdata.
  induction old as [|c old IH]; [by apply splitLines_one_line |].
  rewrite app_cons, !splitLines_cons.
  destruct old as [|c' old'].
  - simpl in Hold. rewrite Hold, app_empty_l.
    by rewrite splitLines_one_line.
  - specialize (IH Hold). rewrite IH.
    destruct (Ascii.eqb c newline); [done |].
    destruct (splitLines (String c' old')) as [|l ls] eqn:Hls; [| done].
    exfalso. rewrite splitLines_cons in Hls.
    destruct (Ascii.eqb c' newline); [done |].
    by destruct (splitLines old').
Qed.

Lemma lines_fit_app (a b : list string) :
  lines_fit (a ++ b) = lines_fit a && lines_fit b.
Proof. unfold lines_fit. apply forallb_app. Qed.

End ScanFacts.

(** ** Reading files back *)

Section QueryFacts.

Variable rt : Runtime.

Lemma readLoop_elems (startTime endTime : Time) (tokens : list string)
    (samples : slice Sample) :
  slice_elems (storage.readLoop rt startTime endTime tokens samples)
  = slice_elems samples
      ++ filter (in_range startTime endTime) (omap (json_Unmarshal rt) tokens).
Proof.
  revert samples. induction tokens as [|tok rest IH]; intros samples; simpl.
  - by rewrite app_nil_r.
  - destruct (json_Unmarshal rt tok) as [sample|]; simpl; [| apply IH].
    unfold Before, After.
    destruct (decide (in_range startTime endTime sample)) as [Hin|Hout].
    + rewrite filter_cons_True by done. unfold in_range in Hin.
      replace (Timestamp sample <? startTime) with false
        by (symmetry; apply Z.ltb_ge; lia).
      replace (endTime <? Timestamp sample) with false
        by (symmetry; apply Z.ltb_ge; lia).
      simpl. rewrite IH. simpl. by rewrite <- app_assoc.
    + rewrite filter_cons_False by done. unfold in_range in Hout.
      replace ((Timestamp sample <? startTime) || (endTime <? Timestamp sample))
        with true; [apply IH |].
      symmetry. apply orb_true_iff.
      destruct (Z.ltb_spec (Timestamp sample) startTime); [by left |].
      right. apply Z.ltb_lt. lia.
Qed.

Lemma readLoop_grown (startTime endTime : Time) (tokens : list string)
    (samples : slice Sample) :
  grown samples -> grown (storage.readLoop rt startTime endTime tokens samples).
Proof.
  revert samples. induction tokens as [|tok rest IH]; intros samples H; simpl.
  - done.
  - destruct (json_Unmarshal rt tok) as [sample|]; [| by apply IH].
    destruct (_ || _); apply IH; [done |].
    by apply (grown_append samples [sample]).
Qed.

Lemma omap_dropCR (ls : list string) :
  omap (json_Unmarshal rt) (dropCR <$> ls)
  = omap (fun l => json_Unmarshal rt (dropCR l)) ls.
Proof.
  induction ls as [|l ls IH]; [done |].
  rewrite fmap_cons. simpl.
  destruct (json_Unmarshal rt (dropCR l)); [f_equal |]; exact IH.
Qed.

Lemma file_samples_kept (env : Env) (w : World) (startTime endTime : Time)
    (path : string) :
  file_samples rt env w startTime endTime path
  = kept_records rt env w startTime endTime path.
Proof.
  unfold file_samples, kept_records, file_text, storage.readFile.
  destruct (fail_Open env path); simpl.
  { by destruct (files w !! path) as [[]|]. }
  destruct (files w !! path) as [[ino raw|]|]; [| done | done].
  destruct (fail_Read env path); [done |].
  destruct (if HasSuffix path ".gz" then gzip_Decompress rt raw else Some raw)
    as [content|]; [| done].
  unfold scanLines.
  destruct (lines_fit (splitLines content)) eqn:Hfit.
  - rewrite (scanTokens_fit _ Hfit).
    rewrite readLoop_elems. simpl. by rewrite omap_dropCR.
  - destruct (scanTokens_too_long _ Hfit) as (ts & e & ->). done.
Qed.

Lemma queryLoop_elems (env : Env) (startTime endTime : Time) (w : World)
    (paths : list string) (samples : slice Sample) :
  slice_elems (storage.queryLoop rt env startTime endTime w paths samples)
  = slice_elems samples
      ++ flat_map (kept_records rt env w startTime endTime) paths.
Proof.
  revert samples. induction paths as [|file rest IH]; intros samples; simpl.
  - by rewrite app_nil_r.
  - rewrite <- file_samples_kept. unfold file_samples.
    destruct (storage.readFile rt env file startTime endTime w)
      as [fileSamples [e|]]; rewrite IH; [done |].
    by rewrite slice_elems_append, <- app_assoc.
Qed.

Lemma queryLoop_grown (env : Env) (startTime endTime : Time) (w : World)
    (paths : list string) (samples : slice Sample) :
  grown samples ->
  grown (storage.queryLoop rt env startTime endTime w paths samples).
Proof.
  revert samples. induction paths as [|file rest IH]; intros samples H; simpl.
  - done.
  - destruct (storage.readFile rt env file startTime endTime w)
      as [fileSamples [e|]]; apply IH; [done | by apply grown_append].
Qed.


Lemma os_ReadDir_ok (env : Env) (w : World) :
  fail_ReadDir env = false ->
  exists entries,
    os_ReadDir env w = Ok entries /\ entries ≡ₚ map_to_list (files w).
Proof.
  intros H. unfold os_ReadDir. rewrite H. eexists. split; [done |].
  apply merge_sort_Permutation.
Qed.

Lemma overlap_test (day startTime endTime : Time) :
  Before (Add day (24 * Hour)) startTime || After day endTime = false
  <-> day_overlaps day startTime endTime.
Proof.
  unfold Before, After, Add, day_overlaps, Day.
  rewrite orb_false_iff, !Z.ltb_ge. done.
Qed.

Lemma in_range_entry_spec (startTime endTime : Time) (name : string) (n : node) :
  storage.in_range_entry rt startTime endTime (name, n) = true
  <-> exists d ino data day,
        n = File ino data
        /\ (name = d +:+ ".jsonl" \/ name = d +:+ ".jsonl.gz")
        /\ time_Parse rt d = Some day
        /\ day_overlaps day startTime endTime.
Proof.
  unfold storage.in_range_entry. simpl. fold (dateStr_of name). split.
  - destruct n as [ino data|]; [| done].
    destruct (HasSuffix name ".jsonl") eqn:Hplain; simpl.
    + apply HasSuffix_iff in Hplain as [d ->]. rewrite dateStr_of_plain.
      destruct (time_Parse rt d) as [day|] eqn:Hday; [| done].
      destruct (_ || _) eqn:Hov; [done |]. intros _.
      exists d, ino, data, day. apply overlap_test in Hov. auto.
    + destruct (HasSuffix name ".jsonl.gz") eqn:Hgz; simpl; [| done].
      apply HasSuffix_iff in Hgz as [d ->]. rewrite dateStr_of_compressed.
      destruct (time_Parse rt d) as [day|] eqn:Hday; [| done].
      destruct (_ || _) eqn:Hov; [done |]. intros _.
      exists d, ino, data, day. apply overlap_test in Hov. auto.
  - intros (d & ino & data & day & -> & Hname & Hday & Hov).
    apply overlap_test in Hov.
    destruct Hname as [-> | ->].
    + rewrite HasSuffix_app, dateStr_of_plain, Hday, Hov. done.
    + rewrite HasSuffix_app, dateStr_of_compressed, Hday, Hov.
      by rewrite andb_false_r.
Qed.

Lemma collectFiles_elem (startTime endTime : Time)
    (entries : list (string * node)) (name : string) :
  name ∈ storage.collectFiles rt startTime endTime entries
  <-> exists n, (name, n) ∈ entries
        /\ storage.in_range_entry rt startTime endTime (name, n) = true.
Proof.
  induction entries as [|[name' n'] rest IH]; simpl.
  - split; [by intros ?%elem_of_nil | by intros (n & ?%elem_of_nil & _)].
  - destruct (storage.in_range_entry rt startTime endTime (name', n')) eqn:Hin.
    + rewrite elem_of_cons, IH. split.
      * intros [-> | (n & Hn & Hr)]; [exists n' | exists n];
          rewrite elem_of_cons; auto.
      * intros (n & [[= -> ->] | Hn]%elem_of_cons & Hr); [by left |].
        right. eauto.
    + rewrite IH. split.
      * intros (n & Hn & Hr). exists n. rewrite elem_of_cons. auto.
      * intros (n & [[= -> ->] | Hn]%elem_of_cons & Hr); [congruence |].
        eauto.
Qed.

Lemma collectFiles_sublist (startTime endTime : Time)
    (entries : list (string * node)) :
  sublist (storage.collectFiles rt startTime endTime entries) (entries.*1).
Proof.
  induction entries as [|entry rest IH]; simpl; [done |].
  destruct (storage.in_range_entry rt startTime endTime entry);
    by constructor.
Qed.

(** The files a query reads: the segment files whose day meets the range,
    each once, in the order of their names. *)
Lemma getFilesForTimeRange_spec (env : Env) (startTime endTime : Time)
    (w : World) :
  fail_ReadDir env = false ->
  exists paths,
    storage.getFilesForTimeRange rt env startTime endTime w = Ok paths
    /\ Sorted String.le paths
    /\ NoDup paths
    /\ forall name,
         name ∈ paths
         <-> exists day, segment_file rt w name day
                         /\ day_overlaps day startTime endTime.
Proof.
  intros Hdir. unfold storage.getFilesForTimeRange.
  destruct (os_ReadDir_ok env w Hdir) as (entries & -> & Hperm).
  eexists. split; [done |]. split; [| split].
  - apply Sorted_merge_sort. apply _.
  - unfold sort_Strings. rewrite merge_sort_Permutation.
    eapply sublist_NoDup; [| apply collectFiles_sublist].
    rewrite Hperm. apply NoDup_fst_map_to_list.
  - intros name. unfold sort_Strings. rewrite merge_sort_Permutation.
    rewrite collectFiles_elem. split.
    + intros (n & Hn & Hr). rewrite Hperm in Hn.
      apply elem_of_map_to_list in Hn.
      apply in_range_entry_spec in Hr
        as (d & ino & data & day & -> & Hname & Hday & Hov).
      exists day. split; [| done]. exists d, ino, data. auto.
    + intros (day & (d & ino & data & Hname & Hday & Hfile) & Hov).
      exists (File ino data). split.
      * rewrite Hperm. by apply elem_of_map_to_list.
      * apply in_range_entry_spec. exists d, ino, data, day. auto.
Qed.

End QueryFacts.

(** ** The small runtime keeps the laws *)

Section SmallRuntimeFacts.

Import smallrt.

Lemma Z_to_int_proper (z : Z) :
  Z.to_int z <> Decimal.Pos Decimal.Nil /\ Z.to_int z <> Decimal.Neg Decimal.Nil.
Proof.
  split; intros H; pose proof (DecimalZ.of_to z) as Hz;
    rewrite H in Hz; simpl in Hz; subst z; discriminate H.
Qed.

Lemma Z_of_to_string (z : Z) : Z_of_string (Z_to_string z) = Some z.
Proof.
  unfold Z_of_string, Z_to_string.
  destruct (Z_to_int_proper z) as [Hp Hn].
  rewrite DecimalString.NilZero.isi by done.
  simpl. by rewrite DecimalZ.of_to.
Qed.



Lemma small_GzipLaws (stable : bool) : GzipLaws (rt stable).
Proof. intros data. done. Qed.

Lemma escape_one_line (s : string) : one_line (escape s) = true.
Proof.
  induction s as [|c s IH]; [done |]. simpl.
  destruct (Ascii.eqb c newline) eqn:Hnl; [simpl; exact IH |].
  destruct (Ascii.eqb c dquote || Ascii.eqb c backslash);
    simpl; rewrite ?Hnl, IH; done.
Qed.

Lemma small_JsonLaws (stable : bool) : JsonLaws (rt stable).
Proof.
  split.
  - intros s. simpl. unfold quote. simpl.
    by rewrite one_line_app, escape_one_line.
  - intros sample data. simpl. unfold Marshal.
    destruct (one_line _) eqn:H; [| done]. by intros [= <-].
Qed.

Lemma insert_sample_perm (b : bool) (x : Sample) (l : list Sample) :
  insert_sample b x l ≡ₚ x :: l.
Proof.
  induction l as [|y l IH]; simpl; [done |].
  destruct (if b then _ else _); [done |].
  rewrite IH. apply Permutation_swap.
Qed.

Lemma insert_sample_hd (b : bool) (x y : Sample) (l : list Sample) :
  ts_le y x -> HdRel ts_le y l -> HdRel ts_le y (insert_sample b x l).
Proof.
  intros Hyx Hl. destruct l as [|z l]; simpl; [by constructor |].
  destruct (if b then _ else _); constructor; [done |].
  by inversion Hl.
Qed.

Lemma insert_sample_sorted (b : bool) (x : Sample) (l : list Sample) :
  Sorted ts_le l -> Sorted ts_le (insert_sample b x l).
Proof.
  induction l as [|y l IH]; simpl; intros Hs.
  - by repeat constructor.
  - inversion Hs as [|? ? Hl Hhd]; subst.
    destruct (if b then _ else _) eqn:Hcmp.
    + constructor; [done |]. constructor. unfold ts_le.
      destruct b; [apply Z.leb_le in Hcmp | apply Z.ltb_lt in Hcmp]; lia.
    + constructor; [by apply IH |].
      apply insert_sample_hd; [| done]. unfold ts_le.
      destruct b; [apply Z.leb_gt in Hcmp | apply Z.ltb_ge in Hcmp]; lia.
Qed.

Lemma small_SortLaws (stable : bool) : SortLaws (rt stable).
Proof.
  split; intros l; simpl; unfold insertion_sort.
  - induction l as [|x l IH]; simpl; [done |].
    by rewrite insert_sample_perm, IH.
  - induction l as [|x l IH]; simpl; [constructor |].
    by apply insert_sample_sorted.
Qed.

Lemma insert_sample_stable (t : Time) (x : Sample) (l : list Sample) :
  filter (same_instant t) (insert_sample true x l)
  = filter (same_instant t) (x :: l).
Proof.
  induction l as [|y l IH]; simpl; [done |].
  destruct (Z.leb_spec (Timestamp x) (Timestamp y)) as [Hle | Hlt]; [done |].
  rewrite filter_cons, IH, !filter_cons. unfold same_instant.
  destruct (decide (Timestamp y = t)), (decide (Timestamp x = t));
    (done || lia).
Qed.

Lemma small_StableSort : StableSort (rt true).
Proof.
  intros l t. simpl. unfold insertion_sort.
  induction l as [|x l IH]; simpl; [done |].
  by rewrite insert_sample_stable, !filter_cons, IH.
Qed.

End SmallRuntimeFacts.

(** ** What a range query returns *)

Section QueryTheorems.

Variable rt : Runtime.

Lemma sort_in_place_perm (samples : slice Sample) :
  SortLaws rt ->
  slice_elems (storage.sort_Slice_in_place rt samples) ≡ₚ slice_elems samples.
Proof.
  intros [Hperm _]. destruct samples as [|l]; simpl; [done | apply Hperm].
Qed.

Lemma sort_in_place_sorted (samples : slice Sample) :
  SortLaws rt ->
  Sorted ts_le (slice_elems (storage.sort_Slice_in_place rt samples)).
Proof.
  intros [_ Hsorted]. destruct samples as [|l]; simpl;
    [constructor | apply Hsorted].
Qed.

Lemma Query_unfold (env : Env) (startTime endTime : Time) (w : World)
    (paths : list string) :
  storage.getFilesForTimeRange rt env startTime endTime w = Ok paths ->
  storage.Query rt env startTime endTime w
  = Ok (storage.sort_Slice_in_place rt
          (storage.queryLoop rt env startTime endTime w paths nil_slice)).
Proof. intros H. unfold storage.Query. by rewrite H. Qed.

Lemma queryLoop_from_nil (env : Env) (startTime endTime : Time) (w : World)
    (paths : list string) :
  slice_elems (storage.queryLoop rt env startTime endTime w paths nil_slice)
  = flat_map (kept_records rt env w startTime endTime) paths.
Proof. by rewrite queryLoop_elems. Qed.

(** What [Query] returns, file by file. Once the directory could be
    listed, [Query] returns without an error, in ascending order of
    timestamp, what [kept_records] says of every segment file, plain or
    compressed, whose day meets the range: the records in the range of a
    file that reads to its end, and nothing of a file that cannot be read
    or that holds a line the scanner refuses. When nothing is kept the
    result is the empty (nil) sequence. *)
Theorem Query_returns_records_in_range (env : Env) (startTime endTime : Time)
    (w : World) :
  SortLaws rt ->
  fail_ReadDir env = false ->
  exists samples paths,
    storage.Query rt env startTime endTime w = Ok samples
    /\ NoDup paths
    /\ (forall name,
          name ∈ paths
          <-> exists day, segment_file rt w name day
                          /\ day_overlaps day startTime endTime)
    /\ slice_elems samples
         ≡ₚ flat_map (kept_records rt env w startTime endTime) paths
    /\ Sorted ts_le (slice_elems samples)
    /\ (flat_map (kept_records rt env w startTime endTime) paths = []
        -> samples = nil_slice).
Proof.
  intros Hsort Hdir.
  destruct (getFilesForTimeRange_spec rt env startTime endTime w Hdir)
    as (paths & Hfiles & _ & Hnodup & Hmem).
  eexists. exists paths. split; [by apply Query_unfold |].
  split; [done |]. split; [done |]. split; [| split].
  - by rewrite sort_in_place_perm, queryLoop_from_nil.
  - by apply sort_in_place_sorted.
  - intros Hnone.
    rewrite (grown_empty
               (storage.queryLoop rt env startTime endTime w paths nil_slice)).
    + done.
    + apply queryLoop_grown, grown_nil.
    + by rewrite queryLoop_from_nil.
Qed.

Lemma scanTokens_long_error (ls : list string) :
  lines_fit ls = false ->
  (scanTokens ls).2 = Some "bufio.Scanner: token too long".
Proof.
  induction ls as [|l ls IH]; cbn [lines_fit forallb scanTokens]; [done |].
  destruct (too_long l); [done |]. cbn [negb andb]. intros H.
  specialize (IH H). by destruct (scanTokens ls).
Qed.

Lemma readFile_long_line (env : Env) (w : World) (startTime endTime : Time)
    (name text : string) :
  file_text rt env w name = Some text ->
  lines_fit (splitLines text) = false ->
  (storage.readFile rt env name startTime endTime w).2
  = Some "bufio.Scanner: token too long".
Proof.
  unfold file_text, storage.readFile. intros Htext Hfit.
  destruct (files w !! name) as [[ino raw|]|]; [| done | done].
  destruct (fail_Open env name); [done |].
  destruct (fail_Read env name); [done |]. cbn [orb] in Htext.
  rewrite Htext. unfold scanLines.
  pose proof (scanTokens_long_error _ Hfit) as Herr.
  by destruct (scanTokens (splitLines text)).
Qed.

Lemma flat_map_without {A B} `{EqDecision A} (f : A -> list B) (x : A)
    (l : list A) :
  f x = [] -> flat_map f l = flat_map f (filter (fun y => y <> x) l).
Proof.
  intros Hx. induction l as [|y l IH]; [done |].
  cbn [flat_map]. rewrite filter_cons.
  destruct (decide (y <> x)) as [Hne | Heq].
  - cbn [flat_map]. by rewrite IH.
  - apply dec_stable in Heq. subst y. by rewrite Hx, IH.
Qed.

Lemma flat_map_nothing {A B} (f : A -> list B) (l : list A) :
  (forall x, x ∈ l -> f x = []) -> flat_map f l = [].
Proof.
  induction l as [|x l IH]; intros H; [done |]. cbn [flat_map].
  rewrite (H x) by (by left). apply IH. intros y Hy. apply H. by right.
Qed.

Lemma elem_of_flat_map {A B} (f : A -> list B) (l : list A) (r : B) :
  r ∈ flat_map f l -> exists x, x ∈ l /\ r ∈ f x.
Proof.
  induction l as [|x l IH]; cbn [flat_map]; [by intros ?%elem_of_nil |].
  intros [Hx | Hl]%elem_of_app.
  - exists x. split; [by left | done].
  - destruct (IH Hl) as (y & Hy & Hr). exists y. split; [by right | done].
Qed.

(** C3, on the code. [readFile] skips a line that does not parse, but it
    reads with a [bufio.Scanner] and its default buffer: at a line of
    64 KiB or more the scanner stops with an error, [readFile] returns
    that error, and [Query] drops everything the file gave, the records
    before the line and after it included. So for every segment file of a
    day in the range that can be read and holds such a line, every record
    [Query] returns comes from another file, and when no other file has
    records in the range the result is empty, whatever records that parse
    and lie in the range stand beside the long line. *)
Theorem Query_drops_file_with_a_long_line (env : Env)
    (startTime endTime : Time) (w : World) (name : string) (day : Time)
    (text : string) :
  SortLaws rt ->
  fail_ReadDir env = false ->
  segment_file rt w name day ->
  day_overlaps day startTime endTime ->
  file_text rt env w name = Some text ->
  lines_fit (splitLines text) = false ->
  exists samples paths,
    storage.Query rt env startTime endTime w = Ok samples
    /\ storage.getFilesForTimeRange rt env startTime endTime w = Ok paths
    /\ name ∈ paths
    /\ (storage.readFile rt env name startTime endTime w).2
       = Some "bufio.Scanner: token too long"
    /\ slice_elems samples
         ≡ₚ flat_map (kept_records rt env w startTime endTime)
              (filter (fun path => path <> name) paths)
    /\ (forall r, r ∈ slice_elems samples ->
          exists other,
            other ∈ paths /\ other <> name
            /\ r ∈ kept_records rt env w startTime endTime other)
    /\ ((forall other, other ∈ paths -> other <> name ->
           kept_records rt env w startTime endTime other = []) ->
        samples = nil_slice).
Proof.
  intros Hsort Hdir Hseg Hover Htext Hfit.
  destruct (getFilesForTimeRange_spec rt env startTime endTime w Hdir)
    as (paths & Hfiles & _ & _ & Hmem).
  assert (kept_records rt env w startTime endTime name = []) as Hnone
    by (unfold kept_records; by rewrite Htext, Hfit).
  assert (slice_elems
            (storage.sort_Slice_in_place rt
               (storage.queryLoop rt env startTime endTime w paths nil_slice))
          ≡ₚ flat_map (kept_records rt env w startTime endTime)
               (filter (fun path => path <> name) paths)) as Hperm.
  { rewrite sort_in_place_perm, queryLoop_from_nil by done.
    by rewrite (flat_map_without _ name paths Hnone). }
  eexists. exists paths. split; [by apply Query_unfold |].
  split; [done |]. split; [apply Hmem; eauto |].
  split; [by apply (readFile_long_line env w startTime endTime name text) |].
  split; [exact Hperm |]. split.
  - intros r Hr. rewrite Hperm in Hr.
    apply elem_of_flat_map in Hr as (other & Hother & Hin).
    apply list_elem_of_filter in Hother as [Hne Hother].
    by exists other.
  - intros Hothers.
    assert (flat_map (kept_records rt env w startTime endTime) paths = [])
      as Hempty.
    { apply flat_map_nothing. intros other Hother.
      destruct (decide (other = name)) as [-> | Hne]; [done |].
      by apply Hothers. }
    rewrite (grown_empty
               (storage.queryLoop rt env startTime endTime w paths nil_slice)).
    + done.
    + apply queryLoop_grown, grown_nil.
    + by rewrite queryLoop_from_nil.
Qed.

(** C4, as the code has it. The merge of [Query] is a sort by timestamp
    alone: the result is ascending and is a rearrangement of the kept
    records in file read order (files in the order of their names, lines top
    to bottom). Records of the same instant come out in file read order
    when the sort that is used is stable, which [sort.Slice] does not
    promise. *)
Theorem Query_merge_is_a_sort_by_timestamp (env : Env)
    (startTime endTime : Time) (w : World) :
  SortLaws rt ->
  fail_ReadDir env = false ->
  exists samples paths,
    storage.Query rt env startTime endTime w = Ok samples
    /\ storage.getFilesForTimeRange rt env startTime endTime w = Ok paths
    /\ Sorted String.le paths
    /\ slice_elems samples
         ≡ₚ flat_map (kept_records rt env w startTime endTime) paths
    /\ Sorted ts_le (slice_elems samples)
    /\ (StableSort rt ->
        forall t,
          filter (same_instant t) (slice_elems samples)
          = filter (same_instant t)
              (flat_map (kept_records rt env w startTime endTime) paths)).
Proof.
  intros Hsort Hdir.
  destruct (getFilesForTimeRange_spec rt env startTime endTime w Hdir)
    as (paths & Hfiles & Hsorted & _ & _).
  eexists. exists paths. split; [by apply Query_unfold |].
  split; [done |]. split; [done |]. split; [| split].
  - by rewrite sort_in_place_perm, queryLoop_from_nil.
  - by apply sort_in_place_sorted.
  - intros Hstable t. rewrite <- queryLoop_from_nil.
    destruct (storage.queryLoop rt env startTime endTime w paths nil_slice)
      as [|l]; simpl; [done | apply Hstable].
Qed.


Lemma kept_records_readable (env : Env) (w : World) (startTime endTime : Time)
    (name : string) (ino : nat) (raw text : string) :
  files w !! name = Some (File ino raw) ->
  fail_Open env name = false ->
  fail_Read env name = false ->
  (if HasSuffix name ".gz" then gzip_Decompress rt raw else Some raw)
    = Some text ->
  lines_fit (splitLines text) = true ->
  kept_records rt env w startTime endTime name
  = filter (in_range startTime endTime) (parsed_records rt text).
Proof.
  intros Hfile Hopen Hread Htext Hfit.
  unfold kept_records, file_text. rewrite Hfile, Hopen, Hread. simpl.
  by rewrite Htext, Hfit.
Qed.


End QueryTheorems.

(** ** The range query on the example directories *)

Section QueryExamples.

Import smallrt examples.

Example Query_one_segment_stable :
  storage.Query (rt true) healthy jan1 jan2 one_segment
  = Ok (mk_slice [tagged 1704067200000000005 "a";
                  tagged 1704067200000000005 "b"]).
Proof. vm_compute. reflexivity. Qed.

Example Query_one_segment_unstable :
  storage.Query (rt false) healthy jan1 jan2 one_segment
  = Ok (mk_slice [tagged 1704067200000000005 "b";
                  tagged 1704067200000000005 "a"]).
Proof. vm_compute. reflexivity. Qed.

Example Query_outside_the_range :
  storage.Query (rt true) healthy (jan2 + 1) (jan2 + Day) one_segment
  = Ok nil_slice.
Proof. vm_compute. reflexivity. Qed.

Lemma Query_returns_records_in_range_witness :
  exists samples paths,
    storage.Query (rt true) healthy jan1 jan2 one_segment = Ok samples
    /\ NoDup paths
    /\ (forall name,
          name ∈ paths
          <-> exists day, segment_file (rt true) one_segment name day
                          /\ day_overlaps day jan1 jan2)
    /\ slice_elems samples
         ≡ₚ flat_map (kept_records (rt true) healthy one_segment jan1 jan2)
              paths
    /\ Sorted ts_le (slice_elems samples)
    /\ (flat_map (kept_records (rt true) healthy one_segment jan1 jan2) paths
        = [] -> samples = nil_slice).
Proof.
  apply (Query_returns_records_in_range (rt true) healthy jan1 jan2
           one_segment).
  - apply small_SortLaws.
  - reflexivity.
Defined.

(** Two records that parse and lie in the range stand beside the long
    line, and the query returns neither. *)
Example Query_long_line_segment :
  filter (in_range jan1 jan2) (parsed_records (rt true) long_line_text)
  = [bare 1704067200000000005; bare 1704067200000000009]
  /\ storage.Query (rt true) healthy jan1 jan2 long_line_segment
     = Ok nil_slice.
Proof. vm_compute. split; reflexivity. Qed.

Lemma Query_drops_file_with_a_long_line_witness :
  exists samples paths,
    storage.Query (rt true) healthy jan1 jan2 long_line_segment = Ok samples
    /\ storage.getFilesForTimeRange (rt true) healthy jan1 jan2
         long_line_segment = Ok paths
    /\ "19723.jsonl" ∈ paths
    /\ (storage.readFile (rt true) healthy "19723.jsonl" jan1 jan2
          long_line_segment).2
       = Some "bufio.Scanner: token too long"
    /\ slice_elems samples
         ≡ₚ flat_map (kept_records (rt true) healthy long_line_segment
                        jan1 jan2)
              (filter (fun path => path <> "19723.jsonl") paths)
    /\ (forall r, r ∈ slice_elems samples ->
          exists other,
            other ∈ paths /\ other <> "19723.jsonl"
            /\ r ∈ kept_records (rt true) healthy long_line_segment jan1 jan2
                     other)
    /\ ((forall other, other ∈ paths -> other <> "19723.jsonl" ->
           kept_records (rt true) healthy long_line_segment jan1 jan2 other
           = []) ->
        samples = nil_slice).
Proof.
  apply (Query_drops_file_with_a_long_line (rt true) healthy jan1 jan2
           long_line_segment "19723.jsonl" jan1 long_line_text).
  - apply small_SortLaws.
  - reflexivity.
  - exists "19723", 0%nat, long_line_text.
    split; [by left |]. split; reflexivity.
  - vm_compute. split; discriminate.
  - reflexivity.
  - vm_compute. reflexivity.
Defined.

(** C4, as stated, fails: with a sort that keeps the promise of
    [sort.Slice] and no more, two records of one instant come out in the
    reverse of the order they were read in. *)
Lemma Query_merge_not_stable :
  ~ (forall (rt : Runtime) (env : Env) (startTime endTime : Time) (w : World)
            (samples : slice Sample) (paths : list string),
        SortLaws rt ->
        storage.Query rt env startTime endTime w = Ok samples ->
        storage.getFilesForTimeRange rt env startTime endTime w = Ok paths ->
        forall t,
          filter (same_instant t) (slice_elems samples)
          = filter (same_instant t)
              (flat_map (kept_records rt env w startTime endTime) paths)).
Proof.
  intros Hstable.
  specialize (Hstable (rt false) healthy jan1 jan2 one_segment
                (mk_slice [tagged 1704067200000000005 "b";
                           tagged 1704067200000000005 "a"])
                ["19723.jsonl"]
                (small_SortLaws false)).
  specialize (Hstable Query_one_segment_unstable).
  assert (storage.getFilesForTimeRange (rt false) healthy jan1 jan2 one_segment
          = Ok ["19723.jsonl"]) as Hpaths by (vm_compute; reflexivity).
  specialize (Hstable Hpaths 1704067200000000005).
  vm_compute in Hstable. discriminate Hstable.
Qed.

Lemma Query_merge_is_a_sort_by_timestamp_witness :
  exists samples paths,
    storage.Query (rt false) healthy jan1 jan2 one_segment = Ok samples
    /\ storage.getFilesForTimeRange (rt false) healthy jan1 jan2 one_segment
       = Ok paths
    /\ Sorted String.le paths
    /\ slice_elems samples
         ≡ₚ flat_map (kept_records (rt false) healthy one_segment jan1 jan2)
              paths
    /\ Sorted ts_le (slice_elems samples)
    /\ (StableSort (rt false) ->
        forall t,
          filter (same_instant t) (slice_elems samples)
          = filter (same_instant t)
              (flat_map
                 (kept_records (rt false) healthy one_segment jan1 jan2)
                 paths)).
Proof.
  apply (Query_merge_is_a_sort_by_timestamp (rt false) healthy jan1 jan2
           one_segment).
  - apply small_SortLaws.
  - reflexivity.
Defined.

Example Query_both_forms :
  storage.Query (rt true) healthy jan1 jan2 both_forms
  = Ok (mk_slice [tagged 1704067200000000005 "a";
                  tagged 1704067200000000005 "b";
                  tagged 1704067200000000005 "a";
                  tagged 1704067200000000005 "b"]).
Proof. vm_compute. reflexivity. Qed.


End QueryExamples.

(** ** The request protocol *)

Section ServerTheorems.

Variable rt : Runtime.

Lemma eqb_ne (a b : string) : a <> b -> String.eqb a b = false.
Proof. intros H. by apply String.eqb_neq. Qed.


Lemma handleGet_metrics (env : Env) (now : Time) (srv : server.Server)
    (s : storage.Storage) (w : World) (conn : server.Conn)
    (sub : string) (args : list string) :
  strings_ToLower rt sub = "metrics" ->
  server.handleGet rt env now srv s w conn (sub :: args)
  = (srv, server.handleGetMetrics rt env w conn args).
Proof. intros H. unfold server.handleGet. by rewrite H. Qed.



Lemma flat_map_all_nil {A B} (f : A -> list B) (l : list A) :
  (forall x, x ∈ l -> f x = []) -> flat_map f l = [].
Proof.
  induction l as [|x l IH]; simpl; intros H; [done |].
  rewrite (H x) by (by left). apply IH. intros y Hy. apply H. by right.
Qed.

Lemma Query_nothing_kept (env : Env) (startTime endTime : Time) (w : World) :
  fail_ReadDir env = false ->
  (forall name day,
      segment_file rt w name day -> day_overlaps day startTime endTime ->
      kept_records rt env w startTime endTime name = []) ->
  storage.Query rt env startTime endTime w = Ok nil_slice.
Proof.
  intros Hdir Hnone.
  destruct (getFilesForTimeRange_spec rt env startTime endTime w Hdir)
    as (paths & Hfiles & _ & _ & Hmem).
  rewrite (Query_unfold rt env startTime endTime w paths Hfiles).
  rewrite (grown_empty
             (storage.queryLoop rt env startTime endTime w paths nil_slice)).
  - done.
  - apply queryLoop_grown, grown_nil.
  - rewrite queryLoop_from_nil. apply flat_map_all_nil.
    intros name [day [Hseg Hov]]%Hmem. by eapply Hnone.
Qed.

(** C9. A [GET METRICS] request with two timestamps that parse, over a
    range in which no stored record is kept, is answered with the single
    line [null], the JSON text of a nil slice: not [[]], not an error
    line. *)
Theorem GetMetrics_without_match_replies_null (env : Env) (now : Time)
    (srv : server.Server) (s : storage.Storage) (w : World) (line : string)
    (verb sub arg0 arg1 : string) (more : list string)
    (startTime endTime : Time) :
  strings_Fields rt (strings_TrimSpace rt line)
    = verb :: sub :: arg0 :: arg1 :: more ->
  strings_ToUpper rt verb = "GET" ->
  strings_ToLower rt sub = "metrics" ->
  time_ParseRFC3339 rt arg0 = Ok startTime ->
  time_ParseRFC3339 rt arg1 = Ok endTime ->
  fail_ReadDir env = false ->
  (forall name day,
      segment_file rt w name day -> day_overlaps day startTime endTime ->
      kept_records rt env w startTime endTime name = []) ->
  server.handleConnection rt env now srv s w (Ok line)
  = (srv,
     {| server.written := ["null" +:+ String newline ""];
        server.closed := true |}).
Proof.
  intros Hparts Hverb Hsub Hstart Hend Hdir Hnone.
  unfold server.handleConnection. rewrite Hparts, Hverb.
  simpl String.eqb. cbv iota. rewrite handleGet_metrics by done.
  unfold server.handleGetMetrics. rewrite Hstart, Hend.
  by rewrite (Query_nothing_kept env startTime endTime w Hdir Hnone).
Qed.

End ServerTheorems.

(** ** The retention sweep *)

Section SweepTheorems.

Variable rt : Runtime.

Lemma os_Remove_other (env : Env) (x name : string) (w : World) :
  x <> name -> files (os_Remove env x w).2 !! name = files w !! name.
Proof.
  intros Hne. unfold os_Remove. simpl.
  destruct (fail_Remove env x); [done |].
  destruct (files w !! x); simpl; [by apply lookup_delete_ne | done].
Qed.

Lemma os_Remove_failed (env : Env) (x : string) (w : World) :
  fail_Remove env x = true -> files (os_Remove env x w).2 = files w.
Proof. intros H. unfold os_Remove. simpl. by rewrite H. Qed.

Lemma os_Remove_done (env : Env) (x : string) (w : World) :
  fail_Remove env x = false -> files (os_Remove env x w).2 !! x = None.
Proof.
  intros H. unfold os_Remove. simpl. rewrite H.
  destruct (files w !! x) eqn:Hx; simpl; [apply lookup_delete_eq | done].
Qed.

Lemma os_Remove_absent (env : Env) (x name : string) (w : World) :
  files w !! name = None -> files (os_Remove env x w).2 !! name = None.
Proof.
  intros Hnone. destruct (decide (x = name)) as [-> | Hne].
  - unfold os_Remove. simpl. destruct (fail_Remove env name); [done |].
    by rewrite Hnone.
  - by rewrite os_Remove_other.
Qed.

Lemma cleanupLoop_absent (env : Env) (cutoff : Time)
    (entries : list (string * node)) (w : World) (name : string) :
  files w !! name = None ->
  files (storage.cleanupLoop rt env cutoff entries w) !! name = None.
Proof.
  revert w. induction entries as [|entry rest IH]; intros w H; simpl; [done |].
  destruct (storage.expired_entry rt cutoff entry); apply IH; [| done].
  by apply os_Remove_absent.
Qed.

Lemma cleanupLoop_removes (env : Env) (cutoff : Time)
    (entries : list (string * node)) (w : World) (name : string) (n : node) :
  (name, n) ∈ entries ->
  storage.expired_entry rt cutoff (name, n) = true ->
  fail_Remove env name = false ->
  files (storage.cleanupLoop rt env cutoff entries w) !! name = None.
Proof.
  revert w. induction entries as [|entry rest IH]; intros w Hin Hexp Hok.
  - by apply elem_of_nil in Hin.
  - simpl. apply elem_of_cons in Hin as [<- | Hin].
    + rewrite Hexp. apply cleanupLoop_absent. by apply os_Remove_done.
    + destruct (storage.expired_entry rt cutoff entry); by apply IH.
Qed.

Lemma cleanupLoop_keeps (env : Env) (cutoff : Time)
    (entries : list (string * node)) (w : World) (name : string) :
  (forall n, (name, n) ∈ entries ->
             storage.expired_entry rt cutoff (name, n) = true ->
             fail_Remove env name = true) ->
  files (storage.cleanupLoop rt env cutoff entries w) !! name
  = files w !! name.
Proof.
  revert w. induction entries as [|[x n] rest IH]; intros w Hkeep; simpl;
    [done |].
  assert (forall n', (name, n') ∈ rest ->
            storage.expired_entry rt cutoff (name, n') = true ->
            fail_Remove env name = true) as Hrest.
  { intros n' Hin. apply Hkeep. by right. }
  destruct (storage.expired_entry rt cutoff (x, n)) eqn:Hexp;
    rewrite IH by done; [| done].
  destruct (decide (x = name)) as [-> | Hne].
  - by rewrite os_Remove_failed by (apply (Hkeep n); [by left | done]).
  - by apply os_Remove_other.
Qed.

Lemma expired_entry_spec (cutoff : Time) (name : string) (n : node) :
  storage.expired_entry rt cutoff (name, n) = true
  <-> exists ino data day,
        n = File ino data /\ compressed_segment rt name day /\ day < cutoff.
Proof.
  unfold storage.expired_entry, compressed_segment. simpl.
  fold (dateStr_of name). split.
  - destruct n as [ino data|]; [| done].
    destruct (HasSuffix name ".jsonl.gz") eqn:Hgz; simpl; [| done].
    apply HasSuffix_iff in Hgz as [d ->]. rewrite dateStr_of_compressed.
    destruct (time_Parse rt d) as [day|] eqn:Hday; [| done].
    unfold Before. intros Hlt%Z.ltb_lt. exists ino, data, day. eauto.
  - intros (ino & data & day & -> & (d & -> & Hday) & Hlt).
    rewrite HasSuffix_app, dateStr_of_compressed, Hday. simpl.
    by apply Z.ltb_lt.
Qed.

(** C7. The sweep with a horizon of [retention s] days, once it could list
    the directory, deletes exactly the compressed segment files whose day
    is strictly before the cutoff, the instant [retention s] days before
    [now] (a file whose removal fails stays). Everything else is left as it
    was: in particular every plain segment file, the open one among them,
    whatever its age. *)
Theorem cleanupOldFiles_deletes_old_compressed_only (env : Env) (now : Time)
    (s : storage.Storage) (w : World) (name : string) (n : node) :
  fail_ReadDir env = false ->
  files w !! name = Some n ->
  (files (storage.cleanupOldFiles rt env now s w) !! name = None
   <-> exists ino data day,
         n = File ino data
         /\ compressed_segment rt name day
         /\ day < AddDate_days now (- storage.retention s)
         /\ fail_Remove env name = false)
  /\ (files (storage.cleanupOldFiles rt env now s w) !! name = None
      \/ files (storage.cleanupOldFiles rt env now s w) !! name = Some n)
  /\ (forall d, name = d +:+ ".jsonl" ->
        files (storage.cleanupOldFiles rt env now s w) !! name = Some n).
Proof.
  intros Hdir Hfile. unfold storage.cleanupOldFiles.
  destruct (os_ReadDir_ok env w Hdir) as (entries & -> & Hperm).
  set (cutoff := AddDate_days now (- storage.retention s)).
  assert ((name, n) ∈ entries) as Hin.
  { rewrite Hperm. by apply elem_of_map_to_list. }
  assert (forall n', (name, n') ∈ entries -> n' = n) as Huniq.
  { intros n' Hin'. rewrite Hperm in Hin'.
    apply elem_of_map_to_list in Hin'. congruence. }
  destruct (storage.expired_entry rt cutoff (name, n)) eqn:Hexp;
    [destruct (fail_Remove env name) eqn:Hrm |].
  - (* expired, and the removal fails *)
    assert (files (storage.cleanupLoop rt env cutoff entries w) !! name
            = Some n) as Hkept.
    { rewrite cleanupLoop_keeps; [done |]. by intros. }
    rewrite Hkept. split; [| split; [by right | done]].
    split; [done |]. intros (? & ? & ? & _ & _ & _ & ?). congruence.
  - (* expired, and removed *)
    assert (files (storage.cleanupLoop rt env cutoff entries w) !! name
            = None) as Hgone by (by eapply cleanupLoop_removes).
    rewrite Hgone. split; [| split; [by left |]].
    + split; [| done]. intros _.
      apply expired_entry_spec in Hexp as (ino & data & day & ? & ? & ?).
      exists ino, data, day. auto.
    + intros d ->.
      apply expired_entry_spec in Hexp
        as (ino & data & day & _ & (d' & Hname & _) & _).
      assert (HasSuffix (d +:+ ".jsonl") ".jsonl.gz" = true) as Hbad
        by (rewrite Hname; apply HasSuffix_app).
      by rewrite plain_not_compressed in Hbad.
  - (* not expired *)
    assert (files (storage.cleanupLoop rt env cutoff entries w) !! name
            = Some n) as Hkept.
    { rewrite cleanupLoop_keeps; [done |].
      intros n' Hin' Hexp'. rewrite (Huniq n' Hin') in Hexp'. congruence. }
    rewrite Hkept. split; [| split; [by right | done]].
    split; [done |]. intros (ino & data & day & Hn & Hseg & Hlt & _).
    assert (storage.expired_entry rt cutoff (name, n) = true) as Hexp'.
    { apply expired_entry_spec. exists ino, data, day. auto. }
    congruence.
Qed.

End SweepTheorems.

(** ** The writer *)

Section WriterFacts.

Variable rt : Runtime.

Lemma OpenFile_append_spec (env : Env) (name : string) (w w' : World)
    (h : handle) :
  os_OpenFile_append env name w = (Ok h, w') ->
  h_name h = name /\ h_access h = O_WRONLY /\ h_closed h = false
  /\ trace w' = trace w ++ [SysOpenFile name]
  /\ spawned w' = spawned w
  /\ ((files w !! name = None
       /\ files w' = <[name := File (h_ino h) ""]> (files w))
      \/ (exists data, files w !! name = Some (File (h_ino h) data)
                       /\ files w' = files w)).
Proof.
  unfold os_OpenFile_append. simpl.
  destruct (fail_OpenFile env name); [done |].
  destruct (files w !! name) as [[ino data|]|] eqn:Hfile; [| done |];
    intros [= <- <-]; simpl; repeat split; eauto.
Qed.

Lemma OpenFile_append_trace (env : Env) (name : string) (w : World) :
  trace (os_OpenFile_append env name w).2 = trace w ++ [SysOpenFile name]
  /\ spawned (os_OpenFile_append env name w).2 = spawned w.
Proof.
  unfold os_OpenFile_append. simpl.
  destruct (fail_OpenFile env name); [done |].
  by destruct (files w !! name) as [[ino data|]|].
Qed.

(** What a rotation check that returned [nil] did: nothing when the
    descriptor held is of today, otherwise the old descriptor was closed,
    its file was handed to the compressor, and the file of today was opened
    for appending, created empty if it was not there. *)
Lemma rotateIfNeeded_ok (env : Env) (now : Time) (s s' : storage.Storage)
    (w w' : World) :
  storage.rotateIfNeeded rt env now s w = (None, s', w') ->
  storage.currentDay s' = time_Format rt now
  /\ storage.retention s' = storage.retention s
  /\ ((storage.currentDay s = time_Format rt now
       /\ is_Some (storage.currentFile s) /\ s' = s /\ w' = w)
      \/ (exists h,
            storage.currentFile s' = Some h
            /\ h_name h = storage.segment_name (time_Format rt now)
            /\ h_access h = O_WRONLY
            /\ h_closed h = false
            /\ ((files w !! h_name h = None
                 /\ files w' = <[h_name h := File (h_ino h) ""]> (files w))
                \/ (exists data,
                      files w !! h_name h = Some (File (h_ino h) data)
                      /\ files w' = files w)))).
Proof.
  unfold storage.rotateIfNeeded.
  destruct (String.eqb (time_Format rt now) (storage.currentDay s)
            && bool_decide (is_Some (storage.currentFile s))) eqn:Hsame.
  - intros [= <- <-]. apply andb_true_iff in Hsame as [Hday Hfile].
    apply String.eqb_eq in Hday. apply bool_decide_eq_true in Hfile.
    split; [done |]. split; [done |]. left. done.
  - destruct (storage.currentFile s) as [h0|]; simpl.
    + destruct (os_OpenFile_append env _ _) as [[h|e] w1] eqn:Hopen; [| done].
      intros [= <- <-]. simpl.
      apply OpenFile_append_spec in Hopen
        as (Hname & Hacc & Hcl & _ & _ & Hfiles).
      split; [done |]. split; [done |]. right. exists h.
      rewrite Hname. repeat split; try done.
      destruct (h_closed h0); exact Hfiles.
    + destruct (os_OpenFile_append env _ _) as [[h|e] w1] eqn:Hopen; [| done].
      intros [= <- <-]. simpl.
      apply OpenFile_append_spec in Hopen
        as (Hname & Hacc & Hcl & _ & _ & Hfiles).
      split; [done |]. split; [done |]. right. exists h.
      rewrite Hname. repeat split; done.
Qed.

Lemma rotateIfNeeded_from_rotation (env : Env) (now : Time)
    (s : storage.Storage) (w : World) :
  from_rotation s -> from_rotation (storage.rotateIfNeeded rt env now s w).1.2.
Proof.
  intros Hs. unfold storage.rotateIfNeeded.
  destruct (_ && _); [done |].
  destruct (storage.currentFile s) as [h0|] eqn:Hcur; simpl.
  - destruct (os_OpenFile_append env _ _) as [[h|e] w1] eqn:Hopen; simpl.
    + apply OpenFile_append_spec in Hopen as (Hname & Hacc & _).
      intros h' [= <-]. done.
    + intros h' [= <-]. simpl. by apply Hs.
  - destruct (os_OpenFile_append env _ _) as [[h|e] w1] eqn:Hopen; simpl.
    + apply OpenFile_append_spec in Hopen as (Hname & Hacc & _).
      intros h' [= <-]. done.
    + intros h'. rewrite Hcur. done.
Qed.

Lemma Write_state (env : Env) (now : Time) (sample : Sample)
    (s : storage.Storage) (w : World) :
  (storage.Write rt env now sample s w).1.2
  = (storage.rotateIfNeeded rt env now s w).1.2.
Proof.
  unfold storage.Write.
  destruct (storage.rotateIfNeeded rt env now s w) as [[[e|] s1] w1]; [done |].
  destruct (json_Marshal rt sample); [| done].
  destruct (storage.currentFile s1); [| done].
  destruct (file_Write env _ _ _) as [[e|] w2]; [done |].
  by destruct (file_Sync env _ _).
Qed.

Lemma Write_from_rotation (env : Env) (now : Time) (sample : Sample)
    (s : storage.Storage) (w : World) :
  from_rotation s -> from_rotation (storage.Write rt env now sample s w).1.2.
Proof. rewrite Write_state. apply rotateIfNeeded_from_rotation. Qed.

Lemma NewStorage_from_rotation (env : Env) (now : Time) (retentionDays : Z)
    (w w' : World) (s : storage.Storage) :
  storage.NewStorage rt env now retentionDays w = (Ok s, w') -> from_rotation s.
Proof.
  unfold storage.NewStorage. destruct (fail_MkdirAll env); [done |].
  set (s0 := {| storage.currentFile := None; storage.currentDay := "";
                storage.retention := retentionDays |}).
  pose proof (rotateIfNeeded_from_rotation env now s0 w) as Hrot.
  destruct (storage.rotateIfNeeded rt env now s0 w) as [[[e|] s1] w1];
    [done |].
  intros [= <- _]. apply Hrot. intros h. done.
Qed.

Lemma run_writes_from_rotation (ticks : list (Env * Time * Sample))
    (s s' : storage.Storage) (w w' : World) :
  from_rotation s -> run_writes rt ticks s w = Some (s', w') ->
  from_rotation s'.
Proof.
  revert s w. induction ticks as [|[[env now] sample] rest IH];
    intros s w Hs; simpl.
  - by intros [= <- _].
  - pose proof (Write_from_rotation env now sample s w Hs) as Hnext.
    destruct (storage.Write rt env now sample s w) as [[[e|] s1] w1]; [done |].
    by apply IH.
Qed.

(** Reading through a descriptor that is for writing only fails. *)
Lemma GetCurrent_write_only (env : Env) (s : storage.Storage) (w : World)
    (h : handle) :
  storage.currentFile s = Some h -> h_access h = O_WRONLY ->
  exists e, storage.GetCurrent rt env s w = Err e.
Proof.
  intros Hcur Hacc. unfold storage.GetCurrent, file_Seek_start, file_ReadAll.
  rewrite Hcur, Hacc. destruct (h_closed h); eauto.
Qed.

Lemma GetCurrent_never_answers (env : Env) (s : storage.Storage) (w : World) :
  from_rotation s -> exists e, storage.GetCurrent rt env s w = Err e.
Proof.
  intros Hs. destruct (storage.currentFile s) as [h|] eqn:Hcur.
  - eapply GetCurrent_write_only; [done |]. by apply Hs.
  - unfold storage.GetCurrent. rewrite Hcur. eauto.
Qed.

Lemma lastParsed_snoc (tokens : list string) (tok : string)
    (lastSample : option Sample) (sample : Sample) :
  json_Unmarshal rt tok = Some sample ->
  storage.lastParsed rt (tokens ++ [tok]) lastSample = Some sample.
Proof.
  intros Htok. revert lastSample.
  induction tokens as [|t tokens IH]; intros lastSample; simpl.
  - by rewrite Htok.
  - destruct (json_Unmarshal rt t); apply IH.
Qed.

(** What [GetCurrent] would answer through a descriptor that can be read:
    after a line was appended to a complete text, the sample of that
    line. The scan itself is as the description has it; only the mode the
    segment is opened with stands in its way. *)
Lemma GetCurrent_through_readable_descriptor (env : Env)
    (s : storage.Storage) (w : World) (h : handle) (old data : string)
    (sample : Sample) :
  storage.currentFile s = Some h ->
  h_closed h = false ->
  h_access h = O_RDWR ->
  fail_Read env (h_name h) = false ->
  handle_data h w = Some (old +:+ data +:+ String newline "") ->
  complete old = true ->
  one_line data = true ->
  lines_fit (splitLines old) = true ->
  too_long data = false ->
  json_Unmarshal rt (dropCR data) = Some sample ->
  storage.GetCurrent rt env s w = Ok (Some sample).
Proof.
  intros Hcur Hclosed Hacc Hread Hdata Hold Hline Hfit Hshort Hparse.
  unfold storage.GetCurrent, file_Seek_start, file_ReadAll.
  rewrite Hcur, Hclosed, Hacc, Hread, Hdata.
  unfold scanLines. rewrite splitLines_snoc by done.
  rewrite scanTokens_fit.
  - rewrite fmap_app. simpl. by rewrite (lastParsed_snoc _ _ _ sample).
  - rewrite lines_fit_app, Hfit. simpl. by rewrite Hshort.
Qed.

(** C1, on the code. [rotateIfNeeded] opens the segment with [O_WRONLY],
    and [GetCurrent] reads through that same descriptor: after a storage
    was made and any number of samples were written with success, whatever
    the environment, [GetCurrent] returns an error and never a sample. *)
Theorem GetCurrent_after_Write_is_an_error (env0 env : Env) (t0 : Time)
    (retentionDays : Z) (w0 w1 w : World) (s0 s : storage.Storage)
    (ticks : list (Env * Time * Sample)) :
  storage.NewStorage rt env0 t0 retentionDays w0 = (Ok s0, w1) ->
  run_writes rt ticks s0 w1 = Some (s, w) ->
  exists e, storage.GetCurrent rt env s w = Err e.
Proof.
  intros Hnew Hrun. apply GetCurrent_never_answers.
  eapply run_writes_from_rotation; [| done].
  by eapply NewStorage_from_rotation.
Qed.

End WriterFacts.

Section WriteTheorem.

Variable rt : Runtime.

Lemma rotateIfNeeded_trace (env : Env) (now : Time) (s : storage.Storage)
    (w : World) :
  exists calls,
    trace (storage.rotateIfNeeded rt env now s w).2 = trace w ++ calls
    /\ (calls = []
        \/ calls = [SysOpenFile (storage.segment_name (time_Format rt now))]
        \/ exists old,
             calls = [SysClose old;
                      SysOpenFile (storage.segment_name (time_Format rt now))]).
Proof.
  unfold storage.rotateIfNeeded.
  destruct (_ && _); simpl.
  { exists []. by rewrite app_nil_r; auto. }
  destruct (storage.currentFile s) as [h0|]; simpl.
  - destruct (h_closed h0).
    + pose proof (OpenFile_append_trace env
                    (storage.segment_name (time_Format rt now))
                    (spawn (GoCompressFile
                              (storage.segment_name (storage.currentDay s))) w))
        as [Htr _].
      destruct (os_OpenFile_append env _ _) as [[h|e] w1]; simpl in *;
        eexists; (split; [exact Htr | auto]).
    + pose proof (OpenFile_append_trace env
                    (storage.segment_name (time_Format rt now))
                    (spawn (GoCompressFile
                              (storage.segment_name (storage.currentDay s)))
                       (emit (SysClose (h_name h0)) w)))
        as [Htr _].
      destruct (os_OpenFile_append env _ _) as [[h|e] w1]; simpl in *;
        exists [SysClose (h_name h0);
                SysOpenFile (storage.segment_name (time_Format rt now))];
        (split; [by rewrite Htr, <- app_assoc | eauto]).
  - pose proof (OpenFile_append_trace env
                  (storage.segment_name (time_Format rt now)) w) as [Htr _].
    destruct (os_OpenFile_append env _ _) as [[h|e] w1]; simpl in *;
      eexists; (split; [exact Htr | auto]).
Qed.

Lemma rotateIfNeeded_open_failure (env : Env) (now : Time)
    (s : storage.Storage) (w : World) :
  fail_OpenFile env (storage.segment_name (time_Format rt now)) = true ->
  storage.currentDay s <> time_Format rt now \/ storage.currentFile s = None ->
  (storage.rotateIfNeeded rt env now s w).1.1 <> None.
Proof.
  intros Hfail Hneeded. unfold storage.rotateIfNeeded.
  destruct (String.eqb (time_Format rt now) (storage.currentDay s)
            && bool_decide (is_Some (storage.currentFile s))) eqn:Hsame.
  - apply andb_true_iff in Hsame as [Hday Hfile].
    apply String.eqb_eq in Hday. apply bool_decide_eq_true in Hfile.
    destruct Hneeded as [Hne | Hnone]; [congruence |].
    rewrite Hnone in Hfile. by destruct Hfile.
  - unfold os_OpenFile_append.
    destruct (storage.currentFile s) as [h0|]; simpl; by rewrite Hfail.
Qed.

Lemma append_data_lookup (h : handle) (bytes old : string) (w : World) :
  handle_data h w = Some old ->
  files (append_data h bytes w) !! h_name h
  = Some (File (h_ino h) (old +:+ bytes)).
Proof.
  intros H. unfold append_data. rewrite H. simpl. apply lookup_insert_eq.
Qed.

Lemma append_data_trace (h : handle) (bytes : string) (w : World) :
  trace (append_data h bytes w) = trace w.
Proof. unfold append_data. by destruct (handle_data h w). Qed.

(** C6. A [Write] that returns [nil] appended the one line of the sample
    (its JSON text and a newline, which the scanner reads back as exactly
    one line) to the file of the open segment, by one write call followed
    by one [fsync], the last call before it returned. A failure to open or
    create the file, to write or to flush makes the call return an error;
    nothing is attempted twice within the call. *)
Theorem Write_appends_one_line_and_syncs (env : Env) (now : Time)
    (sample : Sample) (s s1 s' : storage.Storage) (w w1 w' : World)
    (e1 e : error) :
  JsonLaws rt ->
  storage.rotateIfNeeded rt env now s w = (e1, s1, w1) ->
  storage.Write rt env now sample s w = (e, s', w') ->
  s' = s1
  /\ (e = None ->
      exists h data,
        e1 = None
        /\ storage.currentFile s1 = Some h
        /\ json_Marshal rt sample = Ok data
        /\ splitLines (data +:+ String newline "") = [data]
        /\ files w' = files (append_data h (data +:+ String newline "") w1)
        /\ (forall old, handle_data h w1 = Some old ->
              files w' !! h_name h
              = Some (File (h_ino h) (old +:+ data +:+ String newline "")))
        /\ trace w'
           = trace w1 ++ [SysWrite (h_name h) (data +:+ String newline "");
                          SysFsync (h_name h)])
  /\ (e1 <> None -> e = e1 /\ w' = w1)
  /\ (fail_OpenFile env (storage.segment_name (time_Format rt now)) = true ->
      storage.currentDay s <> time_Format rt now
      \/ storage.currentFile s = None ->
      e <> None)
  /\ (is_Some (fail_Write env) -> e <> None)
  /\ (fail_Sync env = true -> e <> None)
  /\ (exists calls,
        trace w' = trace w1 ++ calls
        /\ (calls = []
            \/ (exists name bytes, calls = [SysWrite name bytes])
            \/ (exists name bytes,
                  calls = [SysWrite name bytes; SysFsync name]))).
Proof.
  intros [_ Hjson] Hrot.
  pose proof (rotateIfNeeded_open_failure env now s w) as Hopen.
  rewrite Hrot in Hopen. simpl in Hopen.
  unfold storage.Write. rewrite Hrot.
  destruct e1 as [m|].
  { intros [= <- <- <-]. repeat split; try done.
    exists []. rewrite app_nil_r. auto. }
  assert (forall P : Prop,
            fail_OpenFile env (storage.segment_name (time_Format rt now)) = true ->
            storage.currentDay s <> time_Format rt now
            \/ storage.currentFile s = None -> P) as Hnever.
  { intros P Hf Hn. by destruct (Hopen Hf Hn). }
  destruct (json_Marshal rt sample) as [data|m] eqn:Hdata.
  2:{ intros [= <- <- <-]. repeat split; try done.
      exists []. rewrite app_nil_r. auto. }
  destruct (storage.currentFile s1) as [h|] eqn:Hcur.
  2:{ intros [= <- <- <-]. repeat split; try done.
      exists []. rewrite app_nil_r. auto. }
  unfold file_Write, file_Sync.
  destruct (h_closed h) eqn:Hclosed.
  { intros [= <- <- <-]. repeat split; try done.
    exists []. rewrite app_nil_r. auto. }
  destruct (h_access h) eqn:Hacc.
  { intros [= <- <- <-]. repeat split; try done.
    exists []. rewrite app_nil_r. auto. }
  all: destruct (fail_Write env) as [k|] eqn:Hwrite.
  1,3: intros [= <- <- <-]; repeat split; try done;
       eexists; (split; [simpl; by rewrite append_data_trace | eauto]).
  all: destruct (fail_Sync env) eqn:Hsync; simpl; intros [= <- <- <-].
  1,3: repeat split; try done; try (by intros [? ?]);
       eexists; (split; [simpl; rewrite append_data_trace, <- app_assoc;
                         reflexivity
                        | eauto 6]).
  all: split; [done |]; split;
       [ intros _; exists h, data; repeat split; try done;
         [ apply splitLines_one_line; by eapply Hjson
         | intros old Hold; simpl; by apply append_data_lookup
         | simpl; by rewrite append_data_trace, <- app_assoc ]
       | repeat split; try done; try (by intros [? ?]);
         try (intros; by eapply Hnever);
         eexists; (split; [simpl; rewrite append_data_trace, <- app_assoc;
                           reflexivity
                          | eauto 6]) ].
Qed.

End WriteTheorem.

(** ** The compressor *)

Section CompressorTheorems.

Variable rt : Runtime.

Lemma gz_name_ne (path : string) : path +:+ ".gz" <> path.
Proof.
  intros H. apply (f_equal String.length) in H.
  rewrite string_length_app in H. simpl in H. lia.
Qed.

Lemma os_Create_spec (env : Env) (name : string) (w w' : World) (e : error) :
  os_Create env name w = (e, w') ->
  trace w' = trace w ++ [SysCreate name]
  /\ (e <> None <-> fail_Create env name = true \/ files w !! name = Some Dir)
  /\ (e <> None -> files w' = files w)
  /\ (e = None -> exists ino, files w' = <[name := File ino ""]> (files w)).
Proof.
  unfold os_Create. simpl.
  destruct (fail_Create env name) eqn:Hfail.
  { intros [= <- <-]. simpl. repeat split; try done. auto. }
  destruct (files w !! name) as [[ino old|]|] eqn:Hfile;
    intros [= <- <-]; simpl; repeat split; try done; eauto.
  - by intros [? | ?].
  - by intros [? | ?].
Qed.

Lemma put_data_spec (name bytes : string) (w : World) (ino : nat)
    (old : string) :
  files w !! name = Some (File ino old) ->
  files (put_data name bytes w) = <[name := File ino bytes]> (files w)
  /\ trace (put_data name bytes w) = trace w ++ [SysWrite name bytes].
Proof. intros H. unfold put_data. by rewrite H. Qed.

Lemma compressFile_unfold (env : Env) (path : string) (w : World) (ino : nat)
    (data : string) :
  files w !! path = Some (File ino data) ->
  fail_Open env path = false ->
  fail_Create env (path +:+ ".gz") = false ->
  files w !! (path +:+ ".gz") <> Some Dir ->
  exists ino_gz out w2,
    files w2 = <[path +:+ ".gz" := File ino_gz out]> (files w)
    /\ trace w2 = trace w ++ [SysOpen path; SysCreate (path +:+ ".gz");
                              SysWrite (path +:+ ".gz") out]
    /\ match fail_Copy env with
       | Some part => out = part /\ storage.compressFile rt env path w = w2
       | None =>
           out = match fail_Flush env with
                 | Some part => part
                 | None => gzip_Compress rt data
                 end
           /\ storage.compressFile rt env path w = (os_Remove env path w2).2
       end.
Proof.
  intros Hsrc Hopen Hcreate Hnodir.
  unfold storage.compressFile. rewrite Hsrc, Hopen.
  destruct (os_Create env (path +:+ ".gz") (emit (SysOpen path) w))
    as [e w1] eqn:Hcr.
  apply os_Create_spec in Hcr as (Htr & Hiff & _ & Hok).
  destruct e as [m|].
  { assert (Some m <> None) as Hne by done.
    apply Hiff in Hne as [? | ?]; simpl in *; congruence. }
  destruct (Hok eq_refl) as [ino_gz Hfiles]. simpl in Hfiles, Htr.
  assert (files w1 !! (path +:+ ".gz") = Some (File ino_gz "")) as Hdst
    by (rewrite Hfiles; apply lookup_insert_eq).
  destruct (fail_Copy env) as [part|].
  - destruct (put_data_spec (path +:+ ".gz") part w1 ino_gz "" Hdst)
      as [Hf Ht].
    exists ino_gz, part, (put_data (path +:+ ".gz") part w1).
    rewrite Hf, Ht, Hfiles, Htr, insert_insert_eq, <- !app_assoc. done.
  - set (out := match fail_Flush env with
                | Some part => part
                | None => gzip_Compress rt data
                end).
    destruct (put_data_spec (path +:+ ".gz") out w1 ino_gz "" Hdst)
      as [Hf Ht].
    exists ino_gz, out, (put_data (path +:+ ".gz") out w1).
    rewrite Hf, Ht, Hfiles, Htr, insert_insert_eq, <- !app_assoc. done.
Qed.

Ltac calls_ok :=
  simpl; repeat (apply List.Forall_cons; [eauto 7 |]); apply List.Forall_nil.

Lemma os_Remove_trace (env : Env) (name : string) (w : World) :
  trace (os_Remove env name w).2 = trace w ++ [SysRemove name].
Proof.
  unfold os_Remove. simpl. destruct (fail_Remove env name); [done |].
  by destruct (files w !! name).
Qed.

Lemma compressFile_calls (env : Env) (path : string) (w : World) :
  exists calls,
    trace (storage.compressFile rt env path w) = trace w ++ calls
    /\ Forall (compress_call path) calls.
Proof.
  unfold storage.compressFile, compress_call.
  destruct (files w !! path) as [src|] eqn:Hsrc.
  2:{ exists []. by rewrite app_nil_r. }
  destruct (fail_Open env path).
  { exists [SysOpen path]. split; [done |]. calls_ok. }
  destruct (os_Create env (path +:+ ".gz") (emit (SysOpen path) w))
    as [e w1] eqn:Hcr.
  apply os_Create_spec in Hcr as (Htr & _ & _ & Hok). simpl in Htr.
  destruct e as [m|].
  { eexists. rewrite Htr, <- app_assoc. split; [done |]. calls_ok. }
  destruct (Hok eq_refl) as [ino_gz Hfiles].
  assert (files w1 !! (path +:+ ".gz") = Some (File ino_gz "")) as Hdst
    by (rewrite Hfiles; apply lookup_insert_eq).
  assert (forall out, trace (put_data (path +:+ ".gz") out w1)
                      = trace w ++ [SysOpen path; SysCreate (path +:+ ".gz");
                                    SysWrite (path +:+ ".gz") out]) as Hput.
  { intros out.
    destruct (put_data_spec (path +:+ ".gz") out w1 ino_gz "" Hdst) as [_ Ht].
    by rewrite Ht, Htr, <- !app_assoc. }
  destruct src as [ino data|].
  - destruct (fail_Copy env) as [part|].
    + eexists. split; [apply Hput |]. calls_ok.
    + eexists. rewrite os_Remove_trace, Hput, <- app_assoc.
      split; [done |]. calls_ok.
  - eexists. split; [apply Hput |]. calls_ok.
Qed.

(** C2, as the code has it. [compressFile] makes no temporary file and no
    rename: the only calls it makes are to open the original, to create
    (or truncate) the file of the canonical compressed name, to write into
    that file, and to remove the original. It does nothing when the
    original is not there. The original is removed last and only after the
    copy into the compressor returned without an error: when opening the
    original, creating the destination, copying or removing fails, the
    original is as it was. When nothing fails, the compressed text is under
    the canonical name, the original is gone and no other entry changed. *)
Theorem compressFile_compresses_in_place (env : Env) (path : string)
    (w : World) :
  (files w !! path = None -> storage.compressFile rt env path w = w)
  /\ (exists calls,
        trace (storage.compressFile rt env path w) = trace w ++ calls
        /\ Forall (compress_call path) calls)
  /\ (forall ino data,
        files w !! path = Some (File ino data) ->
        fail_Open env path = true
        \/ fail_Create env (path +:+ ".gz") = true
        \/ files w !! (path +:+ ".gz") = Some Dir
        \/ is_Some (fail_Copy env)
        \/ fail_Remove env path = true ->
        files (storage.compressFile rt env path w) !! path
        = Some (File ino data))
  /\ (forall ino data,
        files w !! path = Some (File ino data) ->
        fail_Open env path = false ->
        fail_Create env (path +:+ ".gz") = false ->
        files w !! (path +:+ ".gz") <> Some Dir ->
        fail_Copy env = None ->
        fail_Flush env = None ->
        fail_Remove env path = false ->
        files (storage.compressFile rt env path w) !! path = None
        /\ (exists ino_gz,
              files (storage.compressFile rt env path w) !! (path +:+ ".gz")
              = Some (File ino_gz (gzip_Compress rt data)))
        /\ (forall other,
              other <> path -> other <> path +:+ ".gz" ->
              files (storage.compressFile rt env path w) !! other
              = files w !! other)
        /\ trace (storage.compressFile rt env path w)
           = trace w ++ [SysOpen path; SysCreate (path +:+ ".gz");
                         SysWrite (path +:+ ".gz") (gzip_Compress rt data);
                         SysRemove path]).
Proof.
  split; [| split; [apply compressFile_calls | split]].
  - intros H. unfold storage.compressFile. by rewrite H.
  - intros ino data Hsrc Hfail.
    destruct (fail_Open env path) eqn:Hopen.
    { unfold storage.compressFile. by rewrite Hsrc, Hopen. }
    assert ((fail_Create env (path +:+ ".gz") = true
             \/ files w !! (path +:+ ".gz") = Some Dir)
            \/ (fail_Create env (path +:+ ".gz") = false
                /\ files w !! (path +:+ ".gz") <> Some Dir)) as Hcase.
    { destruct (fail_Create env (path +:+ ".gz")); [left; by left |].
      destruct (files w !! (path +:+ ".gz")) as [[i d|]|];
        [right | left; by right | right]; done. }
    destruct Hcase as [Hcreate | [Hc Hnodir]].
    { unfold storage.compressFile. rewrite Hsrc, Hopen.
      destruct (os_Create env (path +:+ ".gz") (emit (SysOpen path) w))
        as [e w1] eqn:Hcr.
      apply os_Create_spec in Hcr as (_ & Hiff & Hsame & _).
      destruct e as [m|]; [by rewrite Hsame |].
      simpl in Hiff. apply Hiff in Hcreate. done. }
    destruct (compressFile_unfold env path w ino data Hsrc Hopen Hc Hnodir)
      as (ino_gz & out & w2 & Hfiles & _ & Hres).
    assert (files w2 !! path = Some (File ino data)) as Hkept.
    { rewrite Hfiles, lookup_insert_ne; [done | apply gz_name_ne]. }
    destruct (fail_Copy env) as [part|] eqn:Hcopy.
    { destruct Hres as [_ ->]. done. }
    destruct Hres as [_ ->].
    destruct Hfail as [? | [? | [? | [[? ?] | Hrm]]]];
      try done; try congruence.
    by rewrite os_Remove_failed.
  - intros ino data Hsrc Hopen Hc Hnodir Hcopy Hflush Hrm.
    destruct (compressFile_unfold env path w ino data Hsrc Hopen Hc Hnodir)
      as (ino_gz & out & w2 & Hfiles & Htr & Hres).
    rewrite Hcopy, Hflush in Hres. destruct Hres as [-> ->].
    split; [by apply os_Remove_done |]. split; [| split].
    + exists ino_gz. rewrite os_Remove_other by (symmetry; apply gz_name_ne).
      rewrite Hfiles. apply lookup_insert_eq.
    + intros other Hne1 Hne2. rewrite os_Remove_other by done.
      rewrite Hfiles. by apply lookup_insert_ne.
    + by rewrite os_Remove_trace, Htr, <- app_assoc.
Qed.

(** A segment that was compressed with nothing failing reads back, by its
    compressed name, as the text the plain file held. *)
Lemma compressed_segment_reads_back (env env' : Env) (path : string)
    (w : World) (ino : nat) (data : string) :
  GzipLaws rt ->
  files w !! path = Some (File ino data) ->
  fail_Open env path = false ->
  fail_Create env (path +:+ ".gz") = false ->
  files w !! (path +:+ ".gz") <> Some Dir ->
  fail_Copy env = None ->
  fail_Flush env = None ->
  fail_Open env' (path +:+ ".gz") = false ->
  fail_Read env' (path +:+ ".gz") = false ->
  file_text rt env' (storage.compressFile rt env path w) (path +:+ ".gz")
  = Some data.
Proof.
  intros Hgzip Hsrc Hopen Hc Hnodir Hcopy Hflush Hopen' Hread'.
  destruct (compressFile_unfold env path w ino data Hsrc Hopen Hc Hnodir)
    as (ino_gz & out & w2 & Hfiles & _ & Hres).
  rewrite Hcopy, Hflush in Hres. destruct Hres as [-> ->].
  unfold file_text.
  rewrite os_Remove_other by (symmetry; apply gz_name_ne).
  rewrite Hfiles, lookup_insert_eq, Hopen', Hread'. simpl.
  by rewrite HasSuffix_app.
Qed.

End CompressorTheorems.

(** ** Segments and days *)

Section RotationTheorems.

Variable rt : Runtime.

Lemma segment_name_inj (a b : string) :
  storage.segment_name a = storage.segment_name b -> a = b.
Proof. apply string_app_inj_r. Qed.

Lemma Write_success (env : Env) (now : Time) (sample : Sample)
    (s s' : storage.Storage) (w w' : World) :
  storage.Write rt env now sample s w = (None, s', w') ->
  exists w1 h data,
    storage.rotateIfNeeded rt env now s w = (None, s', w1)
    /\ storage.currentFile s' = Some h
    /\ h_closed h = false
    /\ json_Marshal rt sample = Ok data
    /\ files w' = files (append_data h (data +:+ String newline "") w1).
Proof.
  unfold storage.Write.
  destruct (storage.rotateIfNeeded rt env now s w) as [[[m|] s1] w1]; [done |].
  destruct (json_Marshal rt sample) as [data|m]; [| done].
  destruct (storage.currentFile s1) as [h|] eqn:Hcur; [| done].
  unfold file_Write, file_Sync.
  destruct (h_closed h) eqn:Hclosed; [done |].
  destruct (h_access h); [done | |];
    (destruct (fail_Write env); [done |]);
    (destruct (fail_Sync env); intros [= <- <-]);
    exists w1, h, data; done.
Qed.

Lemma run_writes_snoc (ticks : list (Env * Time * Sample))
    (tick : Env * Time * Sample) (s : storage.Storage) (w : World) :
  run_writes rt (ticks ++ [tick]) s w
  = match run_writes rt ticks s w with
    | Some (s1, w1) => run_writes rt [tick] s1 w1
    | None => None
    end.
Proof.
  revert s w. induction ticks as [|[[env now] sample] rest IH];
    intros s w; simpl.
  - by destruct tick as [[env now] sample],
         (storage.Write rt env now sample s w) as [[[m|] s1] w1].
  - destruct (storage.Write rt env now sample s w) as [[[m|] s1] w1];
      [done | apply IH].
Qed.

Lemma day_text_snoc (day : string) (ticks : list (Env * Time * Sample))
    (env : Env) (now : Time) (sample : Sample) :
  day_text rt day (ticks ++ [(env, now, sample)])
  = day_text rt day ticks
      +:+ (if String.eqb (time_Format rt now) day
           then record_line rt sample else "").
Proof.
  induction ticks as [|[[env' now'] sample'] rest IH]; simpl.
  - destruct (String.eqb _ _); [by rewrite app_empty_r | done].
  - destruct (String.eqb (time_Format rt now') day);
      rewrite IH; [by rewrite string_app_assoc | done].
Qed.

Lemma day_text_unseen (day : string) (ticks : list (Env * Time * Sample)) :
  (forall t, t ∈ tick_time <$> ticks -> time_Format rt t <> day) ->
  day_text rt day ticks = "".
Proof.
  induction ticks as [|[[env now] sample] rest IH]; simpl; intros H; [done |].
  rewrite eqb_ne by (apply H; by left).
  apply IH. intros t Ht. apply H. by right.
Qed.

Lemma NewStorage_inv (env0 : Env) (t0 : Time) (retentionDays : Z)
    (w0 w1 : World) (s0 : storage.Storage) :
  files w0 = ∅ ->
  storage.NewStorage rt env0 t0 retentionDays w0 = (Ok s0, w1) ->
  writer_inv rt t0 [] s0 w1.
Proof.
  intros Hempty. unfold storage.NewStorage.
  destruct (fail_MkdirAll env0); [done |].
  set (s := {| storage.currentFile := None; storage.currentDay := "";
               storage.retention := retentionDays |}).
  destruct (storage.rotateIfNeeded rt env0 t0 s w0) as [[[m|] s1] w'] eqn:Hrot;
    [done |].
  intros [= <- <-].
  apply rotateIfNeeded_ok in Hrot as (Hday & _ & Hcase).
  destruct Hcase as [(_ & [? Hsome] & _ & _) | Hcase]; [done |].
  destruct Hcase as (h & Hcur & Hname & _ & Hclosed & Hfiles).
  destruct Hfiles as [[_ Hfiles] | (data & Hthere & _)];
    [| by rewrite Hempty, lookup_empty in Hthere].
  unfold writer_inv, observed, last_observed. simpl.
  split; [done |]. split; [| split].
  - exists h, "". rewrite Hday, Hfiles, lookup_insert_eq. done.
  - intros name. rewrite Hfiles, Hempty. intros [n Hn].
    apply lookup_insert_Some in Hn as [[<- _] | [_ Hn]];
      [| by rewrite lookup_empty in Hn].
    exists t0. split; [by left | done].
  - intros t ->%list_elem_of_singleton.
    exists (h_ino h). by rewrite Hfiles, <- Hname, lookup_insert_eq.
Qed.


Lemma observed_snoc (t0 : Time) (ticks : list (Env * Time * Sample))
    (env : Env) (now : Time) (sample : Sample) :
  observed t0 (ticks ++ [(env, now, sample)]) = observed t0 ticks ++ [now].
Proof. unfold observed. by rewrite fmap_app. Qed.

Lemma last_observed_snoc (t0 : Time) (ticks : list (Env * Time * Sample))
    (env : Env) (now : Time) (sample : Sample) :
  last_observed t0 (ticks ++ [(env, now, sample)]) = now.
Proof.
  unfold last_observed. rewrite fmap_app.
  change (tick_time <$> [(env, now, sample)]) with [now].
  by rewrite last_snoc.
Qed.

Lemma last_observed_elem (t0 : Time) (ticks : list (Env * Time * Sample)) :
  last_observed t0 ticks ∈ observed t0 ticks.
Proof.
  unfold last_observed, observed.
  destruct (last (tick_time <$> ticks)) as [t|] eqn:Hlast; simpl.
  - right. apply last_Some in Hlast as [l ->]. apply elem_of_app. right.
    by left.
  - by left.
Qed.

(** The text of a file that is there is the text of its day. *)
Lemma writer_inv_text (t0 : Time) (ticks : list (Env * Time * Sample))
    (s : storage.Storage) (w : World) (day : string) (n : node) :
  writer_inv rt t0 ticks s w ->
  files w !! storage.segment_name day = Some n ->
  exists ino t,
    n = File ino (day_text rt day ticks)
    /\ t ∈ observed t0 ticks /\ time_Format rt t = day.
Proof.
  intros (_ & _ & Hnames & Htexts) Hfile.
  destruct (Hnames (storage.segment_name day)) as (t & Ht & Heq);
    [by eexists |].
  apply segment_name_inj in Heq. subst day.
  destruct (Htexts t Ht) as [ino Hino].
  exists ino, t. split; [congruence | done].
Qed.

Lemma Write_inv (t0 : Time) (ticks : list (Env * Time * Sample))
    (env : Env) (now : Time) (sample : Sample)
    (s s' : storage.Storage) (w w' : World) :
  writer_inv rt t0 ticks s w ->
  storage.Write rt env now sample s w = (None, s', w') ->
  writer_inv rt t0 (ticks ++ [(env, now, sample)]) s' w'.
Proof.
  intros Hinv Hwrite.
  destruct (Write_success env now sample s s' w w' Hwrite)
    as (w1 & h & data & Hrot & Hcur & Hclosed & Hdata & Hfiles).
  set (line := data +:+ String newline "") in *.
  set (name := storage.segment_name (time_Format rt now)).
  assert (record_line rt sample = line) as Hline
    by (unfold record_line; by rewrite Hdata).
  apply rotateIfNeeded_ok in Hrot as (Hday & _ & Hcase).
  (* the file of today as the rotation check left it *)
  assert (h_name h = name
          /\ files w1 !! name
             = Some (File (h_ino h) (day_text rt (time_Format rt now) ticks))
          /\ (forall other, other <> name ->
                files w1 !! other = files w !! other)) as (Hname & Htoday & Hothers).
  { destruct Hcase as [(Hsame & _ & Hs & Hw) | (h' & Hcur' & Hname & _ & _ & Hopened)].
    - subst s' w1.
      pose proof Hinv as (_ & (h0 & data0 & Hcur0 & _ & Hname0 & Hfile0) & _).
      assert (h0 = h) as -> by congruence.
      assert (h_name h = name) as Hname
        by (rewrite Hname0; unfold name; by rewrite Hsame).
      split; [done |]. split; [| done].
      rewrite Hname in Hfile0.
      destruct (writer_inv_text t0 ticks s w (time_Format rt now) _
                  Hinv Hfile0) as (ino & t & Heq & _).
      rewrite Hfile0. congruence.
    - assert (h' = h) as -> by congruence.
      rewrite Hname in Hopened. fold name in Hopened, Hname.
      split; [done |].
      destruct Hopened as [[Hnone Hnew] | (data0 & Hthere & Hsame)].
      + split.
        * rewrite Hnew, lookup_insert_eq. f_equal. f_equal. symmetry.
          apply day_text_unseen. intros t Ht Heq.
          destruct Hinv as (_ & _ & _ & Htexts).
          destruct (Htexts t) as [ino Hino]; [by right |].
          rewrite Heq in Hino. fold name in Hino. congruence.
        * intros other Hne. rewrite Hnew. by apply lookup_insert_ne.
      + split; [| by rewrite Hsame].
        rewrite Hsame.
        destruct (writer_inv_text t0 ticks s w (time_Format rt now) _
                    Hinv Hthere) as (ino & t & Heq & _).
        rewrite Hthere. congruence. }
  assert (files w' = <[name := File (h_ino h)
                            (day_text rt (time_Format rt now) ticks +:+ line)]>
                       (files w1)) as Hw'.
  { rewrite Hfiles. unfold append_data, handle_data.
    rewrite Hname, Htoday. rewrite decide_True by done. done. }
  destruct Hinv as (_ & _ & Hnames & Htexts).
  unfold writer_inv. rewrite last_observed_snoc, observed_snoc.
  split; [done |]. split; [| split].
  - exists h. eexists. rewrite Hday. fold name. rewrite Hname, Hw'.
    rewrite lookup_insert_eq. done.
  - intros other Hsome. rewrite Hw' in Hsome.
    destruct (decide (other = name)) as [-> | Hne].
    + exists now. split; [apply elem_of_app; right; by left | done].
    + rewrite lookup_insert_ne, Hothers in Hsome by done.
      destruct (Hnames other Hsome) as (t & Ht & Heq).
      exists t. split; [apply elem_of_app; by left | done].
  - intros t Ht. rewrite day_text_snoc, Hline.
    destruct (String.eqb_spec (time_Format rt now) (time_Format rt t))
      as [Heq | Hne].
    + exists (h_ino h). rewrite <- Heq. fold name.
      by rewrite Hw', lookup_insert_eq.
    + rewrite app_empty_r.
      assert (storage.segment_name (time_Format rt t) <> name) as Hne'.
      { intros Heq. apply segment_name_inj in Heq. congruence. }
      rewrite Hw', lookup_insert_ne, Hothers by done.
      apply Htexts. apply elem_of_app in Ht as [Ht | Ht]; [done |].
      apply list_elem_of_singleton in Ht. congruence.
Qed.

Lemma run_writes_inv (t0 : Time) (ticks : list (Env * Time * Sample))
    (s0 s : storage.Storage) (w1 w : World) :
  writer_inv rt t0 [] s0 w1 ->
  run_writes rt ticks s0 w1 = Some (s, w) ->
  writer_inv rt t0 ticks s w.
Proof.
  intros Hstart. revert s w.
  induction ticks as [|[[env now] sample] ticks IH] using rev_ind;
    intros s w.
  - by intros [= <- <-].
  - rewrite run_writes_snoc.
    destruct (run_writes rt ticks s0 w1) as [[s1 w2]|]; [| done].
    simpl.
    destruct (storage.Write rt env now sample s1 w2) as [[[m|] s2] w3] eqn:Hw;
      [done |].
    intros [= <- <-]. eapply Write_inv; [by apply IH | done].
Qed.










End RotationTheorems.

(** ** The writer, the compressor and the sweep on the example inputs *)

Section StorageExamples.

Import smallrt examples.

Example started_ok : started = (Ok started_storage, started_world).
Proof. vm_compute. reflexivity. Qed.

Example first_tick_ok :
  run_writes (rt true) first_tick started_storage started_world
  = Some after_first_tick.
Proof. vm_compute. reflexivity. Qed.

(** The failing input of C1: a storage is made, one sample is written with
    success, and [GetCurrent] answers with the error of reading a
    descriptor that is for writing only. *)
Example GetCurrent_after_first_tick :
  storage.GetCurrent (rt true) healthy after_first_tick.1 after_first_tick.2
  = Err "bad file descriptor".
Proof. vm_compute. reflexivity. Qed.

Lemma GetCurrent_after_Write_is_an_error_witness :
  exists e,
    storage.GetCurrent (rt true) healthy after_first_tick.1 after_first_tick.2
    = Err e.
Proof.
  apply (GetCurrent_after_Write_is_an_error (rt true) healthy healthy
           before_midnight 30 (world_of []) started_world after_first_tick.2
           started_storage after_first_tick.1 first_tick).
  - vm_compute. reflexivity.
  - vm_compute. reflexivity.
Defined.

(** C2, as stated, fails: when the copy breaks, the bytes that got through
    are in the file of the canonical compressed name, next to the original;
    they were written there directly, with no temporary file and no
    rename. *)
Lemma compressFile_leaves_partial_file :
  files (storage.compressFile (rt true) copy_fails "19723.jsonl" one_segment)
    !! "19723.jsonl.gz"
  = Some (File 1 "gz:17040")
  /\ files (storage.compressFile (rt true) copy_fails "19723.jsonl" one_segment)
       !! "19723.jsonl"
     = Some (File 0 same_instant_text)
  /\ gzip_Decompress (rt true) "gz:17040" <> Some same_instant_text
  /\ trace (storage.compressFile (rt true) copy_fails "19723.jsonl" one_segment)
     = [SysOpen "19723.jsonl"; SysCreate "19723.jsonl.gz";
        SysWrite "19723.jsonl.gz" "gz:17040"].
Proof. vm_compute. repeat split; try reflexivity. discriminate. Qed.

(** The errors of closing the compressor and the destination are not
    looked at: when the last flush fails, the original is removed all the
    same and what is left under the compressed name is not its text. *)
Example compressFile_ignores_flush_failure :
  files (storage.compressFile (rt true) flush_fails "19723.jsonl" one_segment)
    !! "19723.jsonl"
  = None
  /\ files (storage.compressFile (rt true) flush_fails "19723.jsonl"
             one_segment) !! "19723.jsonl.gz"
     = Some (File 1 "gz:17040").
Proof. vm_compute. split; reflexivity. Qed.

Example compressFile_healthy :
  files (storage.compressFile (rt true) healthy "19723.jsonl" one_segment)
    !! "19723.jsonl"
  = None
  /\ files (storage.compressFile (rt true) healthy "19723.jsonl" one_segment)
       !! "19723.jsonl.gz"
     = Some (File 1 (Compress same_instant_text)).
Proof. vm_compute. split; reflexivity. Qed.




Lemma Write_appends_one_line_and_syncs_witness :
  first_write.1.2 = first_rotation.1.2
  /\ (first_write.1.1 = None ->
      exists h data,
        first_rotation.1.1 = None
        /\ storage.currentFile first_rotation.1.2 = Some h
        /\ json_Marshal (rt true) (bare before_midnight) = Ok data
        /\ splitLines (data +:+ String newline "") = [data]
        /\ files first_write.2
           = files (append_data h (data +:+ String newline "")
                      first_rotation.2)
        /\ (forall old, handle_data h first_rotation.2 = Some old ->
              files first_write.2 !! h_name h
              = Some (File (h_ino h) (old +:+ data +:+ String newline "")))
        /\ trace first_write.2
           = trace first_rotation.2
               ++ [SysWrite (h_name h) (data +:+ String newline "");
                   SysFsync (h_name h)])
  /\ (first_rotation.1.1 <> None ->
      first_write.1.1 = first_rotation.1.1
      /\ first_write.2 = first_rotation.2)
  /\ (fail_OpenFile healthy
        (storage.segment_name (time_Format (rt true) after_midnight)) = true ->
      storage.currentDay started_storage
        <> time_Format (rt true) after_midnight
      \/ storage.currentFile started_storage = None ->
      first_write.1.1 <> None)
  /\ (is_Some (fail_Write healthy) -> first_write.1.1 <> None)
  /\ (fail_Sync healthy = true -> first_write.1.1 <> None)
  /\ (exists calls,
        trace first_write.2 = trace first_rotation.2 ++ calls
        /\ (calls = []
            \/ (exists name bytes, calls = [SysWrite name bytes])
            \/ (exists name bytes,
                  calls = [SysWrite name bytes; SysFsync name]))).
Proof.
  apply (Write_appends_one_line_and_syncs (rt true) healthy after_midnight
           (bare before_midnight) started_storage first_rotation.1.2
           first_write.1.2 started_world first_rotation.2 first_write.2
           first_rotation.1.1 first_write.1.1).
  - apply small_JsonLaws.
  - vm_compute. reflexivity.
  - vm_compute. reflexivity.
Defined.

Example first_write_appended :
  first_write.1.1 = None
  /\ files first_write.2 !! "19724.jsonl"
     = Some (File 1 ("1704153599999999999" +:+ nl))
  /\ trace first_write.2
     = [SysOpenFile "19723.jsonl"; SysClose "19723.jsonl";
        SysOpenFile "19724.jsonl";
        SysWrite "19724.jsonl" ("1704153599999999999" +:+ nl);
        SysFsync "19724.jsonl"].
Proof. vm_compute. repeat split; reflexivity. Qed.

(** Two samples around midnight make two segments, and a query over both
    days returns both, in that order. *)
Example two_days_two_segments :
  exists s0 w1 s w,
    started_on_jan1 = (Ok s0, w1)
    /\ run_writes (rt true) around_midnight s0 w1 = Some (s, w)
    /\ dom (files w) = {["19723.jsonl"; "19724.jsonl"]}
    /\ storage.Query (rt true) healthy jan1 (jan2 + Day - 1) w
       = Ok (mk_slice [bare (jan2 - ten_seconds); bare (jan2 + ten_seconds)]).
Proof.
  do 4 eexists.
  split; [vm_compute; reflexivity |].
  split; [vm_compute; reflexivity |].
  split; [vm_compute; reflexivity | vm_compute; reflexivity].
Qed.

Example sweep_old_segments :
  files (storage.cleanupOldFiles (rt true) healthy jan1 no_storage old_segments)
    !! "19000.jsonl.gz" = None
  /\ files (storage.cleanupOldFiles (rt true) healthy jan1 no_storage
             old_segments) !! "19000.jsonl"
     = Some (File 1 "1641600000000000000").
Proof. vm_compute. split; reflexivity. Qed.

Lemma cleanupOldFiles_deletes_old_compressed_only_witness :
  (files (storage.cleanupOldFiles (rt true) healthy jan1 no_storage
            old_segments) !! "19000.jsonl.gz" = None
   <-> exists ino data day,
         File 0 (Compress "1641600000000000000") = File ino data
         /\ compressed_segment (rt true) "19000.jsonl.gz" day
         /\ day < AddDate_days jan1 (- storage.retention no_storage)
         /\ fail_Remove healthy "19000.jsonl.gz" = false)
  /\ (files (storage.cleanupOldFiles (rt true) healthy jan1 no_storage
               old_segments) !! "19000.jsonl.gz" = None
      \/ files (storage.cleanupOldFiles (rt true) healthy jan1 no_storage
                  old_segments) !! "19000.jsonl.gz"
         = Some (File 0 (Compress "1641600000000000000")))
  /\ (forall d, "19000.jsonl.gz" = d +:+ ".jsonl" ->
        files (storage.cleanupOldFiles (rt true) healthy jan1 no_storage
                 old_segments) !! "19000.jsonl.gz"
        = Some (File 0 (Compress "1641600000000000000"))).
Proof.
  apply (cleanupOldFiles_deletes_old_compressed_only (rt true) healthy jan1
           no_storage old_segments "19000.jsonl.gz"
           (File 0 (Compress "1641600000000000000"))).
  - reflexivity.
  - vm_compute. reflexivity.
Defined.

End StorageExamples.

(** ** The request protocol on the example inputs *)

Section ServerExamples.

Import smallrt examples.

Example bad_request_reply :
  server.handleConnection (rt true) healthy jan2 srv0 no_storage one_segment
    (Ok bad_request)
  = (srv0,
     {| server.written :=
          [server.line_of
             (server.error_json (rt true)
                "invalid start time: cannot parse as a time")];
        server.closed := true |}).
Proof. vm_compute. reflexivity. Qed.



Lemma one_segment_nothing_kept (name : string) :
  kept_records (rt true) healthy one_segment (jan1 + 10) jan2 name = [].
Proof.
  destruct (decide (name = "19723.jsonl")) as [-> | Hne].
  - vm_compute. reflexivity.
  - unfold kept_records, file_text, one_segment, world_of. simpl.
    rewrite lookup_insert_ne by done. by rewrite lookup_empty.
Qed.

Lemma GetMetrics_without_match_replies_null_witness :
  server.handleConnection (rt true) healthy jan2 srv0 no_storage one_segment
    (Ok empty_range_request)
  = (srv0,
     {| server.written := ["null" +:+ String newline ""];
        server.closed := true |}).
Proof.
  apply (GetMetrics_without_match_replies_null (rt true) healthy jan2 srv0
           no_storage one_segment empty_range_request
           "get" "metrics" "1704067200000000010" "1704153600000000000" []
           (jan1 + 10) jan2).
  - vm_compute. reflexivity.
  - vm_compute. reflexivity.
  - vm_compute. reflexivity.
  - vm_compute. reflexivity.
  - vm_compute. reflexivity.
  - reflexivity.
  - intros name day _ _. apply one_segment_nothing_kept.
Defined.

End ServerExamples.

(** * More properties of the storage *)

Section SweepComposition.

Variable rt : Runtime.

Lemma cleanupOldFiles_lookup (env : Env) (now : Time) (s : storage.Storage)
    (w : World) (name : string) (n : node) :
  fail_ReadDir env = false ->
  files w !! name = Some n ->
  files (storage.cleanupOldFiles rt env now s w) !! name
  = if storage.expired_entry rt (AddDate_days now (- storage.retention s))
         (name, n)
       && negb (fail_Remove env name)
    then None else Some n.
Proof.
  intros Hdir Hfile. unfold storage.cleanupOldFiles.
  destruct (os_ReadDir_ok env w Hdir) as (entries & -> & Hperm).
  set (cutoff := AddDate_days now (- storage.retention s)).
  assert ((name, n) ∈ entries) as Hin.
  { rewrite Hperm. by apply elem_of_map_to_list. }
  assert (forall n', (name, n') ∈ entries -> n' = n) as Huniq.
  { intros n' Hin'. rewrite Hperm in Hin'.
    apply elem_of_map_to_list in Hin'. congruence. }
  destruct (storage.expired_entry rt cutoff (name, n)) eqn:Hexp;
    [destruct (fail_Remove env name) eqn:Hrm |]; simpl.
  - rewrite cleanupLoop_keeps; [done |]. by intros.
  - by eapply cleanupLoop_removes.
  - rewrite cleanupLoop_keeps; [done |].
    intros n' Hin' Hexp'. rewrite (Huniq n' Hin') in Hexp'. congruence.
Qed.

Lemma cleanupOldFiles_absent (env : Env) (now : Time) (s : storage.Storage)
    (w : World) (name : string) :
  files w !! name = None ->
  files (storage.cleanupOldFiles rt env now s w) !! name = None.
Proof.
  intros Hnone. unfold storage.cleanupOldFiles.
  destruct (os_ReadDir env w); [| done]. by apply cleanupLoop_absent.
Qed.

Lemma cleanupOldFiles_no_listing (env : Env) (now : Time)
    (s : storage.Storage) (w : World) :
  fail_ReadDir env = true -> storage.cleanupOldFiles rt env now s w = w.
Proof.
  intros H. unfold storage.cleanupOldFiles, os_ReadDir. by rewrite H.
Qed.

(** X1. Whatever fails, the sweep only removes: every entry that is in the
    directory afterwards was there before, unchanged. And a sweep of a
    directory that was just swept, at the same instant and in the same
    environment, removes nothing more. *)
Theorem cleanupOldFiles_only_removes_and_settles (env : Env) (now : Time)
    (s : storage.Storage) (w : World) :
  files (storage.cleanupOldFiles rt env now s w) ⊆ files w
  /\ files (storage.cleanupOldFiles rt env now s
             (storage.cleanupOldFiles rt env now s w))
     = files (storage.cleanupOldFiles rt env now s w).
Proof.
  destruct (fail_ReadDir env) eqn:Hdir.
  { by rewrite !cleanupOldFiles_no_listing. }
  split.
  - apply map_subseteq_spec. intros name x Hx.
    destruct (files w !! name) as [n|] eqn:Hfile.
    + rewrite (cleanupOldFiles_lookup env now s w name n Hdir Hfile) in Hx.
      by destruct (_ && _).
    + by rewrite cleanupOldFiles_absent in Hx.
  - apply map_eq. intros name.
    destruct (files (storage.cleanupOldFiles rt env now s w) !! name)
      as [n|] eqn:Hafter; [| by apply cleanupOldFiles_absent].
    rewrite (cleanupOldFiles_lookup env now s _ name n Hdir Hafter).
    destruct (files w !! name) as [n'|] eqn:Hfile.
    + rewrite (cleanupOldFiles_lookup env now s w name n' Hdir Hfile) in Hafter.
      destruct (storage.expired_entry rt _ (name, n') && _) eqn:Hcond;
        [done |].
      injection Hafter as <-. by rewrite Hcond.
    + by rewrite cleanupOldFiles_absent in Hafter.
Qed.

End SweepComposition.

Section CompressorComposition.

Variable rt : Runtime.

Lemma os_Create_files (env : Env) (name : string) (w : World) :
  fail_Create env name = false ->
  files w !! name <> Some Dir ->
  exists w', os_Create env name w = (None, w')
    /\ files w' = <[name := File (created_ino name w) ""]> (files w).
Proof.
  intros Hcreate Hnodir. unfold os_Create, created_ino. simpl.
  rewrite Hcreate.
  destruct (files w !! name) as [[ig old|]|] eqn:Hgz; [| done |];
    eexists; (split; [reflexivity | done]).
Qed.

(** The directory after [compressFile], when the original is a regular
    file and the destination could be made. *)
Lemma compressFile_files (env : Env) (path : string) (w : World) (ino : nat)
    (data : string) :
  files w !! path = Some (File ino data) ->
  fail_Open env path = false ->
  fail_Create env (path +:+ ".gz") = false ->
  files w !! (path +:+ ".gz") <> Some Dir ->
  files (storage.compressFile rt env path w)
  = match fail_Copy env with
    | Some part =>
        <[path +:+ ".gz" := File (created_ino (path +:+ ".gz") w) part]>
          (files w)
    | None =>
        let out := match fail_Flush env with
                   | Some part => part
                   | None => gzip_Compress rt data
                   end in
        let made :=
          <[path +:+ ".gz" := File (created_ino (path +:+ ".gz") w) out]>
            (files w) in
        if fail_Remove env path then made else delete path made
    end.
Proof.
  intros Hsrc Hopen Hcreate Hnodir.
  unfold storage.compressFile. rewrite Hsrc, Hopen.
  destruct (os_Create_files env (path +:+ ".gz") (emit (SysOpen path) w)
              Hcreate Hnodir) as (w1 & -> & Hfiles).
  change (created_ino (path +:+ ".gz") (emit (SysOpen path) w))
    with (created_ino (path +:+ ".gz") w) in Hfiles.
  simpl in Hfiles.
  assert (forall out,
            files (put_data (path +:+ ".gz") out w1)
            = <[path +:+ ".gz" := File (created_ino (path +:+ ".gz") w) out]>
                (files w)) as Hput.
  { intros out.
    rewrite (proj1 (put_data_spec (path +:+ ".gz") out w1
                      (created_ino (path +:+ ".gz") w) ""
                      ltac:(rewrite Hfiles; apply lookup_insert_eq))).
    by rewrite Hfiles, insert_insert_eq. }
  destruct (fail_Copy env) as [part|]; [apply Hput |].
  cbv zeta. unfold os_Remove. simpl.
  destruct (fail_Remove env path); simpl; [apply Hput |].
  rewrite Hput, lookup_insert_ne by apply gz_name_ne.
  rewrite Hsrc. simpl. by rewrite Hput.
Qed.

(** X2. Running the compressor again. After a run that removed the
    original, a second run on the same path does nothing, whatever its
    environment. After a run whose copy broke, a later run that gets past
    its own copy leaves the directory exactly as it would have left the
    directory the first run found: the partial file is truncated and
    written again, and nothing of the broken run remains. *)
Theorem compressFile_again (env env' : Env) (path : string) (w : World)
    (ino : nat) (data : string) :
  files w !! path = Some (File ino data) ->
  fail_Open env path = false ->
  fail_Create env (path +:+ ".gz") = false ->
  files w !! (path +:+ ".gz") <> Some Dir ->
  (fail_Copy env = None -> fail_Remove env path = false ->
   storage.compressFile rt env' path (storage.compressFile rt env path w)
   = storage.compressFile rt env path w)
  /\ (is_Some (fail_Copy env) ->
      fail_Open env' path = false ->
      fail_Create env' (path +:+ ".gz") = false ->
      fail_Copy env' = None ->
      files (storage.compressFile rt env' path
               (storage.compressFile rt env path w))
      = files (storage.compressFile rt env' path w)).
Proof.
  intros Hsrc Hopen Hcreate Hnodir.
  pose proof (compressFile_files env path w ino data Hsrc Hopen Hcreate Hnodir)
    as Hfirst.
  split.
  - intros Hcopy Hrm. rewrite Hcopy, Hrm in Hfirst. simpl in Hfirst.
    assert (files (storage.compressFile rt env path w) !! path = None) as Hgone
      by (rewrite Hfirst; apply lookup_delete_eq).
    unfold storage.compressFile at 1. by rewrite Hgone.
  - intros [part Hcopy] Hopen' Hcreate' Hcopy'.
    rewrite Hcopy in Hfirst.
    set (w1 := storage.compressFile rt env path w) in *.
    assert (files w1 !! path = Some (File ino data)) as Hsrc1.
    { rewrite Hfirst, lookup_insert_ne; [done | apply gz_name_ne]. }
    assert (files w1 !! (path +:+ ".gz")
            = Some (File (created_ino (path +:+ ".gz") w) part)) as Hgz1
      by (rewrite Hfirst; apply lookup_insert_eq).
    assert (files w1 !! (path +:+ ".gz") <> Some Dir) as Hnodir1
      by (by rewrite Hgz1).
    rewrite (compressFile_files env' path w1 ino data Hsrc1 Hopen' Hcreate'
               Hnodir1).
    rewrite (compressFile_files env' path w ino data Hsrc Hopen' Hcreate'
               Hnodir).
    rewrite Hcopy'. simpl.
    assert (created_ino (path +:+ ".gz") w1 = created_ino (path +:+ ".gz") w)
      as -> by (unfold created_ino at 1; by rewrite Hgz1).
    rewrite Hfirst, insert_insert_eq. done.
Qed.

End CompressorComposition.

Section WriterComposition.

Variable rt : Runtime.

Lemma append_data_spawned (h : handle) (bytes : string) (w : World) :
  spawned (append_data h bytes w) = spawned w.
Proof. unfold append_data. by destruct (handle_data h w). Qed.

(** A write through a closed descriptor of the current day. *)
Lemma Write_closed_descriptor (env : Env) (now : Time) (sample : Sample)
    (s : storage.Storage) (w : World) (h : handle) :
  storage.currentFile s = Some h ->
  h_closed h = true ->
  time_Format rt now = storage.currentDay s ->
  exists e, storage.Write rt env now sample s w = (Some e, s, w).
Proof.
  intros Hcur Hclosed Hday. unfold storage.Write, storage.rotateIfNeeded.
  rewrite Hday, String.eqb_refl, Hcur, bool_decide_eq_true_2 by eauto.
  simpl.
  destruct (json_Marshal rt sample) as [data|m]; [| eauto].
  rewrite Hcur. unfold file_Write. rewrite Hclosed. eauto.
Qed.

(** X3. A rotation that fails to open the file of the new day has already
    closed the descriptor of the old day and started the compressor on the
    old segment. The storage keeps the closed descriptor and the old day:
    no directory entry changed, every later write of the old day fails and
    changes nothing, and the next rotation starts the compressor on the old
    segment once more. *)
Theorem failed_rotation_leaves_closed_descriptor (env : Env) (now : Time)
    (s s1 : storage.Storage) (w w1 : World) (h : handle) (e : string) :
  storage.currentFile s = Some h ->
  storage.rotateIfNeeded rt env now s w = (Some e, s1, w1) ->
  time_Format rt now <> storage.currentDay s
  /\ storage.currentFile s1 = Some (close_handle h)
  /\ storage.currentDay s1 = storage.currentDay s
  /\ files w1 = files w
  /\ spawned w1
     = spawned w ++ [GoCompressFile (storage.segment_name (storage.currentDay s))]
  /\ (forall env' now' sample,
        time_Format rt now' = storage.currentDay s ->
        exists e', storage.Write rt env' now' sample s1 w1 = (Some e', s1, w1))
  /\ (forall env' now',
        time_Format rt now' <> storage.currentDay s ->
        spawned (storage.rotateIfNeeded rt env' now' s1 w1).2
        = spawned w
            ++ [GoCompressFile (storage.segment_name (storage.currentDay s));
                GoCompressFile (storage.segment_name (storage.currentDay s))]).
Proof.
  intros Hcur Hrot. unfold storage.rotateIfNeeded in Hrot.
  rewrite Hcur in Hrot.
  destruct (String.eqb (time_Format rt now) (storage.currentDay s)) eqn:Hday.
  { rewrite bool_decide_eq_true_2 in Hrot by eauto. done. }
  apply String.eqb_neq in Hday. simpl in Hrot.
  unfold os_OpenFile_append in Hrot. simpl in Hrot.
  assert (s1 = {| storage.currentFile := Some (close_handle h);
                  storage.currentDay := storage.currentDay s;
                  storage.retention := storage.retention s |}
          /\ files w1 = files w
          /\ spawned w1
             = spawned w
                 ++ [GoCompressFile
                       (storage.segment_name (storage.currentDay s))])
    as (-> & Hfiles & Hspawned).
  { destruct (fail_OpenFile env _).
    - injection Hrot as <- <- <-. by destruct (h_closed h).
    - destruct (files _ !! _) as [[ino data|]|] eqn:Hfile; [done | | done].
      injection Hrot as <- <- <-. by destruct (h_closed h). }
  repeat split; try done.
  - intros env' now' sample Hsame.
    by apply (Write_closed_descriptor env' now' sample _ w1 (close_handle h)).
  - intros env' now' Hother. unfold storage.rotateIfNeeded. simpl.
    apply String.eqb_neq in Hother. rewrite Hother. simpl.
    unfold os_OpenFile_append. simpl.
    destruct (fail_OpenFile env' _); simpl;
      [by rewrite Hspawned, <- app_assoc |].
    destruct (files w1 !! _) as [[ino data|]|]; simpl;
      by rewrite Hspawned, <- app_assoc.
Qed.

(** X4. Use after [Close]. Closing a storage whose descriptor is open
    succeeds and changes no file; after it a write on the same day returns
    an error and changes neither the storage nor the directory nor the
    calls made, and closing again returns an error. *)
Theorem Write_after_Close_fails (s : storage.Storage) (w : World)
    (h : handle) :
  storage.currentFile s = Some h ->
  h_closed h = false ->
  exists s' w',
    Storage_Close s w = (None, s', w')
    /\ files w' = files w
    /\ (forall env now sample,
          time_Format rt now = storage.currentDay s ->
          exists e, storage.Write rt env now sample s' w' = (Some e, s', w'))
    /\ (Storage_Close s' w').1.1 <> None.
Proof.
  intros Hcur Hopen. unfold Storage_Close at 1. rewrite Hcur, Hopen.
  eexists _, _. split; [reflexivity |]. split; [done |]. split.
  - intros env now sample Hday.
    by apply (Write_closed_descriptor env now sample _ _ (close_handle h)).
  - done.
Qed.

Lemma rotateIfNeeded_spawned (env : Env) (now : Time)
    (s s' : storage.Storage) (w w' : World) (h : handle) :
  storage.currentFile s = Some h ->
  storage.rotateIfNeeded rt env now s w = (None, s', w') ->
  storage.currentDay s' = time_Format rt now
  /\ is_Some (storage.currentFile s')
  /\ spawned w'
     = spawned w
         ++ (if String.eqb (time_Format rt now) (storage.currentDay s)
             then [] else [compress_task (storage.currentDay s)]).
Proof.
  intros Hcur. unfold storage.rotateIfNeeded. rewrite Hcur.
  rewrite bool_decide_eq_true_2, andb_true_r by eauto.
  destruct (String.eqb (time_Format rt now) (storage.currentDay s)) eqn:Hday.
  - intros [= <- <-]. apply String.eqb_eq in Hday.
    rewrite app_nil_r, Hcur. eauto.
  - unfold os_OpenFile_append. simpl.
    destruct (fail_OpenFile env _); [done |].
    destruct (files _ !! _) as [[ino data|]|]; [| done |];
      intros [= <- <-]; simpl; (split; [done |]); (split; [eauto |]);
      by destruct (h_closed h).
Qed.

Lemma Write_spawned (env : Env) (now : Time) (sample : Sample)
    (s s' : storage.Storage) (w w' : World) (h : handle) :
  storage.currentFile s = Some h ->
  storage.Write rt env now sample s w = (None, s', w') ->
  storage.currentDay s' = time_Format rt now
  /\ is_Some (storage.currentFile s')
  /\ spawned w'
     = spawned w
         ++ (if String.eqb (time_Format rt now) (storage.currentDay s)
             then [] else [compress_task (storage.currentDay s)]).
Proof.
  intros Hcur. unfold storage.Write.
  destruct (storage.rotateIfNeeded rt env now s w) as [[[m|] s1] w1] eqn:Hrot;
    [done |].
  apply (rotateIfNeeded_spawned env now s s1 w w1 h Hcur) in Hrot
    as (Hday & Hsome & Hspawned).
  destruct (json_Marshal rt sample) as [data|m]; [| done].
  destruct (storage.currentFile s1) as [h1|] eqn:Hcur1; [| done].
  unfold file_Write, file_Sync.
  destruct (h_closed h1); [done |].
  destruct (h_access h1); [done | |];
    (destruct (fail_Write env); [done |]);
    (destruct (fail_Sync env); intros [= <- <-]); simpl;
    rewrite append_data_spawned; rewrite Hcur1; eauto.
Qed.

Lemma run_writes_spawned (ticks : list (Env * Time * Sample))
    (s s' : storage.Storage) (w w' : World) :
  is_Some (storage.currentFile s) ->
  run_writes rt ticks s w = Some (s', w') ->
  spawned w'
  = spawned w
      ++ (compress_task
            <$> days_left (storage.currentDay s)
                  (time_Format rt ∘ tick_time <$> ticks)).
Proof.
  revert s w. induction ticks as [|[[env now] sample] rest IH];
    intros s w [h Hcur]; simpl.
  - intros [= <- <-]. by rewrite app_nil_r.
  - destruct (storage.Write rt env now sample s w) as [[[m|] s1] w1] eqn:Hw;
      [done |].
    apply (Write_spawned env now sample s s1 w w1 h Hcur) in Hw
      as (Hday & Hsome & Hspawned).
    intros Hrun. rewrite (IH s1 w1 Hsome Hrun), Hspawned, Hday.
    unfold tick_time at 2. simpl.
    destruct (String.eqb (time_Format rt now) (storage.currentDay s)) eqn:Heq.
    + apply String.eqb_eq in Heq. by rewrite Heq, app_nil_r.
    + by rewrite <- app_assoc.
Qed.

(** X5. The background tasks a run of the writer starts. Making the storage
    starts the retention sweep, once; after it each write that finds the
    day changed starts the compressor on the segment of the day it leaves,
    and nothing else is ever started: the tasks started are the sweep
    followed by one compression per change of day, in the order of the
    changes. *)
Theorem writer_starts_one_compression_per_day_left (env0 : Env) (t0 : Time)
    (retentionDays : Z) (ticks : list (Env * Time * Sample))
    (s0 s : storage.Storage) (w0 w1 w : World) :
  storage.NewStorage rt env0 t0 retentionDays w0 = (Ok s0, w1) ->
  run_writes rt ticks s0 w1 = Some (s, w) ->
  spawned w
  = spawned w0
      ++ GoCleanupOldFiles
         :: (compress_task
               <$> days_left (time_Format rt t0)
                     (time_Format rt ∘ tick_time <$> ticks)).
Proof.
  unfold storage.NewStorage. destruct (fail_MkdirAll env0); [done |].
  set (s_new := {| storage.currentFile := None; storage.currentDay := "";
                   storage.retention := retentionDays |}).
  destruct (storage.rotateIfNeeded rt env0 t0 s_new w0) as [[[m|] s1] w'] eqn:Hrot;
    [done |].
  intros [= <- <-] Hrun.
  assert (storage.currentDay s1 = time_Format rt t0
          /\ is_Some (storage.currentFile s1)
          /\ spawned w' = spawned w0) as (Hday & Hsome & Hspawned).
  { revert Hrot. unfold storage.rotateIfNeeded. simpl.
    rewrite andb_false_r. unfold os_OpenFile_append. simpl.
    destruct (fail_OpenFile env0 _); [done |].
    destruct (files w0 !! _) as [[ino data|]|]; [| done |];
      intros [= <- <-]; simpl; eauto. }
  rewrite (run_writes_spawned ticks s1 s (spawn GoCleanupOldFiles w') w
             Hsome Hrun).
  simpl. rewrite Hspawned, Hday, <- app_assoc. done.
Qed.

End WriterComposition.

(** * More properties of the server and of the collection loop *)

Section ServerComposition.

Variable rt : Runtime.

(** X6. One connection, one reply. Whatever the request and whatever fails
    behind it, [handleConnection] closes the connection; it writes nothing
    when no complete line arrived, and otherwise it writes exactly once, a
    text that ends with a newline. It never changes the server's state
    except for the uptime it stores when it answers. *)
Theorem handleConnection_replies_once (env : Env) (now : Time)
    (srv : server.Server) (s : storage.Storage) (w : World)
    (received : result string) :
  let r := server.handleConnection rt env now srv s w received in
  server.closed r.2 = true
  /\ match received with
     | Err _ => server.written r.2 = [] /\ r.1 = srv
     | Ok _ => exists body, server.written r.2 = [server.line_of body]
     end
  /\ server.startTime r.1 = server.startTime srv
  /\ Running (server.status r.1) = Running (server.status srv)
  /\ CollectionCount (server.status r.1) = CollectionCount (server.status srv)
  /\ LastCollectionTime (server.status r.1)
     = LastCollectionTime (server.status srv)
  /\ ErrorCount (server.status r.1) = ErrorCount (server.status srv)
  /\ Version (server.status r.1) = Version (server.status srv).
Proof.
  unfold server.handleConnection.
  destruct received as [line|e]; [| done].
  destruct (strings_Fields rt (strings_TrimSpace rt line)) as [|verb args].
  { simpl. repeat split; try done. by eexists. }
  destruct (String.eqb (strings_ToUpper rt verb) "GET");
    [| simpl; repeat split; try done; by eexists].
  unfold server.handleGet.
  destruct args as [|sub args];
    [simpl; repeat split; try done; by eexists |].
  destruct (String.eqb (strings_ToLower rt sub) "status").
  { unfold server.handleGetStatus.
    destruct (json_MarshalStatus rt _); simpl; repeat split; try done;
      by eexists. }
  destruct (String.eqb (strings_ToLower rt sub) "current").
  { unfold server.handleGetCurrent.
    destruct (storage.GetCurrent rt env s w) as [[sample|]|e];
      [destruct (json_Marshal rt sample) | |];
      simpl; repeat split; try done; by eexists. }
  destruct (String.eqb (strings_ToLower rt sub) "metrics").
  { unfold server.handleGetMetrics.
    destruct args as [|arg0 [|arg1 more]];
      [simpl; repeat split; try done; by eexists ..|].
    destruct (time_ParseRFC3339 rt arg0) as [startTime|e];
      [| simpl; repeat split; try done; by eexists].
    destruct (time_ParseRFC3339 rt arg1) as [endTime|e];
      [| simpl; repeat split; try done; by eexists].
    destruct (storage.Query rt env startTime endTime w) as [samples|e];
      [| simpl; repeat split; try done; by eexists].
    destruct (server.json_MarshalSamples rt samples);
      simpl; repeat split; try done; by eexists. }
  destruct (String.eqb (strings_ToLower rt sub) "config");
    simpl; repeat split; try done; by eexists.
Qed.

(** X7. [GET CURRENT] never delivers a sample. For a storage made by
    [NewStorage] and written to with success any number of times, the
    request is answered with the error line of a failed [GetCurrent],
    whatever the directory holds and whatever the environment. *)
Theorem GET_CURRENT_is_answered_with_an_error (env0 env : Env) (t0 now : Time)
    (retentionDays : Z) (w0 w1 w w' : World) (s0 s : storage.Storage)
    (ticks : list (Env * Time * Sample)) (srv : server.Server)
    (line verb sub : string) (args : list string) :
  storage.NewStorage rt env0 t0 retentionDays w0 = (Ok s0, w1) ->
  run_writes rt ticks s0 w1 = Some (s, w) ->
  strings_Fields rt (strings_TrimSpace rt line) = verb :: sub :: args ->
  strings_ToUpper rt verb = "GET" ->
  strings_ToLower rt sub = "current" ->
  exists e,
    server.handleConnection rt env now srv s w' (Ok line)
    = (srv,
       {| server.written :=
            [server.line_of
               (server.error_json rt ("failed to get current sample: " +:+ e))];
          server.closed := true |}).
Proof.
  intros Hnew Hrun Hparts Hverb Hsub.
  assert (from_rotation s) as Hs.
  { eapply run_writes_from_rotation; [| done].
    by eapply NewStorage_from_rotation. }
  destruct (GetCurrent_never_answers rt env s w' Hs) as [e He].
  exists e. unfold server.handleConnection. rewrite Hparts, Hverb. simpl.
  unfold server.handleGet. rewrite Hsub. simpl.
  unfold server.handleGetCurrent. by rewrite He.
Qed.

End ServerComposition.

Section LoopTheorems.

Variable rt : Runtime.

Lemma int64_small (z : Z) : - 2 ^ 63 <= z < 2 ^ 63 -> main.int64 z = z.
Proof. intros H. unfold main.int64. rewrite Z.mod_small; lia. Qed.

Lemma run_ticks_snoc (ticks : list (Env * Time * option Sample))
    (tick : Env * Time * option Sample) (l : main.Loop) :
  main.run_ticks rt (ticks ++ [tick]) l
  = main.collectAndStore rt tick.1.1 tick.1.2 tick.2 (main.run_ticks rt ticks l).
Proof.
  revert l. induction ticks as [|[[env now] c] rest IH]; intros l; simpl.
  - by destruct tick as [[env now] c].
  - apply IH.
Qed.

(** The counters after a run, and what the server was told. *)
Lemma run_ticks_counters (ticks : list (Env * Time * option Sample))
    (srv0 : server.Server) (s : storage.Storage) (w : World) :
  CollectionCount (server.status srv0) = 0 ->
  ErrorCount (server.status srv0) = 0 ->
  Z.of_nat (length ticks) < 2 ^ 63 ->
  let l := main.run_ticks rt ticks (main.start srv0 s w) in
  0 <= main.collectionCount l
  /\ 0 <= main.errorCount l
  /\ main.collectionCount l + main.errorCount l = Z.of_nat (length ticks)
  /\ CollectionCount (server.status (main.srv l)) = main.collectionCount l
  /\ 0 <= ErrorCount (server.status (main.srv l)) <= main.errorCount l.
Proof.
  intros Hc He. induction ticks as [|tick ticks IH] using rev_ind.
  { intros _. simpl. lia. }
  rewrite length_app. simpl. intros Hlen.
  rewrite run_ticks_snoc.
  destruct IH as (Hc1 & He1 & Hsum & Hrep & Hlag); [lia |].
  set (l := main.run_ticks rt ticks (main.start srv0 s w)) in *.
  unfold main.collectAndStore.
  destruct tick.2 as [sample|].
  - destruct (storage.Write rt _ _ sample _ _) as [[[m|] s1] w1]; simpl;
      rewrite int64_small by lia; lia.
  - simpl. rewrite int64_small by lia. lia.
Qed.

(** X8. The counters of the collection loop and the status the server
    reports. Every call of [collectAndStore] raises exactly one of the two
    counters by one: the collections when the sample was stored, the errors
    when the collector panicked or the write failed. The server is told
    only after a stored sample: then it reports both counters as they are,
    and the sample's timestamp; after a tick that failed it still reports
    what it was told before, so its error count is behind the loop's. *)
Theorem collectAndStore_counts_and_reports
    (ticks : list (Env * Time * option Sample))
    (tick : Env * Time * option Sample)
    (srv0 : server.Server) (s : storage.Storage) (w : World) :
  CollectionCount (server.status srv0) = 0 ->
  ErrorCount (server.status srv0) = 0 ->
  Z.of_nat (length ticks) + 1 < 2 ^ 63 ->
  let l1 := main.run_ticks rt ticks (main.start srv0 s w) in
  let l2 := main.run_ticks rt (ticks ++ [tick]) (main.start srv0 s w) in
  main.collectionCount l1 + main.errorCount l1 = Z.of_nat (length ticks)
  /\ 0 <= main.collectionCount l1
  /\ 0 <= main.errorCount l1
  /\ if main.stored rt tick l1
     then main.collectionCount l2 = main.collectionCount l1 + 1
          /\ main.errorCount l2 = main.errorCount l1
          /\ CollectionCount (server.status (main.srv l2))
             = main.collectionCount l2
          /\ ErrorCount (server.status (main.srv l2)) = main.errorCount l2
          /\ (exists sample,
                tick.2 = Some sample
                /\ LastCollectionTime (server.status (main.srv l2))
                   = Timestamp sample)
     else main.collectionCount l2 = main.collectionCount l1
          /\ main.errorCount l2 = main.errorCount l1 + 1
          /\ main.srv l2 = main.srv l1
          /\ ErrorCount (server.status (main.srv l2)) < main.errorCount l2.
Proof.
  intros Hc He Hlen l1 l2.
  destruct (run_ticks_counters ticks srv0 s w Hc He ltac:(lia))
    as (Hc1 & He1 & Hsum & Hrep & Hlag).
  fold l1 in Hc1, He1, Hsum, Hrep, Hlag.
  repeat (split; [done |]).
  subst l2. rewrite run_ticks_snoc. fold l1.
  unfold main.stored, main.collectAndStore.
  destruct tick.2 as [sample|].
  - destruct (storage.Write rt _ _ sample _ _) as [[[m|] s1] w1]; simpl;
      rewrite int64_small by lia.
    + repeat split; try done; lia.
    + repeat split; try done. by exists sample.
  - simpl. rewrite int64_small by lia. repeat split; try done; lia.
Qed.

End LoopTheorems.

(** * Properties of the Tor collector *)

Section TorTheorems.

Variable rt : Runtime.

Lemma prefix_app (a b s : string) :
  String.prefix (a +:+ b) s = true -> String.prefix a s = true.
Proof.
  revert s. induction a as [|c a IH]; intros s; [by destruct s |].
  rewrite app_cons. destruct s as [|c' s]; cbn [String.prefix]; [done |].
  destruct (ascii_dec c c'); [apply IH | done].
Qed.

Lemma HasPrefix_250_OK (l : string) :
  strings_HasPrefix l "250 OK" = true -> strings_HasPrefix l "250" = true.
Proof. apply (prefix_app "250" " OK"). Qed.

Lemma count_established_all (circuits : list string) (count : Z) :
  Forall (fun c => strings_Contains c "BUILT" = true) circuits ->
  collector.count_established circuits count
  = count + Z.of_nat (length circuits).
Proof.
  intros H. revert count. induction H as [|c l Hc _ IH]; intros count.
  - simpl. lia.
  - cbn [collector.count_established length]. rewrite Hc, IH. lia.
Qed.

(** Every line [getCircuits] hands back passed both of its tests. *)
Lemma getCircuits_loop_built (lines rest : list string)
    (acc circuits : slice string) :
  Forall (fun c => strings_Contains c "BUILT" = true) (slice_elems acc) ->
  collector.getCircuits_loop rt lines acc = Some (circuits, rest) ->
  Forall (fun c => strings_Contains c "BUILT" = true) (slice_elems circuits).
Proof.
  revert acc. induction lines as [|raw lines IH]; intros acc Hacc; [done |].
  cbn [collector.getCircuits_loop].
  set (line := strings_TrimSpace rt raw).
  destruct (strings_HasPrefix line "250 OK"); [by intros [= <- _] |].
  destruct (_ || _); [by apply IH |].
  destruct (_ || _); [by intros [= <- _] |].
  destruct (strings_HasPrefix line "250"); simpl; [| by apply IH].
  destruct (strings_Contains line "BUILT") eqn:Hbuilt; [| by apply IH].
  apply IH. simpl. apply Forall_app. split; [done |]. by constructor.
Qed.

(** X9. The Tor section of a sample. When the Tor collector is enabled the
    sample always has a Tor section, because [TorCollector.Collect] never
    returns an error: when nothing answers on the control port the section
    says so and every number in it is zero. In every section the number of
    established circuits is the number of circuits, and both bandwidth
    figures are zero. *)
Theorem Tor_section_is_always_present (cfg : config.Config) (now : Time)
    (system : result SystemMetrics) (bitcoin : result BitcoinMetrics)
    (dialed : option collector.Control) (cookie : result string)
    (startTime authTime : Time) :
  config.Tor_Enabled (config.Tor cfg) = true ->
  exists m,
    Tor (collector.Collect cfg now system bitcoin
           (collector.Tor_Collect rt dialed cookie startTime authTime))
    = Some m
    /\ ControlReachable m = bool_decide (is_Some dialed)
    /\ (dialed = None -> m = collector.no_metrics)
    /\ EstablishedCount m = CircuitCount m
    /\ 0 <= CircuitCount m
    /\ BandwidthReadBPS m = 0
    /\ BandwidthWriteBPS m = 0.
Proof.
  intros Henabled. unfold collector.Collect. rewrite Henabled. simpl.
  unfold collector.Tor_Collect.
  destruct dialed as [c|]; [| exists collector.no_metrics; by repeat split].
  rewrite bool_decide_eq_true_2 by eauto.
  destruct (collector.authenticate cookie c) as [[e|] c1].
  { eexists. split; [reflexivity |]. by repeat split. }
  unfold collector.getCircuits.
  destruct (collector.getCircuits_loop rt _ nil_slice) as [[circuits rest]|]
    eqn:Hloop; simpl;
    try match goal with
        | |- context [collector.getOnionServices rt ?c2] =>
            destruct (collector.getOnionServices rt c2) as [onions c3]
        end;
    eexists; (split; [reflexivity |]); simpl; repeat split; try done;
    try lia.
  apply getCircuits_loop_built in Hloop; [| by constructor].
  rewrite (count_established_all _ 0 Hloop). lia.
Qed.

Lemma prefix_app_self (a b : string) : String.prefix a (a +:+ b) = true.
Proof.
  induction a as [|c a IH]; [by destruct b |].
  rewrite app_cons. cbn [String.prefix]. by destruct (ascii_dec c c).
Qed.

Lemma not_HasPrefix_250 (l rest : string) :
  strings_HasPrefix l "250" = false ->
  strings_HasPrefix l ("250" +:+ rest) = false.
Proof.
  intros H. destruct (strings_HasPrefix l ("250" +:+ rest)) eqn:Hp; [| done].
  apply prefix_app in Hp. unfold strings_HasPrefix in H. congruence.
Qed.

(** A line of one of the two list forms is not the closing line. *)
Lemma list_line_not_OK (l : string) (sign : Ascii.ascii) (key : string) :
  sign <> " "%char ->
  strings_HasPrefix l ("250" +:+ String sign key) = true ->
  strings_HasPrefix l "250 OK" = false.
Proof.
  intros Hsign. unfold strings_HasPrefix.
  rewrite !app_cons, app_empty_l.
  destruct l as [|c1 [|c2 [|c3 [|c4 l]]]]; cbn [String.prefix];
    repeat match goal with
           | |- context [ascii_dec ?a ?b] =>
               destruct (ascii_dec a b) as [<- |]
           end;
    done.
Qed.

Lemma Split_before (s : string) (c : Ascii.ascii) :
  exists pieces, strings_Split s c = before_byte c s :: pieces.
Proof.
  induction s as [|a s [pieces IH]]; simpl; [by eexists |].
  destruct (Ascii.eqb a c); [by eexists |]. rewrite IH. by eexists.
Qed.

Lemma length_Split (s : string) (c : Ascii.ascii) :
  length (strings_Split s c) = S (count_byte c s).
Proof.
  induction s as [|a s IH]; simpl; [done |].
  destruct (Ascii.eqb a c); simpl; [by rewrite IH |].
  destruct (Split_before s c) as [pieces Hs]. rewrite Hs in IH |- *. done.
Qed.

Lemma Split_at_first (a b : string) (c : Ascii.ascii) :
  count_byte c a = 0%nat ->
  strings_Split (a +:+ String c b) c = a :: strings_Split b c.
Proof.
  induction a as [|x a IH]; simpl.
  - intros _. by rewrite Ascii.eqb_refl.
  - destruct (Ascii.eqb x c); [done |]. intros H. by rewrite (IH H).
Qed.

(** What the list line leaves in the counter. *)
Lemma onions_of_list_line (key payload : string) :
  count_byte "=" key = 0%nat ->
  match strings_Split ((key +:+ "=") +:+ payload) "="%char with
  | _ :: part1 :: _ => Z.of_nat (length (strings_Split part1 ","%char))
  | _ => 0
  end
  = Z.of_nat (S (count_byte "," (before_byte "=" payload))).
Proof.
  intros Hkey.
  rewrite string_app_assoc, app_cons, app_empty_l.
  rewrite (Split_at_first key payload "=" Hkey).
  destruct (Split_before payload "=") as [pieces ->].
  by rewrite length_Split.
Qed.

Lemma getOnionServices_loop_skips (more : list string) (stop : string)
    (rest : list string) (count : Z) :
  Forall (fun raw =>
            strings_HasPrefix (strings_TrimSpace rt raw) "250 OK" = false
            /\ onion_list_line (strings_TrimSpace rt raw) = false
            /\ strings_TrimSpace rt raw <> ".") more ->
  strings_HasPrefix (strings_TrimSpace rt stop) "250 OK" = true
  \/ strings_TrimSpace rt stop = "." ->
  collector.getOnionServices_loop rt (more ++ stop :: rest) count
  = Some (count, rest).
Proof.
  intros Hmore Hstop.
  induction Hmore as [|raw more (Hok & Hlist & Hdot) _ IH].
  - cbn [app collector.getOnionServices_loop].
    destruct Hstop as [-> | ->]; [done |]. by vm_compute.
  - cbn [app collector.getOnionServices_loop].
    unfold onion_list_line in Hlist. rewrite Hok, Hlist.
    apply String.eqb_neq in Hdot. by rewrite Hdot.
Qed.

(** X10. The number of onion services is the number of pieces of the list
    line, not the number of services. When the reply to
    [GETINFO onions/current] starts with a list line, the count is one more
    than the number of commas in what follows the key up to the next equals
    sign, whatever the lines after it say, up to the closing line: a reply
    with an empty list counts as one service. *)
Theorem getOnionServices_counts_pieces (c : collector.Control)
    (raw stop payload : string) (more rest : list string) (multi : bool) :
  collector.pending c = raw :: more ++ stop :: rest ->
  strings_TrimSpace rt raw
  = ((if multi then "250+onions/current" else "250-onions/current") +:+ "=")
      +:+ payload ->
  Forall (fun raw =>
            strings_HasPrefix (strings_TrimSpace rt raw) "250 OK" = false
            /\ onion_list_line (strings_TrimSpace rt raw) = false
            /\ strings_TrimSpace rt raw <> ".") more ->
  strings_HasPrefix (strings_TrimSpace rt stop) "250 OK" = true
  \/ strings_TrimSpace rt stop = "." ->
  (collector.getOnionServices rt c).1
  = Ok (Z.of_nat (S (count_byte "," (before_byte "=" payload))))
  /\ collector.pending (collector.getOnionServices rt c).2 = rest
  /\ 1 <= Z.of_nat (S (count_byte "," (before_byte "=" payload))).
Proof.
  intros Hpending Hraw Hmore Hstop.
  unfold collector.getOnionServices. simpl. rewrite Hpending.
  cbn [collector.getOnionServices_loop]. rewrite Hraw.
  set (key := if multi then "250+onions/current" else "250-onions/current").
  assert (strings_HasPrefix ((key +:+ "=") +:+ payload) "250 OK" = false
          /\ onion_list_line ((key +:+ "=") +:+ payload) = true
          /\ String.eqb ((key +:+ "=") +:+ payload) "." = false
          /\ count_byte "=" key = 0%nat) as (Hok & Hlist & Hdot & Hkey).
  { unfold onion_list_line, strings_HasPrefix.
    destruct multi; subst key;
      [change ("250+onions/current" +:+ "=") with "250+onions/current="
      |change ("250-onions/current" +:+ "=") with "250-onions/current="];
      (split; [| split; [| split; [| done]]]).
    - by rewrite !app_cons.
    - rewrite (prefix_app_self "250+onions/current=" payload).
      apply orb_true_r.
    - by rewrite !app_cons.
    - by rewrite !app_cons.
    - by rewrite (prefix_app_self "250-onions/current=" payload).
    - by rewrite !app_cons. }
  unfold onion_list_line in Hlist. rewrite Hok, Hlist, Hdot.
  rewrite (onions_of_list_line key payload Hkey).
  rewrite (getOnionServices_loop_skips more stop rest _ Hmore Hstop).
  simpl. repeat split. lia.
Qed.

Lemma getCircuits_loop_skips (data : list string) (dot : string)
    (tail : list string) (acc : slice string) :
  Forall (fun raw =>
            strings_TrimSpace rt raw <> "."
            /\ (circuit_list_line (strings_TrimSpace rt raw) = true
                \/ strings_HasPrefix (strings_TrimSpace rt raw) "250" = false))
         data ->
  strings_TrimSpace rt dot = "." ->
  collector.getCircuits_loop rt (data ++ dot :: tail) acc = Some (acc, tail).
Proof.
  intros Hdata Hdot.
  induction Hdata as [|raw data (Hnodot & Hline) _ IH];
    cbn [app collector.getCircuits_loop].
  { rewrite Hdot. by vm_compute. }
  set (line := strings_TrimSpace rt raw) in *.
  apply String.eqb_neq in Hnodot.
  destruct Hline as [Hlist | Hno].
  - assert (strings_HasPrefix line "250 OK" = false) as ->.
    { unfold circuit_list_line in Hlist.
      apply orb_true_iff in Hlist as [H | H];
        by eapply (list_line_not_OK line _ "circuit-status="); [| exact H]. }
    unfold circuit_list_line in Hlist. by rewrite Hlist.
  - assert (strings_HasPrefix line "250 OK" = false) as ->
      by exact (not_HasPrefix_250 line " OK" Hno).
    assert (strings_HasPrefix line "250-circuit-status=" = false) as ->
      by exact (not_HasPrefix_250 line "-circuit-status=" Hno).
    assert (strings_HasPrefix line "250+circuit-status=" = false) as ->
      by exact (not_HasPrefix_250 line "+circuit-status=" Hno).
    rewrite Hnodot, Hno. simpl.
    destruct (String.eqb line "250 OK") eqn:Heq; [| done].
    apply String.eqb_eq in Heq. by rewrite Heq in Hno.
Qed.

(** X11. A circuit list in the multi-line form. When the reply to
    [GETINFO circuit-status] is a run of lines that are either list
    headers or do not start with [250], closed by a line with a single dot
    and then a line [250 OK], the collector counts no circuit at all; it
    stops reading at the dot, so the request for the onion services finds
    the left-over [250 OK] first and reports zero services, whatever the
    reply to it says. *)
Theorem multi_line_circuit_reply_counts_nothing (c : collector.Control)
    (cookie auth dot ok : string) (data rest : list string)
    (startTime authTime : Time) :
  collector.pending c = auth :: data ++ dot :: ok :: rest ->
  strings_HasPrefix auth "250" = true ->
  Forall (fun raw =>
            strings_TrimSpace rt raw <> "."
            /\ (circuit_list_line (strings_TrimSpace rt raw) = true
                \/ strings_HasPrefix (strings_TrimSpace rt raw) "250" = false))
         data ->
  strings_TrimSpace rt dot = "." ->
  strings_HasPrefix (strings_TrimSpace rt ok) "250 OK" = true ->
  collector.Tor_Collect rt (Some c) (Ok cookie) startTime authTime
  = ({| ControlReachable := true; CircuitCount := 0; EstablishedCount := 0;
        BandwidthReadBPS := 0; BandwidthWriteBPS := 0; OnionServices := 0;
        ControlLatencyMs := Z.quot (authTime - startTime) 1000000 |}, None).
Proof.
  intros Hpending Hauth Hdata Hdot Hok.
  unfold collector.Tor_Collect, collector.authenticate, collector.ReadString.
  simpl. rewrite Hpending, Hauth. simpl.
  unfold collector.getCircuits. simpl.
  rewrite (getCircuits_loop_skips data dot (ok :: rest) nil_slice Hdata Hdot).
  simpl. unfold collector.getOnionServices. simpl. by rewrite Hok.
Qed.

End TorTheorems.

(** * Properties of the configuration *)

Section ConfigTheorems.

Variable json_Unmarshal : string -> config.Config -> result config.Config.
Variable json_MarshalIndent : config.Config -> result string.

Ltac cfg_fields :=
  cbn [config.Bitcoin config.Tor config.System config.CLIPath config.User
       config.Bitcoin_TimeoutSeconds config.ControlPort
       config.Tor_TimeoutSeconds config.set_Bitcoin config.set_Tor
       config.CollectionIntervalSeconds config.RetentionDays config.DataDir
       config.SocketPath config.Bitcoin_Enabled config.Bitcoin_DataDir
       config.Tor_Enabled config.CookiePath].

(** What the defaults do, field by field. *)
Lemma apply_defaults_unfold (cfg : config.Config) :
  config.apply_defaults cfg
  = {| config.CollectionIntervalSeconds := config.CollectionIntervalSeconds cfg;
       config.RetentionDays := config.RetentionDays cfg;
       config.DataDir := config.DataDir cfg;
       config.SocketPath := config.SocketPath cfg;
       config.Bitcoin :=
         {| config.Bitcoin_Enabled := config.Bitcoin_Enabled (config.Bitcoin cfg);
            config.CLIPath :=
              if String.eqb (config.CLIPath (config.Bitcoin cfg)) ""
              then "/usr/local/bin/bitcoin-cli"
              else config.CLIPath (config.Bitcoin cfg);
            config.Bitcoin_DataDir := config.Bitcoin_DataDir (config.Bitcoin cfg);
            config.User :=
              if String.eqb (config.User (config.Bitcoin cfg)) ""
              then "bitcoin" else config.User (config.Bitcoin cfg);
            config.Bitcoin_TimeoutSeconds :=
              if config.Bitcoin_TimeoutSeconds (config.Bitcoin cfg) =? 0
              then 10
              else config.Bitcoin_TimeoutSeconds (config.Bitcoin cfg) |};
       config.Tor :=
         {| config.Tor_Enabled := config.Tor_Enabled (config.Tor cfg);
            config.ControlPort :=
              if config.ControlPort (config.Tor cfg) =? 0
              then 9051 else config.ControlPort (config.Tor cfg);
            config.CookiePath := config.CookiePath (config.Tor cfg);
            config.Tor_TimeoutSeconds :=
              if config.Tor_TimeoutSeconds (config.Tor cfg) =? 0
              then 10 else config.Tor_TimeoutSeconds (config.Tor cfg) |};
       config.System := config.System cfg |}.
Proof.
  destruct cfg as [interval days dir sock [be cli bdir user bt]
                     [te port cookie tt] sys].
  unfold config.apply_defaults. cbv zeta. cfg_fields.
  destruct (String.eqb cli ""); cfg_fields;
    destruct (String.eqb user ""); cfg_fields;
    destruct (bt =? 0); cfg_fields;
    destruct (port =? 0); cfg_fields;
    destruct (tt =? 0); reflexivity.
Qed.

Lemma apply_defaults_critical (cfg : config.Config) :
  config.critical_set (config.apply_defaults cfg).
Proof.
  rewrite apply_defaults_unfold. unfold config.critical_set. cfg_fields.
  repeat split.
  - destruct (String.eqb _ "") eqn:H; [discriminate | by apply String.eqb_neq].
  - destruct (String.eqb _ "") eqn:H; [discriminate | by apply String.eqb_neq].
  - destruct (_ =? 0) eqn:H; [discriminate | by apply Z.eqb_neq].
  - destruct (_ =? 0) eqn:H; [discriminate | by apply Z.eqb_neq].
  - destruct (_ =? 0) eqn:H; [discriminate | by apply Z.eqb_neq].
Qed.

Lemma apply_defaults_id (cfg : config.Config) :
  config.critical_set cfg -> config.apply_defaults cfg = cfg.
Proof.
  destruct cfg as [interval days dir sock [be cli bdir user bt]
                     [te port cookie tt] sys].
  unfold config.critical_set, config.apply_defaults. cbv zeta. cfg_fields.
  intros (Hcli & Huser & Hbt & Hport & Htt).
  apply String.eqb_neq in Hcli, Huser. apply Z.eqb_neq in Hbt, Hport, Htt.
  rewrite Hcli. cfg_fields. rewrite Huser. cfg_fields.
  rewrite Hbt. cfg_fields. rewrite Hport. cfg_fields. by rewrite Htt.
Qed.

(** X12. What [LoadConfig] guarantees. A configuration it returns never has
    an empty client path or user, a zero timeout for either collector, or a
    zero control port. Without a file it returns the defaults. With a file
    it keeps every other field as the decoder left it, the collection
    interval and the retention among them, whatever their value. *)
Theorem LoadConfig_sets_critical_fields_only (f : config.file_state)
    (cfg : config.Config) :
  config.LoadConfig json_Unmarshal f = Ok cfg ->
  config.critical_set cfg
  /\ (f = config.NotExist -> cfg = config.DefaultConfig)
  /\ (forall data decoded,
        f = config.Content data ->
        json_Unmarshal data config.DefaultConfig = Ok decoded ->
        config.CollectionIntervalSeconds cfg
        = config.CollectionIntervalSeconds decoded
        /\ config.RetentionDays cfg = config.RetentionDays decoded
        /\ config.DataDir cfg = config.DataDir decoded
        /\ config.SocketPath cfg = config.SocketPath decoded
        /\ config.System cfg = config.System decoded
        /\ config.Bitcoin_Enabled (config.Bitcoin cfg)
           = config.Bitcoin_Enabled (config.Bitcoin decoded)
        /\ config.Bitcoin_DataDir (config.Bitcoin cfg)
           = config.Bitcoin_DataDir (config.Bitcoin decoded)
        /\ config.Tor_Enabled (config.Tor cfg)
           = config.Tor_Enabled (config.Tor decoded)
        /\ config.CookiePath (config.Tor cfg)
           = config.CookiePath (config.Tor decoded)
        /\ (config.critical_set decoded -> cfg = decoded)).
Proof.
  unfold config.LoadConfig. destruct f as [|e|data].
  - intros [= <-]. split; [| split; [done | done]].
    unfold config.critical_set, config.DefaultConfig. cfg_fields.
    by repeat split.
  - done.
  - destruct (json_Unmarshal data config.DefaultConfig) as [u|e] eqn:Hu;
      [| done].
    intros [= <-]. split; [apply apply_defaults_critical |].
    split; [done |].
    intros data' decoded [= <-]. rewrite Hu. intros [= <-].
    split_and!; try (rewrite apply_defaults_unfold; reflexivity).
    apply apply_defaults_id.
Qed.

(** X13. Saving and loading. When [SaveConfig] returns without error, the
    file holds the text the encoder gave; [LoadConfig] then returns what
    the decoder makes of that text, with the defaults put into the critical
    fields that are zero. So a configuration comes back unchanged exactly
    when the decoder restores it and none of its critical fields is zero;
    a saved timeout of zero comes back as ten. A save that fails before the
    file is opened leaves the file as it was. *)
Theorem SaveConfig_then_LoadConfig (fault : config.write_fault)
    (cfg : config.Config) (f f' : config.file_state) (data : string) :
  json_MarshalIndent cfg = Ok data ->
  json_Unmarshal data config.DefaultConfig = Ok cfg ->
  (config.SaveConfig json_MarshalIndent fault cfg f = (None, f') ->
   fault = config.WriteOk
   /\ f' = config.Content data
   /\ config.LoadConfig json_Unmarshal f' = Ok (config.apply_defaults cfg)
   /\ (config.LoadConfig json_Unmarshal f' = Ok cfg
       <-> config.critical_set cfg))
  /\ (fault = config.OpenFails ->
      config.SaveConfig json_MarshalIndent fault cfg f
      = (Some "open failed", f)).
Proof.
  intros Hm Hu. unfold config.SaveConfig, config.os_WriteFile. rewrite Hm.
  split; [| by intros ->].
  destruct fault; [| done | done]. intros [= <-].
  unfold config.LoadConfig. rewrite Hu.
  split; [done |]. split; [done |]. split; [done |]. split.
  - intros Hsame.
    assert (config.apply_defaults cfg = cfg) as <- by congruence.
    apply apply_defaults_critical.
  - intros Hset. by rewrite apply_defaults_id.
Qed.

End ConfigTheorems.

(** * Writing and reading back *)

Section RoundTrip.

Variable rt : Runtime.

Lemma splitLines_line_cons (data rest : string) :
  one_line data = true ->
  splitLines ((data +:+ String newline "") +:+ rest) = data :: splitLines rest.
Proof.
  induction data as [|c data IH]; intros Hline.
  - rewrite app_empty_l, app_cons, app_empty_l, splitLines_cons.
    by rewrite Ascii.eqb_refl.
  - cbn [one_line] in Hline. apply andb_true_iff in Hline as [Hc Hline].
    apply negb_true_iff in Hc.
    rewrite !app_cons, splitLines_cons, Hc, (IH Hline). done.
Qed.

(** The text of a day, line by line. *)
Lemma day_text_lines (day : string) (ticks : list (Env * Time * Sample)) :
  Forall (reads_back rt) ticks ->
  lines_fit (splitLines (day_text rt day ticks)) = true
  /\ parsed_records rt (day_text rt day ticks)
     = tick_sample
         <$> filter (fun tick => time_Format rt (tick_time tick) = day) ticks.
Proof.
  induction 1 as [|[[env now] sample] ticks (data & Hm & Hline & Hfit & Hu) _
                    [IHfit IHrec]]; [done |].
  cbn [day_text]. rewrite filter_cons.
  change (tick_time (env, now, sample)) with now.
  destruct (String.eqb (time_Format rt now) day) eqn:Hday.
  - apply String.eqb_eq in Hday.
    rewrite decide_True by done.
    unfold record_line, parsed_records in *.
    cbn [tick_sample snd] in Hm, Hu. rewrite Hm.
    rewrite (splitLines_line_cons data _ Hline). split.
    + cbn [lines_fit forallb]. rewrite Hfit. simpl. exact IHfit.
    + cbn [omap list_omap]. rewrite Hu.
      rewrite fmap_cons. f_equal. exact IHrec.
  - apply String.eqb_neq in Hday. by rewrite decide_False.
Qed.

(** Taking the elements of a list file by file gives the list again, up to
    the order. *)
Lemma flat_map_by_key {A} (key : A -> string) (l : list A)
    (keys : list string) :
  NoDup keys ->
  (forall x, x ∈ l -> key x ∈ keys) ->
  flat_map (fun k => filter (fun x => key x = k) l) keys ≡ₚ l.
Proof.
  intros Hnodup. induction l as [|x l IH]; intros Hkeys.
  - clear. induction keys as [|k keys IH]; [done | exact IH].
  - assert (forall y, y ∈ l -> key y ∈ keys) as Hrest
      by (intros y Hy; apply Hkeys; by right).
    specialize (IH Hrest). clear Hrest.
    assert (key x ∈ keys) as Hx by (apply Hkeys; left).
    transitivity (x :: flat_map (fun k => filter (fun y => key y = k) l) keys);
      [| by constructor].
    clear IH Hkeys.
    induction Hnodup as [|k keys Hk Hnodup IHkeys]; [by inversion Hx |].
    cbn [flat_map]. rewrite filter_cons.
    destruct (decide (key x = k)) as [Heq | Hne].
    + cbn [app]. constructor. apply Permutation_app_head.
      assert (key x ∉ keys) as Hnot by (by rewrite Heq).
      clear -Hnot. induction keys as [|k' keys IH]; [done |].
      cbn [flat_map]. rewrite filter_cons, decide_False.
      * f_equiv. apply IH. intros ?. apply Hnot. by right.
      * intros Heq'. apply Hnot. rewrite Heq'. by left.
    + rewrite IHkeys.
      * by rewrite Permutation_middle.
      * apply elem_of_cons in Hx as [? | ?]; [done | done].
Qed.

Lemma flat_map_ext_elem {A B} (f g : A -> list B) (l : list A) :
  (forall x, x ∈ l -> f x = g x) -> flat_map f l = flat_map g l.
Proof.
  induction l as [|x l IH]; intros H; [done |]. cbn [flat_map].
  rewrite (H x) by (by left).
  rewrite IH; [done |]. intros y Hy. apply H. by right.
Qed.

Lemma kept_of_flat_map {A} (startTime endTime : Time) (sample : A -> Sample)
    (f : string -> list A) (keys : list string) :
  flat_map (fun k => filter (in_range startTime endTime) (sample <$> f k)) keys
  = filter (in_range startTime endTime) (sample <$> flat_map f keys).
Proof.
  induction keys as [|k keys IH]; [done |]. cbn [flat_map].
  by rewrite fmap_app, filter_app, IH.
Qed.

Lemma Day_positive : 0 < Day.
Proof. by vm_compute. Qed.

(** A sample taken on the day it was written, with its timestamp in the
    range, was written on a day that meets the range. *)
Lemma same_day_written_in (startTime endTime : Time)
    (tick : Env * Time * Sample) :
  Timestamp (tick_sample tick) / Day = tick_time tick / Day ->
  in_range startTime endTime (tick_sample tick) ->
  written_in startTime endTime tick.
Proof.
  intros Hday [Hlo Hhi].
  unfold written_in, day_overlaps, day_start. rewrite <- Hday.
  pose proof Day_positive as Hpos.
  pose proof (Z.mul_div_le (Timestamp (tick_sample tick)) Day Hpos).
  pose proof (Z.mul_succ_div_gt (Timestamp (tick_sample tick)) Day Hpos).
  lia.
Qed.

(** The segment files of a writer's directory are the plain files of the
    days it saw, with the text of the day. *)
Lemma writer_segment_file (t0 : Time) (ticks : list (Env * Time * Sample))
    (s : storage.Storage) (w : World) (name : string) (day : Time) :
  ParseLaw rt ->
  writer_inv rt t0 ticks s w ->
  segment_file rt w name day ->
  exists t ino,
    name = storage.segment_name (time_Format rt t)
    /\ day = day_start t
    /\ files w !! name
       = Some (File ino (day_text rt (time_Format rt t) ticks)).
Proof.
  intros Hparse Hinv (d & ino & data & Hname & Hday & Hfile).
  pose proof Hinv as (_ & _ & Hnames & _).
  destruct (Hnames name) as (t & Ht & Hseg); [by eexists |].
  assert (d = time_Format rt t) as ->.
  { destruct Hname as [-> | ->].
    - by apply segment_name_inj.
    - exfalso. unfold storage.segment_name in Hseg.
      pose proof (plain_not_gz (time_Format rt t)) as Hplain.
      rewrite <- Hseg in Hplain.
      replace (d +:+ ".jsonl.gz") with ((d +:+ ".jsonl") +:+ ".gz") in Hplain
        by (by rewrite string_app_assoc).
      by rewrite HasSuffix_app in Hplain. }
  rewrite Hparse in Hday. injection Hday as <-.
  rewrite Hseg in Hfile.
  destruct (writer_inv_text rt t0 ticks s w _ _ Hinv Hfile)
    as (ino' & _ & Heq & _).
  exists t, ino'. by rewrite Hseg, Hfile, Heq.
Qed.

(** X14. Reading back what was written. After a storage was made in an
    empty directory and samples were written with success, a query that can
    read the files returns, in ascending order of timestamp, the written
    samples whose timestamp lies in the range and which were written on a
    day that meets the range: samples are filed under the day of the
    write, not under the day of their timestamp. When every sample was
    written on the day of its timestamp, that is every written sample with
    its timestamp in the range. *)
Theorem Query_returns_what_was_written (env0 env : Env) (t0 : Time)
    (retentionDays : Z) (w0 w1 w : World) (s0 s : storage.Storage)
    (ticks : list (Env * Time * Sample)) (startTime endTime : Time) :
  SortLaws rt ->
  ParseLaw rt ->
  files w0 = ∅ ->
  storage.NewStorage rt env0 t0 retentionDays w0 = (Ok s0, w1) ->
  run_writes rt ticks s0 w1 = Some (s, w) ->
  Forall (reads_back rt) ticks ->
  fail_ReadDir env = false ->
  (forall name, fail_Open env name = false) ->
  (forall name, fail_Read env name = false) ->
  exists samples,
    storage.Query rt env startTime endTime w = Ok samples
    /\ Sorted ts_le (slice_elems samples)
    /\ slice_elems samples
         ≡ₚ filter (in_range startTime endTime)
              (tick_sample <$> filter (written_in startTime endTime) ticks)
    /\ (Forall (fun tick =>
                  Timestamp (tick_sample tick) / Day = tick_time tick / Day)
               ticks ->
        slice_elems samples
          ≡ₚ filter (in_range startTime endTime) (tick_sample <$> ticks)).
Proof.
  intros Hsort Hparse Hempty Hnew Hrun Hback Hdir Hopen Hread.
  assert (writer_inv rt t0 ticks s w) as Hinv.
  { eapply run_writes_inv; [| done]. by eapply NewStorage_inv. }
  destruct (getFilesForTimeRange_spec rt env startTime endTime w Hdir)
    as (paths & Hfiles & _ & Hnodup & Hmem).
  set (L := filter (written_in startTime endTime) ticks).
  assert (flat_map (kept_records rt env w startTime endTime) paths
          ≡ₚ filter (in_range startTime endTime) (tick_sample <$> L))
    as Hkept.
  { rewrite (flat_map_ext_elem _
               (fun k => filter (in_range startTime endTime)
                           (tick_sample
                              <$> filter (fun tick => tick_file rt tick = k) L))).
    - rewrite kept_of_flat_map. apply filter_Permutation, fmap_Permutation.
      apply flat_map_by_key; [done |].
      intros tick [Hin Htick]%list_elem_of_filter.
      apply Hmem. exists (day_start (tick_time tick)). split; [| done].
      pose proof Hinv as (_ & _ & _ & Htexts).
      destruct (Htexts (tick_time tick)) as [ino Hino].
      { right. by apply list_elem_of_fmap_2. }
      exists (time_Format rt (tick_time tick)), ino. eexists.
      split; [by left |]. split; [apply Hparse | exact Hino].
    - intros name [day [Hseg Hover]]%Hmem.
      destruct (writer_segment_file t0 ticks s w name day Hparse Hinv Hseg)
        as (t & ino & -> & -> & Hfile).
      destruct (day_text_lines (time_Format rt t) ticks Hback) as [Hfit Hrec].
      rewrite (kept_records_readable rt env w startTime endTime _ ino _
                 (day_text rt (time_Format rt t) ticks) Hfile
                 (Hopen _) (Hread _));
        [| unfold storage.segment_name; by rewrite plain_not_gz | done].
      rewrite Hrec. f_equal. f_equal. subst L.
      rewrite list_filter_filter. apply list_filter_iff.
      intros tick. unfold tick_file. split.
      + intros Hday. split; [by rewrite Hday |].
        unfold written_in.
        assert (day_start (tick_time tick) = day_start t) as ->; [| done].
        pose proof (Hparse (tick_time tick)) as H1.
        rewrite Hday, Hparse in H1. by injection H1.
      + intros [Hname _]. by apply segment_name_inj in Hname. }
  eexists. split; [by apply Query_unfold |].
  split; [by apply sort_in_place_sorted |].
  assert (slice_elems
            (storage.sort_Slice_in_place rt
               (storage.queryLoop rt env startTime endTime w paths nil_slice))
          ≡ₚ filter (in_range startTime endTime) (tick_sample <$> L))
    as Hresult.
  { by rewrite sort_in_place_perm, queryLoop_from_nil. }
  split; [exact Hresult |].
  intros Hsame. rewrite Hresult. subst L.
  clear -Hsame. induction Hsame as [|tick ticks Hday _ IH]; [done |].
  rewrite fmap_cons, (filter_cons _ (tick_sample tick)), (filter_cons _ tick).
  destruct (decide (written_in startTime endTime tick)) as [Hin | Hout].
  - rewrite fmap_cons, filter_cons.
    destruct (decide (in_range startTime endTime (tick_sample tick)));
      [by constructor | done].
  - rewrite decide_False; [done |].
    intros Hrange. apply Hout. by apply same_day_written_in.
Qed.

End RoundTrip.

(** * Compression and queries *)

Section TransparentCompression.

Variable rt : Runtime.

Lemma compressed_name_not_plain (d d' : string) :
  d +:+ ".jsonl.gz" <> d' +:+ ".jsonl".
Proof.
  intros Heq. pose proof (plain_not_gz d') as Hplain.
  rewrite <- Heq in Hplain.
  replace (d +:+ ".jsonl.gz") with ((d +:+ ".jsonl") +:+ ".gz") in Hplain
    by (by rewrite string_app_assoc).
  by rewrite HasSuffix_app in Hplain.
Qed.

Lemma flat_map_fmap {A B C} (f : A -> B) (g : B -> list C) (l : list A) :
  flat_map g (f <$> l) = flat_map (fun x => g (f x)) l.
Proof. induction l as [|x l IH]; [done |]. cbn. by rewrite IH. Qed.

Lemma flat_map_Permutation {A B} (g : A -> list B) (l k : list A) :
  l ≡ₚ k -> flat_map g l ≡ₚ flat_map g k.
Proof.
  induction 1 as [|x l k _ IH|x y l|l k m _ IH1 _ IH2]; cbn.
  - done.
  - by rewrite IH.
  - by rewrite !app_assoc, (Permutation_app_comm (g y)).
  - by rewrite IH1.
Qed.

(** X15. Compressing a segment does not change what queries return. When
    [compressFile] runs on the plain file of a day with nothing failing,
    and no compressed file of that day was there, every query returns
    afterwards the records it returned before, up to the order of records
    with equal timestamps, provided the reader is treated alike under both
    names. *)
Theorem compressFile_keeps_query_results (envc env : Env) (d : string)
    (w : World) (ino : nat) (data : string) (startTime endTime : Time) :
  SortLaws rt ->
  GzipLaws rt ->
  files w !! (d +:+ ".jsonl") = Some (File ino data) ->
  files w !! ((d +:+ ".jsonl") +:+ ".gz") = None ->
  fail_Open envc (d +:+ ".jsonl") = false ->
  fail_Create envc ((d +:+ ".jsonl") +:+ ".gz") = false ->
  fail_Copy envc = None ->
  fail_Flush envc = None ->
  fail_Remove envc (d +:+ ".jsonl") = false ->
  fail_ReadDir env = false ->
  fail_Open env ((d +:+ ".jsonl") +:+ ".gz") = fail_Open env (d +:+ ".jsonl") ->
  fail_Read env ((d +:+ ".jsonl") +:+ ".gz") = fail_Read env (d +:+ ".jsonl") ->
  exists before after,
    storage.Query rt env startTime endTime w = Ok before
    /\ storage.Query rt env startTime endTime
         (storage.compressFile rt envc (d +:+ ".jsonl") w) = Ok after
    /\ slice_elems after ≡ₚ slice_elems before
    /\ Sorted ts_le (slice_elems after).
Proof.
  intros Hsort Hgzip Hsrc Hnogz Hopenc Hcreate Hcopy Hflush Hremove Hdir
    Hopen Hread.
  set (path := d +:+ ".jsonl") in *.
  set (w' := storage.compressFile rt envc path w).
  assert (files w'
          = delete path
              (<[path +:+ ".gz" :=
                   File (created_ino (path +:+ ".gz") w) (gzip_Compress rt data)]>
                 (files w))) as Hfiles.
  { subst w'.
    rewrite (compressFile_files rt envc path w ino data Hsrc Hopenc Hcreate)
      by (by rewrite Hnogz).
    by rewrite Hcopy, Hflush, Hremove. }
  assert (files w' !! path = None) as Hgone
    by (rewrite Hfiles; apply lookup_delete_eq).
  assert (files w' !! (path +:+ ".gz")
          = Some (File (created_ino (path +:+ ".gz") w) (gzip_Compress rt data)))
    as Hgz.
  { rewrite Hfiles, lookup_delete_ne by (symmetry; apply gz_name_ne).
    apply lookup_insert_eq. }
  assert (forall name, name <> path -> name <> path +:+ ".gz" ->
            files w' !! name = files w !! name) as Hother.
  { intros name Hne1 Hne2.
    by rewrite Hfiles, lookup_delete_ne, lookup_insert_ne. }
  destruct (getFilesForTimeRange_spec rt env startTime endTime w Hdir)
    as (paths & Hq & _ & Hnodup & Hmem).
  destruct (getFilesForTimeRange_spec rt env startTime endTime w' Hdir)
    as (paths' & Hq' & _ & Hnodup' & Hmem').
  assert (path +:+ ".gz" ∉ paths) as Hnotin.
  { intros (day & (d' & i & x & _ & _ & Hfile) & _)%Hmem. congruence. }
  assert (paths' ≡ₚ after_compression path <$> paths) as Hperm.
  { apply NoDup_Permutation; [done | |].
    - apply NoDup_fmap_2_strong; [| done].
      intros x y Hx Hy. unfold after_compression.
      destruct (decide (x = path)) as [-> |], (decide (y = path)) as [-> |];
        try done; intros Heq; exfalso; apply Hnotin; congruence.
    - intros name. rewrite list_elem_of_fmap. split.
      + intros (day & (d' & i & x & Hname & Hday & Hfile) & Hover)%Hmem'.
        destruct (decide (name = path +:+ ".gz")) as [-> | Hne].
        * exists path. unfold after_compression. rewrite decide_True by done.
          split; [done |]. apply Hmem. exists day. split; [| done].
          exists d, ino, data. split; [by left |]. split; [| done].
          destruct Hname as [Hname | Hname].
          -- subst path. rewrite string_app_assoc in Hname.
             by apply compressed_name_not_plain in Hname.
          -- subst path. rewrite string_app_assoc in Hname.
             apply string_app_inj_r in Hname. by subst d'.
        * assert (name <> path) as Hne' by (intros ->; congruence).
          exists name. unfold after_compression.
          rewrite decide_False by done. split; [done |].
          apply Hmem. exists day. split; [| done].
          exists d', i, x. rewrite <- (Hother name) by done. done.
      + intros (y & -> & (day & (d' & i & x & Hname & Hday & Hfile) & Hover)%Hmem).
        apply Hmem'. exists day. split; [| done].
        unfold after_compression.
        destruct (decide (y = path)) as [-> | Hne].
        * exists d. eexists _, _. split; [| split; [| exact Hgz]].
          -- right. subst path. by rewrite string_app_assoc.
          -- destruct Hname as [Hname | Hname].
             ++ subst path. apply string_app_inj_r in Hname. by subst d'.
             ++ subst path. symmetry in Hname.
                by apply compressed_name_not_plain in Hname.
        * exists d', i, x. rewrite Hother; [done | done |].
          intros ->. congruence. }
  assert (forall y, y ∈ paths ->
            kept_records rt env w' startTime endTime (after_compression path y)
            = kept_records rt env w startTime endTime y) as Hkept.
  { intros y Hy. unfold after_compression, kept_records, file_text.
    destruct (decide (y = path)) as [-> | Hne].
    - rewrite Hgz, Hsrc, Hopen, Hread, HasSuffix_app, Hgzip.
      subst path. by rewrite plain_not_gz.
    - rewrite Hother; [done | done |]. intros ->. by apply Hnotin. }
  eexists _, _. split; [by apply Query_unfold |].
  split; [by apply Query_unfold |].
  split; [| by apply sort_in_place_sorted].
  rewrite !sort_in_place_perm, !queryLoop_from_nil by done.
  rewrite (flat_map_Permutation _ _ _ Hperm), flat_map_fmap.
  by rewrite (flat_map_ext_elem _ _ _ Hkept).
Qed.

End TransparentCompression.

(** * The sweep and queries *)

Section SweepAndQueries.

Variable rt : Runtime.




End SweepAndQueries.

(** * A write that breaks off *)

Section TornWrite.

Variable rt : Runtime.

Lemma take_string_app (a b : string) (k : nat) :
  (k <= String.length a)%nat -> take_string k (a +:+ b) = take_string k a.
Proof.
  unfold take_string. revert k. induction a as [|c a IH]; intros k Hk.
  - cbn in Hk. assert (k = 0%nat) as -> by lia. by destruct b.
  - rewrite app_cons. destruct k as [|k]; [done |].
    cbn [String.substring]. rewrite IH; [done |]. cbn in Hk. lia.
Qed.

Lemma take_string_one_line (a : string) (k : nat) :
  one_line a = true -> one_line (take_string k a) = true.
Proof.
  unfold take_string. revert k. induction a as [|c a IH]; intros k Ha.
  - by destruct k.
  - destruct k as [|k]; [done |]. cbn [String.substring one_line] in *.
    apply andb_true_iff in Ha as [Hc Ha]. by rewrite Hc, IH.
Qed.

Lemma handle_data_append (h : handle) (bytes old : string) (w : World) :
  handle_data h w = Some old ->
  handle_data h (append_data h bytes w) = Some (old +:+ bytes).
Proof.
  intros Hold. unfold append_data. rewrite Hold.
  unfold handle_data. cbn [files set_files].
  rewrite lookup_insert_eq. by rewrite decide_True.
Qed.

(** X17. A write that breaks off is not repaired. When the write of a line
    fails after some of its bytes, [Write] returns an error and the bytes
    stay at the end of the segment. The next sample written on that day is
    appended right after them: when the write broke off inside the line,
    the file then ends with one line made of the torn piece followed by the
    next record, instead of a line holding the next record. *)
Theorem torn_write_is_not_repaired (env1 env2 : Env) (now1 now2 : Time)
    (sample1 sample2 : Sample) (s : storage.Storage) (w : World)
    (h : handle) (old data1 data2 : string) (k : nat) :
  storage.currentFile s = Some h ->
  h_closed h = false ->
  h_access h = O_WRONLY ->
  time_Format rt now1 = storage.currentDay s ->
  time_Format rt now2 = storage.currentDay s ->
  handle_data h w = Some old ->
  json_Marshal rt sample1 = Ok data1 ->
  json_Marshal rt sample2 = Ok data2 ->
  fail_Write env1 = Some k ->
  fail_Write env2 = None ->
  fail_Sync env2 = false ->
  let torn := take_string k (data1 +:+ String newline "") in
  let r1 := storage.Write rt env1 now1 sample1 s w in
  let r2 := storage.Write rt env2 now2 sample2 r1.1.2 r1.2 in
  r1.1.1 = Some "failed to write sample: write failed"
  /\ r1.1.2 = s
  /\ handle_data h r1.2 = Some (old +:+ torn)
  /\ r2.1.1 = None
  /\ handle_data h r2.2
     = Some ((old +:+ torn) +:+ (data2 +:+ String newline ""))
  /\ ((k <= String.length data1)%nat ->
      complete old = true ->
      one_line data1 = true ->
      one_line data2 = true ->
      splitLines ((old +:+ torn) +:+ (data2 +:+ String newline ""))
      = splitLines old ++ [take_string k data1 +:+ data2]).
Proof.
  intros Hcur Hopen Hacc Hday1 Hday2 Hold Hm1 Hm2 Hk Hw2 Hsync2 torn r1 r2.
  assert (r1 = (Some "failed to write sample: write failed", s,
                emit (SysWrite (h_name h) torn) (append_data h torn w)))
    as Hr1.
  { subst r1. unfold storage.Write, storage.rotateIfNeeded.
    rewrite Hday1, String.eqb_refl, Hcur, bool_decide_eq_true_2 by eauto.
    cbn [andb]. rewrite Hm1, Hcur. unfold file_Write.
    by rewrite Hopen, Hacc, Hk. }
  assert (handle_data h r1.2 = Some (old +:+ torn)) as Hdata1.
  { rewrite Hr1. cbn [snd]. by apply (handle_data_append h torn old w). }
  assert (r2 = (None, s,
                emit (SysFsync (h_name h))
                  (emit (SysWrite (h_name h) (data2 +:+ String newline ""))
                     (append_data h (data2 +:+ String newline "") r1.2))))
    as Hr2.
  { subst r2. rewrite Hr1. cbn [fst snd].
    unfold storage.Write, storage.rotateIfNeeded.
    rewrite Hday2, String.eqb_refl, Hcur, bool_decide_eq_true_2 by eauto.
    cbn [andb]. rewrite Hm2, Hcur. unfold file_Write, file_Sync.
    by rewrite Hopen, Hacc, Hw2, Hsync2. }
  split; [by rewrite Hr1 |]. split; [by rewrite Hr1 |].
  split; [done |]. split; [by rewrite Hr2 |]. split.
  - rewrite Hr2. cbn [snd].
    by apply (handle_data_append h _ (old +:+ torn) r1.2).
  - intros Hshort Hcomplete Hline1 Hline2. subst torn.
    rewrite (take_string_app data1 _ k Hshort).
    rewrite string_app_assoc, <- (string_app_assoc (take_string k data1)).
    apply splitLines_snoc; [done |].
    by rewrite one_line_app, take_string_one_line, Hline2.
Qed.

End TornWrite.

(** * Further examples *)

Section MoreExamples.

Import smallrt examples scenarios.

Lemma compressFile_again_witness :
  (fail_Copy copy_fails = None -> fail_Remove copy_fails "19723.jsonl" = false ->
   storage.compressFile (rt true) healthy "19723.jsonl"
     (storage.compressFile (rt true) copy_fails "19723.jsonl" one_segment)
   = storage.compressFile (rt true) copy_fails "19723.jsonl" one_segment)
  /\ (is_Some (fail_Copy copy_fails) ->
      fail_Open healthy "19723.jsonl" = false ->
      fail_Create healthy ("19723.jsonl" +:+ ".gz") = false ->
      fail_Copy healthy = None ->
      files (storage.compressFile (rt true) healthy "19723.jsonl"
               (storage.compressFile (rt true) copy_fails "19723.jsonl"
                  one_segment))
      = files (storage.compressFile (rt true) healthy "19723.jsonl"
                 one_segment)).
Proof.
  apply (compressFile_again (rt true) copy_fails healthy "19723.jsonl"
           one_segment 0 same_instant_text).
  - vm_compute. reflexivity.
  - reflexivity.
  - reflexivity.
  - vm_compute. discriminate.
Defined.

Lemma failed_rotation_leaves_closed_descriptor_witness :
  time_Format (rt true) after_midnight <> storage.currentDay started_storage
  /\ storage.currentFile failed_rotation.1.2
     = Some (close_handle segment_handle)
  /\ storage.currentDay failed_rotation.1.2 = storage.currentDay started_storage
  /\ files failed_rotation.2 = files started_world
  /\ spawned failed_rotation.2
     = spawned started_world
         ++ [GoCompressFile
               (storage.segment_name (storage.currentDay started_storage))]
  /\ (forall env' now' sample,
        time_Format (rt true) now' = storage.currentDay started_storage ->
        exists e',
          storage.Write (rt true) env' now' sample failed_rotation.1.2
            failed_rotation.2
          = (Some e', failed_rotation.1.2, failed_rotation.2))
  /\ (forall env' now',
        time_Format (rt true) now' <> storage.currentDay started_storage ->
        spawned (storage.rotateIfNeeded (rt true) env' now'
                   failed_rotation.1.2 failed_rotation.2).2
        = spawned started_world
            ++ [GoCompressFile
                  (storage.segment_name (storage.currentDay started_storage));
                GoCompressFile
                  (storage.segment_name (storage.currentDay started_storage))]).
Proof.
  apply (failed_rotation_leaves_closed_descriptor (rt true) open_fails
           after_midnight started_storage failed_rotation.1.2 started_world
           failed_rotation.2 segment_handle
           "failed to open metrics file: open failed").
  - vm_compute. reflexivity.
  - vm_compute. reflexivity.
Defined.

Lemma Write_after_Close_fails_witness :
  exists s' w',
    Storage_Close started_storage started_world = (None, s', w')
    /\ files w' = files started_world
    /\ (forall env now sample,
          time_Format (rt true) now = storage.currentDay started_storage ->
          exists e,
            storage.Write (rt true) env now sample s' w' = (Some e, s', w'))
    /\ (Storage_Close s' w').1.1 <> None.
Proof.
  apply (Write_after_Close_fails (rt true) started_storage started_world
           segment_handle).
  - vm_compute. reflexivity.
  - reflexivity.
Defined.

Lemma writer_starts_one_compression_per_day_left_witness :
  spawned after_clock_set_back.2
  = spawned (world_of [])
      ++ GoCleanupOldFiles
         :: (compress_task
               <$> days_left (time_Format (rt true) jan1)
                     (time_Format (rt true) ∘ tick_time <$> clock_set_back)).
Proof.
  apply (writer_starts_one_compression_per_day_left (rt true) healthy jan1 30
           clock_set_back jan1_storage after_clock_set_back.1 (world_of [])
           started_on_jan1.2 after_clock_set_back.2).
  - vm_compute. reflexivity.
  - vm_compute. reflexivity.
Defined.

Lemma GET_CURRENT_is_answered_with_an_error_witness :
  exists e,
    server.handleConnection (rt true) healthy jan2 srv0 after_first_tick.1
      after_first_tick.2 (Ok current_request)
    = (srv0,
       {| server.written :=
            [server.line_of
               (server.error_json (rt true)
                  ("failed to get current sample: " +:+ e))];
          server.closed := true |}).
Proof.
  apply (GET_CURRENT_is_answered_with_an_error (rt true) healthy healthy
           before_midnight jan2 30 (world_of []) started_world
           after_first_tick.2 after_first_tick.2 started_storage
           after_first_tick.1 first_tick srv0 current_request
           "get" "current" []).
  - vm_compute. reflexivity.
  - vm_compute. reflexivity.
  - vm_compute. reflexivity.
  - vm_compute. reflexivity.
  - vm_compute. reflexivity.
Defined.

Lemma collectAndStore_counts_and_reports_witness :
  let l1 := main.run_ticks (rt true) two_ticks
              (main.start srv0 started_storage started_world) in
  let l2 := main.run_ticks (rt true) (two_ticks ++ [failing_tick])
              (main.start srv0 started_storage started_world) in
  main.collectionCount l1 + main.errorCount l1 = Z.of_nat (length two_ticks)
  /\ 0 <= main.collectionCount l1
  /\ 0 <= main.errorCount l1
  /\ if main.stored (rt true) failing_tick l1
     then main.collectionCount l2 = main.collectionCount l1 + 1
          /\ main.errorCount l2 = main.errorCount l1
          /\ CollectionCount (server.status (main.srv l2))
             = main.collectionCount l2
          /\ ErrorCount (server.status (main.srv l2)) = main.errorCount l2
          /\ (exists sample,
                failing_tick.2 = Some sample
                /\ LastCollectionTime (server.status (main.srv l2))
                   = Timestamp sample)
     else main.collectionCount l2 = main.collectionCount l1
          /\ main.errorCount l2 = main.errorCount l1 + 1
          /\ main.srv l2 = main.srv l1
          /\ ErrorCount (server.status (main.srv l2)) < main.errorCount l2.
Proof.
  apply (collectAndStore_counts_and_reports (rt true) two_ticks failing_tick
           srv0 started_storage started_world).
  - reflexivity.
  - reflexivity.
  - vm_compute. reflexivity.
Defined.

Lemma Tor_section_is_always_present_witness :
  exists m,
    Tor (collector.Collect config.DefaultConfig jan1 (Err "no data")
           (Err "no data")
           (collector.Tor_Collect (rt true) (Some control_port) (Ok "cookie")
              jan1 (jan1 + 2500000)))
    = Some m
    /\ ControlReachable m = bool_decide (is_Some (Some control_port))
    /\ (Some control_port = None -> m = collector.no_metrics)
    /\ EstablishedCount m = CircuitCount m
    /\ 0 <= CircuitCount m
    /\ BandwidthReadBPS m = 0
    /\ BandwidthWriteBPS m = 0.
Proof.
  apply (Tor_section_is_always_present (rt true) config.DefaultConfig jan1
           (Err "no data") (Err "no data") (Some control_port) (Ok "cookie")
           jan1 (jan1 + 2500000)).
  reflexivity.
Defined.

Lemma getOnionServices_counts_pieces_witness :
  (collector.getOnionServices (rt true) two_onions).1
  = Ok (Z.of_nat (S (count_byte "," (before_byte "=" ""))))
  /\ collector.pending (collector.getOnionServices (rt true) two_onions).2
     = [reply "250 OK"]
  /\ 1 <= Z.of_nat (S (count_byte "," (before_byte "=" ""))).
Proof.
  apply (getOnionServices_counts_pieces (rt true) two_onions
           (reply "250+onions/current=") (reply ".") ""
           [reply "abcdefghijklmnop"; reply "qrstuvwxyzabcdef"]
           [reply "250 OK"] true).
  - reflexivity.
  - vm_compute. reflexivity.
  - repeat constructor; vm_compute; congruence.
  - right. vm_compute. reflexivity.
Defined.

Lemma multi_line_circuit_reply_counts_nothing_witness :
  collector.Tor_Collect (rt true) (Some control_port) (Ok "cookie") jan1
    (jan1 + 2500000)
  = ({| ControlReachable := true; CircuitCount := 0; EstablishedCount := 0;
        BandwidthReadBPS := 0; BandwidthWriteBPS := 0; OnionServices := 0;
        ControlLatencyMs := Z.quot (jan1 + 2500000 - jan1) 1000000 |}, None).
Proof.
  apply (multi_line_circuit_reply_counts_nothing (rt true) control_port
           "cookie" (reply "250 OK") (reply ".") (reply "250 OK")
           circuit_data onion_reply jan1 (jan1 + 2500000)).
  - reflexivity.
  - vm_compute. reflexivity.
  - apply List.Forall_cons.
    { split; [vm_compute; congruence | left; vm_compute; reflexivity]. }
    apply List.Forall_cons.
    { split; [vm_compute; congruence | right; vm_compute; reflexivity]. }
    apply List.Forall_cons.
    { split; [vm_compute; congruence | right; vm_compute; reflexivity]. }
    apply List.Forall_nil.
  - vm_compute. reflexivity.
  - vm_compute. reflexivity.
Defined.

Lemma LoadConfig_sets_critical_fields_only_witness :
  config.critical_set (set_interval 0 config.DefaultConfig)
  /\ (config.Content "0" = config.NotExist ->
      set_interval 0 config.DefaultConfig = config.DefaultConfig)
  /\ (forall data decoded,
        config.Content "0" = config.Content data ->
        decode data config.DefaultConfig = Ok decoded ->
        config.CollectionIntervalSeconds (set_interval 0 config.DefaultConfig)
        = config.CollectionIntervalSeconds decoded
        /\ config.RetentionDays (set_interval 0 config.DefaultConfig)
           = config.RetentionDays decoded
        /\ config.DataDir (set_interval 0 config.DefaultConfig)
           = config.DataDir decoded
        /\ config.SocketPath (set_interval 0 config.DefaultConfig)
           = config.SocketPath decoded
        /\ config.System (set_interval 0 config.DefaultConfig)
           = config.System decoded
        /\ config.Bitcoin_Enabled
             (config.Bitcoin (set_interval 0 config.DefaultConfig))
           = config.Bitcoin_Enabled (config.Bitcoin decoded)
        /\ config.Bitcoin_DataDir
             (config.Bitcoin (set_interval 0 config.DefaultConfig))
           = config.Bitcoin_DataDir (config.Bitcoin decoded)
        /\ config.Tor_Enabled (config.Tor (set_interval 0 config.DefaultConfig))
           = config.Tor_Enabled (config.Tor decoded)
        /\ config.CookiePath (config.Tor (set_interval 0 config.DefaultConfig))
           = config.CookiePath (config.Tor decoded)
        /\ (config.critical_set decoded ->
            set_interval 0 config.DefaultConfig = decoded)).
Proof.
  apply (LoadConfig_sets_critical_fields_only decode (config.Content "0")
           (set_interval 0 config.DefaultConfig)).
  vm_compute. reflexivity.
Defined.

Lemma SaveConfig_then_LoadConfig_witness :
  (config.SaveConfig encode config.WriteOk every_five_seconds config.NotExist
   = (None, config.Content "5") ->
   config.WriteOk = config.WriteOk
   /\ config.Content "5" = config.Content "5"
   /\ config.LoadConfig decode (config.Content "5")
      = Ok (config.apply_defaults every_five_seconds)
   /\ (config.LoadConfig decode (config.Content "5") = Ok every_five_seconds
       <-> config.critical_set every_five_seconds))
  /\ (config.WriteOk = config.OpenFails ->
      config.SaveConfig encode config.WriteOk every_five_seconds
        config.NotExist
      = (Some "open failed", config.NotExist)).
Proof.
  apply (SaveConfig_then_LoadConfig decode encode config.WriteOk
           every_five_seconds config.NotExist (config.Content "5") "5").
  - vm_compute. reflexivity.
  - vm_compute. reflexivity.
Defined.

Lemma small_ParseLaw (stable : bool) : ParseLaw (rt stable).
Proof.
  intros t. simpl. unfold Parse, Format. by rewrite Z_of_to_string.
Qed.

Lemma Query_returns_what_was_written_witness :
  exists samples,
    storage.Query (rt true) healthy jan1 (jan2 + Day) around_midnight_written.2
    = Ok samples
    /\ Sorted ts_le (slice_elems samples)
    /\ slice_elems samples
         ≡ₚ filter (in_range jan1 (jan2 + Day))
              (tick_sample
                 <$> filter (written_in jan1 (jan2 + Day)) around_midnight)
    /\ (Forall (fun tick =>
                  Timestamp (tick_sample tick) / Day = tick_time tick / Day)
               around_midnight ->
        slice_elems samples
          ≡ₚ filter (in_range jan1 (jan2 + Day))
               (tick_sample <$> around_midnight)).
Proof.
  apply (Query_returns_what_was_written (rt true) healthy healthy jan1 30
           (world_of []) started_on_jan1.2 around_midnight_written.2
           jan1_storage around_midnight_written.1 around_midnight jan1
           (jan2 + Day)).
  - apply small_SortLaws.
  - apply small_ParseLaw.
  - reflexivity.
  - vm_compute. reflexivity.
  - vm_compute. reflexivity.
  - apply List.Forall_cons.
    { eexists. repeat split; vm_compute; reflexivity. }
    apply List.Forall_cons.
    { eexists. repeat split; vm_compute; reflexivity. }
    apply List.Forall_nil.
  - reflexivity.
  - reflexivity.
  - reflexivity.
Defined.

Lemma compressFile_keeps_query_results_witness :
  exists before after,
    storage.Query (rt true) healthy jan1 jan2 one_segment = Ok before
    /\ storage.Query (rt true) healthy jan1 jan2
         (storage.compressFile (rt true) healthy ("19723" +:+ ".jsonl")
            one_segment) = Ok after
    /\ slice_elems after ≡ₚ slice_elems before
    /\ Sorted ts_le (slice_elems after).
Proof.
  apply (compressFile_keeps_query_results (rt true) healthy healthy "19723"
           one_segment 0 same_instant_text jan1 jan2).
  - apply small_SortLaws.
  - apply small_GzipLaws.
  - vm_compute. reflexivity.
  - vm_compute. reflexivity.
  - reflexivity.
  - reflexivity.
  - reflexivity.
  - reflexivity.
  - reflexivity.
  - reflexivity.
  - reflexivity.
  - reflexivity.
Defined.


Lemma torn_write_is_not_repaired_witness :
  let torn := take_string 5 ("1704153599999999999" +:+ String newline "") in
  let r1 := storage.Write (rt true) write_breaks before_midnight
              (bare before_midnight) started_storage started_world in
  let r2 := storage.Write (rt true) healthy before_midnight
              (bare before_midnight) r1.1.2 r1.2 in
  r1.1.1 = Some "failed to write sample: write failed"
  /\ r1.1.2 = started_storage
  /\ handle_data segment_handle r1.2 = Some ("" +:+ torn)
  /\ r2.1.1 = None
  /\ handle_data segment_handle r2.2
     = Some (("" +:+ torn)
               +:+ ("1704153599999999999" +:+ String newline ""))
  /\ ((5 <= String.length "1704153599999999999")%nat ->
      complete "" = true ->
      one_line "1704153599999999999" = true ->
      one_line "1704153599999999999" = true ->
      splitLines (("" +:+ torn)
                    +:+ ("1704153599999999999" +:+ String newline ""))
      = splitLines ""
          ++ [take_string 5 "1704153599999999999" +:+ "1704153599999999999"]).
Proof.
  apply (torn_write_is_not_repaired (rt true) write_breaks healthy
           before_midnight before_midnight (bare before_midnight)
           (bare before_midnight) started_storage started_world
           segment_handle "" "1704153599999999999" "1704153599999999999" 5).
  - vm_compute. reflexivity.
  - reflexivity.
  - reflexivity.
  - vm_compute. reflexivity.
  - vm_compute. reflexivity.
  - vm_compute. reflexivity.
  - vm_compute. reflexivity.
  - vm_compute. reflexivity.
  - reflexivity.
  - reflexivity.
  - reflexivity.
Defined.

End MoreExamples.
